(** * ebook-store: the Stacks service layer and its page-level consumers

    A shallow embedding of [frontend/services/stacks.ts],
    [frontend/pages/upload.tsx], [frontend/pages/my-books.tsx] and of the
    [EbookCard] component, with the properties that hold of them.

    Modelling conventions
    - a JavaScript [number] that carries an amount (a price, a timestamp) is
      an IEEE-754 binary64 value: [spec_float] with precision 53 and maximal
      exponent 1024, with the Standard Library's [SFmul], [SFdiv], ...;
    - a JavaScript [number] that is a listing id, a listing count or a loop
      counter is a [nat]: these are Clarity [uint]s and loop indices, on which
      [Number(...)], [i++] and [i <= count] are exact below 2^53;
    - a JavaScript string is a [string]: a sequence of code units below 256,
      so that the text the properties speak about is Latin-1 text;
    - the value that [cvToValue] hands back for a listing is an untyped
      JavaScript value ([JSValue]); objects are finite maps from keys to values;
    - remote calls are answered by an oracle that sees the requests issued so
      far; every function of the service layer threads that history, which is
      also the trace the theorems speak about; a read is answered, by a value
      or by an exception: a read that never settles is not modelled;
    - the publish form reaches [handleSubmit] through the constraint
      validation of the browser ([Upload.onSubmit]);
    - [openContractCall] records the request and runs the callback that the
      answer of the wallet selects before it returns; [Promise.all] over a
      [map] runs the calls one after the other, in the order in which the
      source starts them;
    - library functions are modelled from their documentation: [parseFloat],
      [Number], [trim], [TextEncoder], SHA-256, [uintCV] (integers from 0 to
      2^128 - 1, an exception otherwise) and [toFixed] (below 10^21);
    - [my-books.tsx] holds two versions of the page: [MyBooksIndexed] is the
      first, which reads the author index, [MyBooks] the second, which scans
      all listings;
    - [console.log] / [console.error] and the debug text are not modelled. *)

From Stdlib Require Import ZArith QArith Qpower Qround List String Ascii Bool Lia Lqa SpecFloat
  DecimalString.
From stdpp Require Import base option gmap strings.
Import ListNotations.

#[local] Open Scope Z_scope.
#[local] Open Scope list_scope.

(** ** JavaScript numbers: IEEE-754 binary64 *)

Module Number.

Definition prec : Z := 53.
Definition emax : Z := 1024.

Definition number : Type := spec_float.

Definition NaN : number := S754_nan.
Definition Infinity : number := S754_infinity false.
Definition zero : number := S754_zero false.

(** The binary64 value nearest to the integer [z] (ties to even). *)
Definition of_Z (z : Z) : number := binary_normalize prec emax z 0 false.

(** The binary64 value nearest to [(-1)^s * n / d], for positive [n], [d]
    of any size: the division algorithm of [SFdiv] keeps a quotient of at
    least [prec] bits and the position of the remainder. *)
Definition of_ratio (s : bool) (n d : positive) : number :=
  SFdiv prec emax (S754_finite s n 0) (S754_finite false d 0).

Definition mul : number -> number -> number := SFmul prec emax.
Definition div : number -> number -> number := SFdiv prec emax.
Definition sub : number -> number -> number := SFsub prec emax.
Definition add : number -> number -> number := SFadd prec emax.

(** [x <= y], [x < y], [x > y]: false as soon as one side is NaN. *)
Definition leb : number -> number -> bool := SFleb.
Definition ltb : number -> number -> bool := SFltb.
Definition gtb (x y : number) : bool := SFltb y x.

(** [Math.floor]. Zeros, infinities and NaN are returned unchanged; a finite
    value with a non-negative exponent is an integer already. *)
Definition floor (x : number) : number :=
  match x with
  | S754_finite s m e =>
      if 0 <=? e then x
      else binary_normalize prec emax
             (cond_Zopp s (Zpos m) / 2 ^ (- e)) 0 false
  | _ => x
  end.

(** ToBoolean on a number: NaN, +0 and -0 are falsy. *)
Definition truthy (x : number) : bool :=
  match x with
  | S754_nan | S754_zero _ => false
  | _ => true
  end.

Definition is_finite (x : number) : bool :=
  match x with
  | S754_zero _ | S754_finite _ _ _ => true
  | _ => false
  end.

(** The rational [m * 2 ^ e]. *)
Definition scaled (m e : Z) : Q := (inject_Z m * 2 ^ e)%Q.

(** The exponent that rounding to binary64 gives a number of [d] significant
    bits whose last bit has weight [2 ^ ex]. *)
Definition round_exponent (d ex : Z) : Z :=
  Z.max ex (Z.max (d + ex - 53) (-1074)).

(** The rational a finite binary64 value denotes (0 for the others). *)
Definition value (x : number) : Q :=
  match x with
  | S754_finite s m e => (inject_Z (cond_Zopp s (Zpos m)) * 2 ^ e)%Q
  | _ => 0%Q
  end.

(** [Number.isInteger] and the integer a number denotes. *)
Definition to_integer (x : number) : option Z :=
  match x with
  | S754_zero _ => Some 0
  | S754_finite s m e =>
      if 0 <=? e then Some (cond_Zopp s (Zpos m) * 2 ^ e)
      else if (Zpos m) mod 2 ^ (- e) =? 0
           then Some (cond_Zopp s (Zpos m) / 2 ^ (- e))
           else None
  | _ => None
  end.

Definition well_formed (x : number) : bool := valid_binary prec emax x.

End Number.

Import Number.

(** ** Utility functions of [services/stacks.ts] *)

(** The literal [1_000_000]. *)
Definition MICRO : number := of_Z 1000000.

Definition stxToMicroStx (stx : number) : number :=
  floor (mul stx MICRO).

Definition microStxToStx (microStx : number) : number :=
  div microStx MICRO.

(** ** JavaScript strings *)

Module JSString.

Definition code (c : ascii) : Z := Z.of_N (N_of_ascii c).

(** WhiteSpace and LineTerminator code units below 256: TAB, LF, VT, FF, CR,
    SP and NBSP. *)
Definition isWhiteSpace (c : ascii) : bool :=
  existsb (Z.eqb (code c)) [9; 10; 11; 12; 13; 32; 160].

Fixpoint trimStartL (s : list ascii) : list ascii :=
  match s with
  | c :: r => if isWhiteSpace c then trimStartL r else s
  | [] => []
  end.

Definition trimL (s : list ascii) : list ascii :=
  List.rev (trimStartL (List.rev (trimStartL s))).

(** [String.prototype.trim]. *)
Definition trim (s : string) : string :=
  string_of_list_ascii (trimL (list_ascii_of_string s)).

(** [!s] on a string: the empty string is the only falsy one. *)
Definition is_empty (s : string) : bool :=
  match s with EmptyString => true | _ => false end.

(** [new TextEncoder().encode(s)]: UTF-8, one or two bytes per code unit. *)
Definition encode_unit (c : ascii) : list Z :=
  let n := code c in
  if n <? 128 then [n] else [192 + n / 64; 128 + n mod 64].

Definition TextEncoder_encode (s : string) : list Z :=
  flat_map encode_unit (list_ascii_of_string s).

(** *** Numeric literals *)

Definition digit_of (c : ascii) : option Z :=
  let n := code c in
  if (48 <=? n) && (n <=? 57) then Some (n - 48) else None.

(** The longest run of decimal digits at the head of [s], most significant
    first, and what follows it. *)
Fixpoint read_digits (s : list ascii) : list Z * list ascii :=
  match s with
  | c :: r =>
      match digit_of c with
      | Some d => let '(ds, rest) := read_digits r in (d :: ds, rest)
      | None => ([], s)
      end
  | [] => ([], [])
  end.

Definition digits_value (ds : list Z) : Z :=
  fold_left (fun acc d => 10 * acc + d) ds 0.

Definition read_sign (s : list ascii) : bool * list ascii :=
  match s with
  | "+"%char :: r => (false, r)
  | "-"%char :: r => (true, r)
  | _ => (false, s)
  end.

Fixpoint strip_prefix (p s : list ascii) : option (list ascii) :=
  match p, s with
  | [], _ => Some s
  | a :: p', b :: s' => if Ascii.eqb a b then strip_prefix p' s' else None
  | _ :: _, [] => None
  end.

(** What a StrDecimalLiteral denotes: an infinity, or the decimal
    [(-1)^sign * digits * 10^exponent]. *)
Inductive literal : Type :=
  | LitInfinity (sign : bool)
  | LitDecimal (sign : bool) (digits : Z) (exponent : Z).

(** ExponentPart_opt: [e] or [E], an optional sign and at least one digit;
    when no digit follows, the exponent is not part of the literal. *)
Definition read_exponent (s : list ascii) : Z * list ascii :=
  match s with
  | c :: r =>
      if Ascii.eqb c "e"%char || Ascii.eqb c "E"%char then
        let '(neg, r1) := read_sign r in
        match read_digits r1 with
        | ([], _) => (0, s)
        | (ds, rest) => (cond_Zopp neg (digits_value ds), rest)
        end
      else (0, s)
  | [] => (0, [])
  end.

(** The longest prefix of [s] that is a StrDecimalLiteral, with the rest of
    the input; [None] when no prefix is one. *)
Definition read_StrDecimalLiteral (s : list ascii)
  : option (literal * list ascii) :=
  let '(sign, r0) := read_sign s in
  match strip_prefix (list_ascii_of_string "Infinity") r0 with
  | Some rest => Some (LitInfinity sign, rest)
  | None =>
      let '(ip, r1) := read_digits r0 in
      let '(fp, r2) :=
        match r1 with
        | "."%char :: r => read_digits r
        | _ => ([], r1)
        end in
      let dotted := match r1 with "."%char :: _ => true | _ => false end in
      match ip, fp with
      | [], [] => None
      | _, _ =>
          let r2' := if dotted then r2 else r1 in
          let '(ex, rest) := read_exponent r2' in
          Some (LitDecimal sign (digits_value (ip ++ fp))
                  (ex - Z.of_nat (length fp)), rest)
      end
  end.

(** StringNumericValue: the binary64 value nearest to the literal. *)
Definition literal_value (l : literal) : number :=
  match l with
  | LitInfinity s => S754_infinity s
  | LitDecimal s n ex =>
      match n with
      | Zpos p =>
          if 0 <=? ex
          then binary_normalize prec emax (cond_Zopp s (Zpos p * 10 ^ ex)) 0 s
          else of_ratio s p (Z.to_pos (10 ^ (- ex)))
      | _ => S754_zero s
      end
  end.

(** The global [parseFloat]: leading white space is skipped, the longest
    StrDecimalLiteral prefix is read, anything else gives NaN. *)
Definition parseFloat (s : string) : number :=
  match read_StrDecimalLiteral (trimStartL (list_ascii_of_string s)) with
  | Some (l, _) => literal_value l
  | None => NaN
  end.

End JSString.

Import JSString.

(** ** [Number.prototype.toFixed] and [formatStx] *)

(** The decimal digits of a natural number. *)
Definition decimal (n : Z) : string :=
  NilZero.string_of_uint (N.to_uint (Z.to_N n)).

(** The integer [n] for which [n / 10 ^ f - x] is as close to zero as
    possible, the larger one when there are two. *)
Definition nearest_multiple (f : nat) (x : Q) : Z :=
  Qfloor (x * inject_Z (10 ^ Z.of_nat f) + (1 # 2)).

(** The digits of [n] with a decimal point before the last [f] of them, after
    padding with zeros on the left up to [f + 1] digits. *)
Definition fixed_digits (f : nat) (n : Z) : string :=
  let m := decimal n in
  let m :=
    if (String.length m <=? f)%nat
    then (string_of_list_ascii (repeat "0"%char (f + 1 - String.length m))
          ++ m)%string
    else m in
  let k := String.length m in
  if (f =? 0)%nat then m
  else (substring 0 (k - f) m ++ "." ++ substring (k - f) f m)%string.

(** [x.toFixed(f)]. From [10 ^ 21] on the result is [ToString x], which is
    not modelled: [None]. *)
Definition toFixed (x : number) (f : nat) : option string :=
  match x with
  | S754_nan => Some "NaN"
  | S754_infinity false => Some "Infinity"
  | S754_infinity true => Some "-Infinity"
  | S754_zero _ => Some (fixed_digits f 0)
  | S754_finite s m e =>
      let a := scaled (Zpos m) e in
      if Qle_bool (inject_Z (10 ^ 21)) a then None
      else Some ((if s then "-" else EmptyString)
                 ++ fixed_digits f (nearest_multiple f a))%string
  end.

Definition formatStx (microStx : number) : option string :=
  option_map (fun amount => (amount ++ " STX")%string)
    (toFixed (microStxToStx microStx) 6).

(** ** The [EbookCard] component *)

Module EbookCard.

(** [s.slice(0, n)] and [s.slice(-n)]. *)
Definition slice_first (n : nat) (s : string) : string := substring 0 n s.

Definition slice_last (n : nat) (s : string) : string :=
  substring (String.length s - n) n s.

Definition truncateAddress (addr : string) : string :=
  (slice_first 8 addr ++ "..." ++ slice_last 6 addr)%string.

End EbookCard.

(** ** Untyped JavaScript values *)

Module JS.

#[warnings="-register-all"]
Inductive JSValue : Type :=
  | JUndefined
  | JNull
  | JBool (b : bool)
  | JNum (n : number)
  | JBigInt (z : Z)
  | JStr (s : string)
  | JObj (fields : gmap string JSValue).

(** ToBoolean. *)
Definition ToBoolean (v : JSValue) : bool :=
  match v with
  | JUndefined | JNull => false
  | JBool b => b
  | JNum n => truthy n
  | JBigInt z => negb (z =? 0)
  | JStr s => negb (is_empty s)
  | JObj _ => true
  end.

(** [a || b]. *)
Definition or_else (a b : JSValue) : JSValue :=
  if ToBoolean a then a else b.

(** Property read [v.k] / [v["k"]] on a value that is neither [null] nor
    [undefined]; a primitive has none of the keys read here. *)
Definition get (v : JSValue) (k : string) : JSValue :=
  match v with
  | JObj fields => default JUndefined (fields !! k)
  | _ => JUndefined
  end.

(** [v === s] for a string [s], and [v !== false]. *)
Definition strict_eq_string (v : JSValue) (s : string) : bool :=
  match v with
  | JStr t => String.eqb t s
  | _ => false
  end.

Definition strict_neq_false (v : JSValue) : bool :=
  match v with
  | JBool false => false
  | _ => true
  end.

(** *** [Number(v)] *)

Definition radix_digit_of (radix : Z) (c : ascii) : option Z :=
  let n := code c in
  let d :=
    if (48 <=? n) && (n <=? 57) then n - 48
    else if (97 <=? n) && (n <=? 102) then n - 87
    else if (65 <=? n) && (n <=? 70) then n - 55
    else radix in
  if d <? radix then Some d else None.

Fixpoint read_radix (radix : Z) (s : list ascii) (acc : Z) : option Z :=
  match s with
  | [] => Some acc
  | c :: r =>
      match radix_digit_of radix c with
      | Some d => read_radix radix r (radix * acc + d)
      | None => None
      end
  end.

(** NonDecimalIntegerLiteral: [0x], [0o] or [0b] and at least one digit. *)
Definition read_NonDecimalIntegerLiteral (s : list ascii) : option Z :=
  match s with
  | "0"%char :: p :: d :: r =>
      let n := code p in
      if (n =? 120) || (n =? 88) then read_radix 16 (d :: r) 0
      else if (n =? 111) || (n =? 79) then read_radix 8 (d :: r) 0
      else if (n =? 98) || (n =? 66) then read_radix 2 (d :: r) 0
      else None
  | _ => None
  end.

(** StringToNumber: white space is trimmed on both sides, the empty string
    is +0, and the whole of what is left must be a numeric literal. *)
Definition StringToNumber (s : string) : number :=
  match trimL (list_ascii_of_string s) with
  | [] => zero
  | t =>
      match read_NonDecimalIntegerLiteral t with
      | Some n => of_Z n
      | None =>
          match read_StrDecimalLiteral t with
          | Some (l, []) => literal_value l
          | _ => NaN
          end
      end
  end.

(** [Number(v)]; a plain object converts through ["[object Object]"]. *)
Definition ToNumber (v : JSValue) : number :=
  match v with
  | JUndefined => NaN
  | JNull => zero
  | JBool b => if b then of_Z 1 else zero
  | JNum n => n
  | JBigInt z => of_Z z
  | JStr s => StringToNumber s
  | JObj _ => NaN
  end.

(** [n || 0] on numbers. *)
Definition num_or_zero (n : number) : number :=
  if truthy n then n else zero.

End JS.

Import JS.


(** ** [crypto.subtle.digest("SHA-256", data)]

    SHA-256 as FIPS 180-4 defines it, on bytes and 32-bit words held in [Z]. *)

Module SHA256.

Definition w32 (x : Z) : Z := x mod 2 ^ 32.

Definition add32 (x y : Z) : Z := w32 (x + y).

Definition rotr (n x : Z) : Z :=
  w32 (Z.lor (Z.shiftr x n) (Z.shiftl x (32 - n))).

Definition shr (n x : Z) : Z := Z.shiftr x n.

Definition not32 (x : Z) : Z := Z.lxor x (2 ^ 32 - 1).

Definition Ch (x y z : Z) : Z :=
  Z.lxor (Z.land x y) (Z.land (not32 x) z).

Definition Maj (x y z : Z) : Z :=
  Z.lxor (Z.lxor (Z.land x y) (Z.land x z)) (Z.land y z).

Definition Sigma0 (x : Z) : Z :=
  Z.lxor (Z.lxor (rotr 2 x) (rotr 13 x)) (rotr 22 x).

Definition Sigma1 (x : Z) : Z :=
  Z.lxor (Z.lxor (rotr 6 x) (rotr 11 x)) (rotr 25 x).

Definition sigma0 (x : Z) : Z :=
  Z.lxor (Z.lxor (rotr 7 x) (rotr 18 x)) (shr 3 x).

Definition sigma1 (x : Z) : Z :=
  Z.lxor (Z.lxor (rotr 17 x) (rotr 19 x)) (shr 10 x).

Definition K : list Z :=
  [
    1116352408; 1899447441; 3049323471; 3921009573; 961987163; 1508970993;
    2453635748; 2870763221; 3624381080; 310598401; 607225278; 1426881987;
    1925078388; 2162078206; 2614888103; 3248222580; 3835390401; 4022224774;
    264347078; 604807628; 770255983; 1249150122; 1555081692; 1996064986;
    2554220882; 2821834349; 2952996808; 3210313671; 3336571891; 3584528711;
    113926993; 338241895; 666307205; 773529912; 1294757372; 1396182291;
    1695183700; 1986661051; 2177026350; 2456956037; 2730485921; 2820302411;
    3259730800; 3345764771; 3516065817; 3600352804; 4094571909; 275423344;
    430227734; 506948616; 659060556; 883997877; 958139571; 1322822218;
    1537002063; 1747873779; 1955562222; 2024104815; 2227730452; 2361852424;
    2428436474; 2756734187; 3204031479; 3329325298
  ].

Definition H0 : list Z :=
  [
    1779033703; 3144134277; 1013904242; 2773480762; 1359893119; 2600822924;
    528734635; 1541459225
  ].

(** Padding: the byte 128, zero bytes up to 56 modulo 64, and the length of
    the message in bits as a 64-bit big-endian integer. *)
Definition be_bytes (width : nat) (x : Z) : list Z :=
  map (fun i => (x / 2 ^ (8 * Z.of_nat i)) mod 256) (rev (seq 0 width)).

Definition pad (msg : list Z) : list Z :=
  let l := Z.of_nat (length msg) in
  let zeros := Z.to_nat ((55 - l) mod 64) in
  msg ++ [128] ++ repeat 0 zeros ++ be_bytes 8 (8 * l).

Fixpoint words_of (fuel : nat) (bytes : list Z) : list Z :=
  match fuel, bytes with
  | S fuel', a :: b :: c :: d :: rest =>
      (((a * 256 + b) * 256 + c) * 256 + d) :: words_of fuel' rest
  | _, _ => []
  end.

(** The message schedule, most recent word first. *)
Fixpoint schedule (n : nat) (w : list Z) : list Z :=
  match n with
  | O => w
  | S n' =>
      let w' :=
        add32 (add32 (sigma1 (nth 1 w 0)) (nth 6 w 0))
              (add32 (sigma0 (nth 14 w 0)) (nth 15 w 0)) in
      schedule n' (w' :: w)
  end.

Record registers : Type :=
  { ra : Z; rb : Z; rc : Z; rd : Z; re : Z; rf : Z; rg : Z; rh : Z }.

Definition round (r : registers) (kw : Z * Z) : registers :=
  let '(k, w) := kw in
  let t1 :=
    add32 (add32 (add32 (add32 (rh r) (Sigma1 (re r)))
                        (Ch (re r) (rf r) (rg r))) k) w in
  let t2 := add32 (Sigma0 (ra r)) (Maj (ra r) (rb r) (rc r)) in
  {| ra := add32 t1 t2; rb := ra r; rc := rb r; rd := rc r;
     re := add32 (rd r) t1; rf := re r; rg := rf r; rh := rg r |}.

Definition of_list (h : list Z) : registers :=
  {| ra := nth 0 h 0; rb := nth 1 h 0; rc := nth 2 h 0; rd := nth 3 h 0;
     re := nth 4 h 0; rf := nth 5 h 0; rg := nth 6 h 0; rh := nth 7 h 0 |}.

Definition to_list (r : registers) : list Z :=
  [ra r; rb r; rc r; rd r; re r; rf r; rg r; rh r].

Definition compress (h : registers) (block : list Z) : registers :=
  let w := rev (schedule 48 (rev (words_of 16 block))) in
  let r := fold_left round (combine K w) h in
  of_list (map (fun '(x, y) => add32 x y) (combine (to_list h) (to_list r))).

Fixpoint blocks (fuel : nat) (h : registers) (bytes : list Z) : registers :=
  match fuel, bytes with
  | S fuel', _ :: _ =>
      blocks fuel' (compress h (firstn 64 bytes)) (skipn 64 bytes)
  | _, _ => h
  end.

(** The 32 bytes of the digest of [msg]. *)
Definition digest (msg : list Z) : list Z :=
  let padded := pad msg in
  flat_map (be_bytes 4) (to_list (blocks (length padded) (of_list H0) padded)).

End SHA256.

(** ** The browser: [window], [process.env] and the persisted wallet session *)

Record Browser : Type := {
  (** [typeof window !== "undefined"] *)
  window_defined : bool;
  (** [process.env.NEXT_PUBLIC_NETWORK]; [None] when the variable is unset *)
  NEXT_PUBLIC_NETWORK : option string;
  (** [userSession.isUserSignedIn()] *)
  isUserSignedIn : bool;
  (** [userSession.loadUserData().profile.stxAddress] *)
  stxAddress_mainnet : string;
  stxAddress_testnet : string
}.

(** [v || d] for an environment variable. *)
Definition env_or (v : option string) (d : string) : string :=
  match v with
  | Some s => if is_empty s then d else s
  | None => d
  end.

Inductive StacksNetwork : Type :=
  | StacksMainnet
  | StacksTestnet
  | StacksDevnet.

Definition getNetwork (B : Browser) : StacksNetwork :=
  let networkEnv := env_or (NEXT_PUBLIC_NETWORK B) "mainnet" in
  if String.eqb networkEnv "mainnet" then StacksMainnet
  else if String.eqb networkEnv "testnet" then StacksTestnet
  else StacksDevnet.

Definition isSignedIn (B : Browser) : bool :=
  if negb (window_defined B) then false
  else isUserSignedIn B.

Definition getUserAddress (B : Browser) : option string :=
  if negb (isSignedIn B) then None
  else
    let network := env_or (NEXT_PUBLIC_NETWORK B) "mainnet" in
    Some (if String.eqb network "mainnet"
          then stxAddress_mainnet B
          else stxAddress_testnet B).

(** ** The remote contract and the wallet *)

Inductive ClarityValue : Type :=
  | UIntCV (n : Z)
  | StringUtf8CV (s : string)
  | BufferCV (bytes : list Z)
  | PrincipalCV (address : string).

(** A request leaving the browser: [callReadOnlyFunction] or
    [openContractCall], with its [functionName] and [functionArgs]. The
    [network] of every request is [getNetwork ()]; contract address and name
    are constants. *)
Inductive Request : Type :=
  | ReadOnlyCall (functionName : string) (functionArgs : list ClarityValue)
  | ContractCall (functionName : string) (functionArgs : list ClarityValue).

(** The requests issued so far, oldest first. *)
Definition History : Type := list Request.

Inductive Outcome (A : Type) : Type :=
  | Throws
  | Returns (a : A).
Arguments Throws {A}.
Arguments Returns {A} a.

(** What the wallet does with a transaction request: the user approves and
    [onFinish] receives the transaction id, the user cancels, nobody answers,
    or [openContractCall] itself fails. *)
Inductive WalletAnswer : Type :=
  | Finish (txId : string)
  | Cancel
  | NoAnswer
  | Fails.

(** The world outside the browser. Each read-only endpoint answers with the
    [cvToValue] of its result, typed as the service layer declares it, or
    throws; every answer may depend on the requests issued before it. *)
Record Remote : Type := {
  get_ebook : History -> nat -> Outcome JSValue;
  get_ebook_count : History -> Outcome nat;
  has_access : History -> string -> nat -> Outcome bool;
  get_author_ebooks : History -> string -> Outcome (option (list nat));
  get_buyer_ebooks : History -> string -> Outcome (option (list nat));
  is_author : History -> nat -> string -> Outcome bool;
  wallet : History -> Request -> WalletAnswer
}.

(** ** Computations that talk to the remote side, set page state and may throw

    [S] is the state of the page (the [useState] cells) that runs the
    computation; the service layer never touches it. *)

Record Run (S A : Type) : Type := {
  outcome : Outcome A;
  page : S;
  trace : History
}.
Arguments outcome {S A} _.
Arguments page {S A} _.
Arguments trace {S A} _.

Definition M (S A : Type) : Type := Remote -> S -> History -> Run S A.

Definition ret {S A} (a : A) : M S A :=
  fun _ s h => {| outcome := Returns a; page := s; trace := h |}.

Definition throw {S A} : M S A :=
  fun _ s h => {| outcome := Throws; page := s; trace := h |}.

Definition bind {S A B} (c : M S A) (k : A -> M S B) : M S B :=
  fun R s h =>
    let r := c R s h in
    match outcome r with
    | Returns a => k a R (page r) (trace r)
    | Throws => {| outcome := Throws; page := page r; trace := trace r |}
    end.

(** [try { c } catch { handler }]. *)
Definition try_catch {S A} (c handler : M S A) : M S A :=
  fun R s h =>
    let r := c R s h in
    match outcome r with
    | Returns _ => r
    | Throws => handler R (page r) (trace r)
    end.

(** [try { c } finally { f }]. *)
Definition try_finally {S A} (c : M S A) (f : M S unit) : M S A :=
  fun R s h =>
    let r := c R s h in
    let r' := f R (page r) (trace r) in
    match outcome r' with
    | Returns _ => {| outcome := outcome r; page := page r'; trace := trace r' |}
    | Throws => {| outcome := Throws; page := page r'; trace := trace r' |}
    end.

(** A [useState] setter. *)
Definition modify {S} (f : S -> S) : M S unit :=
  fun _ s h => {| outcome := Returns tt; page := f s; trace := h |}.

Definition of_outcome {S A} (o : Outcome A) : M S A :=
  fun _ s h => {| outcome := o; page := s; trace := h |}.

Declare Scope js_scope.
Delimit Scope js_scope with js.
Notation "'let*' x := c 'in' k" := (bind c (fun x => k))
  (at level 10, x name, c at level 100, k at level 200) : js_scope.
Notation "c1 ;; c2" := (bind c1 (fun _ => c2))
  (at level 100, c2 at level 200, right associativity) : js_scope.
#[local] Open Scope js_scope.

(** [for (const x of xs) body], [for (let i = 1; i <= n; i++) body] being
    [for_of (seq 1 n)]; the body updates the local it accumulates into. *)
Fixpoint for_of {S A L} (xs : list A) (body : A -> L -> M S L) (acc : L)
  : M S L :=
  match xs with
  | [] => ret acc
  | x :: rest => let* acc' := body x acc in for_of rest body acc'
  end.

(** [await Promise.all(xs.map(async x => f x))]: the calls start in the
    order of [xs] and the results come back in that order. *)
Fixpoint map_async {S A B} (f : A -> M S B) (xs : list A) : M S (list B) :=
  match xs with
  | [] => ret []
  | x :: rest =>
      let* y := f x in
      let* ys := map_async f rest in
      ret (y :: ys)
  end.

(** ** Clarity value constructors of [@stacks/transactions] *)

Definition MAX_U128 : Z := 2 ^ 128 - 1.

(** [uintCV(value)] on a number: a [RangeError] unless [value] is an integer,
    and an error unless it fits an unsigned 128-bit integer. *)
Definition uintCV (value : number) : Outcome ClarityValue :=
  match to_integer value with
  | Some z => if (0 <=? z) && (z <=? MAX_U128) then Returns (UIntCV z) else Throws
  | None => Throws
  end.

(** [uintCV] on a listing id. *)
Definition uintCV_nat (n : nat) : ClarityValue := UIntCV (Z.of_nat n).

(** [await callReadOnlyFunction({functionName, functionArgs, ...})] followed
    by [cvToValue]: the request is recorded, the endpoint answers. *)
Definition callReadOnlyFunction {S A} (functionName : string)
    (functionArgs : list ClarityValue)
    (endpoint : Remote -> History -> Outcome A) : M S A :=
  fun R s h =>
    {| outcome := endpoint R h; page := s;
       trace := h ++ [ReadOnlyCall functionName functionArgs] |}.

(** [f?.(x)] for an optional callback. *)
Definition call_opt {S A} (f : option (A -> M S unit)) (x : A) : M S unit :=
  match f with
  | Some g => g x
  | None => ret tt
  end.

(** [await openContractCall({functionName, functionArgs, onFinish, onCancel})]:
    the request is recorded and the wallet's answer runs one of the callbacks. *)
Definition openContractCall {S} (functionName : string)
    (functionArgs : list ClarityValue)
    (onFinish : string -> M S unit) (onCancel : unit -> M S unit) : M S unit :=
  fun R s h =>
    let request := ContractCall functionName functionArgs in
    let h' := h ++ [request] in
    match wallet R h request with
    | Finish txId => onFinish txId R s h'
    | Cancel => onCancel tt R s h'
    | NoAnswer => {| outcome := Returns tt; page := s; trace := h' |}
    | Fails => {| outcome := Throws; page := s; trace := h' |}
    end.

(** ** Read-only contract calls of [services/stacks.ts] *)

Section Service.

Context {S : Type}.

Definition getEbook (ebookId : nat) : M S JSValue :=
  try_catch
    (let* value :=
       callReadOnlyFunction "get-ebook" [uintCV_nat ebookId]
         (fun R h => get_ebook R h ebookId) in
     ret value)
    (ret JNull).

Definition getEbookCount : M S nat :=
  try_catch
    (let* count :=
       callReadOnlyFunction "get-ebook-count" []
         (fun R h => get_ebook_count R h) in
     ret count)
    (ret 0%nat).

Definition hasAccess (buyerAddress : string) (ebookId : nat) : M S bool :=
  try_catch
    (callReadOnlyFunction "has-access"
       [PrincipalCV buyerAddress; uintCV_nat ebookId]
       (fun R h => has_access R h buyerAddress ebookId))
    (ret false).

Definition getAuthorEbooks (authorAddress : string) : M S (list nat) :=
  try_catch
    (let* ids :=
       callReadOnlyFunction "get-author-ebooks" [PrincipalCV authorAddress]
         (fun R h => get_author_ebooks R h authorAddress) in
     ret (default [] ids))
    (ret []).

Definition getBuyerEbooks (buyerAddress : string) : M S (list nat) :=
  try_catch
    (let* ids :=
       callReadOnlyFunction "get-buyer-ebooks" [PrincipalCV buyerAddress]
         (fun R h => get_buyer_ebooks R h buyerAddress) in
     ret (default [] ids))
    (ret []).

Definition isAuthor (ebookId : nat) (userAddress : string) : M S bool :=
  try_catch
    (callReadOnlyFunction "is-author"
       [uintCV_nat ebookId; PrincipalCV userAddress]
       (fun R h => is_author R h ebookId userAddress))
    (ret false).

(** ** Public contract calls (transactions) *)

Definition registerEbook (title description : string)
    (contentHash : list Z) (price : number)
    (onFinish : option (string -> M S unit))
    (onCancel : option (unit -> M S unit)) : M S unit :=
  let* priceCV := of_outcome (uintCV price) in
  openContractCall "register-ebook"
    [StringUtf8CV title; StringUtf8CV description; BufferCV contentHash;
     priceCV]
    (fun data => call_opt onFinish data)
    (fun _ => call_opt onCancel tt).

Definition buyEbook (ebookId : nat)
    (onFinish : option (string -> M S unit))
    (onCancel : option (unit -> M S unit)) : M S unit :=
  openContractCall "buy-ebook" [uintCV_nat ebookId]
    (fun data => call_opt onFinish data)
    (fun _ => call_opt onCancel tt).

Definition updatePrice (ebookId : nat) (newPrice : number)
    (onFinish : option (string -> M S unit))
    (onCancel : option (unit -> M S unit)) : M S unit :=
  let* newPriceCV := of_outcome (uintCV newPrice) in
  openContractCall "update-price" [uintCV_nat ebookId; newPriceCV]
    (fun data => call_opt onFinish data)
    (fun _ => call_opt onCancel tt).

Definition deactivateEbook (ebookId : nat)
    (onFinish : option (string -> M S unit))
    (onCancel : option (unit -> M S unit)) : M S unit :=
  openContractCall "deactivate-ebook" [uintCV_nat ebookId]
    (fun data => call_opt onFinish data)
    (fun _ => call_opt onCancel tt).

End Service.

(** ** The [Ebook] type and the composite reads *)

Module Ebook.

Record Ebook : Type := {
  id : nat;
  title : JSValue;
  description : JSValue;
  contentHash : JSValue;
  price : number;
  author : JSValue;
  createdAt : number;
  active : JSValue
}.

End Ebook.

Section Composite.

Context {S : Type}.

(** The object literal that [getAllEbooks] and [getEbooksByAuthor] push. *)
Definition listing (id : nat) (ebook : JSValue) : Ebook.Ebook :=
  {| Ebook.id := id;
     Ebook.title := or_else (get ebook "title") (JStr EmptyString);
     Ebook.description := or_else (get ebook "description") (JStr EmptyString);
     Ebook.contentHash := or_else (get ebook "content-hash") (JStr EmptyString);
     Ebook.price := num_or_zero (ToNumber (get ebook "price"));
     Ebook.author := or_else (get ebook "author") (JStr EmptyString);
     Ebook.createdAt := ToNumber (or_else (get ebook "created-at") (JNum zero));
     Ebook.active := get ebook "active" |}.

Definition getAllEbooks : M S (list Ebook.Ebook) :=
  try_catch
    (let* count := getEbookCount in
     let* ebooks :=
       for_of (seq 1 count)
         (fun i ebooks =>
            let* ebook := getEbook i in
            if ToBoolean ebook then
              if ToBoolean (get ebook "active")
              then ret (ebooks ++ [listing i ebook])
              else ret ebooks
            else ret ebooks)
         [] in
     ret ebooks)
    (ret []).

Definition getEbooksByAuthor (authorAddress : string)
  : M S (list Ebook.Ebook) :=
  try_catch
    (let* ebookIds := getAuthorEbooks authorAddress in
     let* ebooks :=
       for_of ebookIds
         (fun id ebooks =>
            let* ebook := getEbook id in
            if ToBoolean ebook
            then ret (ebooks ++ [listing id ebook])
            else ret ebooks)
         [] in
     ret ebooks)
    (ret []).

End Composite.

(** ** [pages/upload.tsx] *)

Module Upload.

(** A selected [File]. *)
Record File : Type := {
  name : string;
  bytes : list Z
}.

(** The form fields. *)
Record Form : Type := {
  title : string;
  description : string;
  price : string;
  file : option File;
  ipfsCid : string
}.

Record State : Type := {
  isLoading : bool;
  error : option string;
  txId : option string
}.

Definition setIsLoading (b : bool) : M State unit :=
  modify (fun s => {| isLoading := b; error := error s; txId := txId s |}).

Definition setError (e : option string) : M State unit :=
  modify (fun s => {| isLoading := isLoading s; error := e; txId := txId s |}).

Definition setTxId (t : option string) : M State unit :=
  modify (fun s => {| isLoading := isLoading s; error := error s; txId := t |}).

Definition handleSubmit (B : Browser) (f : Form) : M State unit :=
  setError None ;;
  setTxId None ;;
  if negb (isSignedIn B) then
    setError (Some "Please connect your wallet first.")
  else if is_empty (trim (title f)) then
    setError (Some "Title is required.")
  else if is_empty (trim (description f)) then
    setError (Some "Description is required.")
  else if is_empty (price f) || leb (parseFloat (price f)) zero then
    setError (Some "Price must be greater than 0.")
  else if is_empty (trim (ipfsCid f)) then
    setError (Some "IPFS CID is required. Upload your ebook to IPFS first.")
  else
    try_catch
      (setIsLoading true ;;
       let data := TextEncoder_encode (ipfsCid f) in
       let contentHash := SHA256.digest data in
       let priceInMicroStx := stxToMicroStx (parseFloat (price f)) in
       registerEbook (title f) (description f) contentHash priceInMicroStx
         (Some (fun data => setTxId (Some data) ;; setIsLoading false))
         (Some (fun _ => setIsLoading false)))
      (setError (Some "Failed to register ebook. Please try again.") ;;
       setIsLoading false).

(** The attributes of the price field,
    [<input type="number" step="0.000001" min="0.000001">]. *)
Definition price_min : string := "0.000001".

(** The price field does not suffer from an underflow: the number it holds
    is not below the number of its [min] attribute. *)
Definition price_in_range (price : string) : bool :=
  leb (parseFloat price_min) (parseFloat price).

(** Constraint validation of the form, which has no [noValidate]: no field is
    [required], so that an empty price field is valid; a price field that is
    not empty must be in range. What [type="number"] and [step] exclude
    beyond that is left out: the forms that pass here include every form
    that the browser submits. *)
Definition checkValidity (f : Form) : bool :=
  is_empty (price f) || price_in_range (price f).

(** [<form onSubmit={handleSubmit}>]: the submit event is fired, and
    [handleSubmit] called, for a valid form only. *)
Definition onSubmit (B : Browser) (f : Form) : M State unit :=
  if checkValidity f then handleSubmit B f else ret tt.

(** The link of the success view. *)
Definition explorerUrl (B : Browser) (txId : string) : string :=
  match NEXT_PUBLIC_NETWORK B with
  | Some "mainnet" =>
      "https://explorer.stacks.co/txid/" ++ txId ++ "?chain=mainnet"
  | _ =>
      "https://explorer.stacks.co/txid/" ++ txId ++ "?chain=testnet"
  end.

End Upload.

(** ** [pages/my-books.tsx] *)

Module MyBooks.

Record State : Type := {
  publishedEbooks : list Ebook.Ebook;
  purchasedEbooks : list Ebook.Ebook;
  isLoading : bool;
  walletConnected : bool;
  userAddress : option string
}.

(** The initial [useState] values. *)
Definition initial : State :=
  {| publishedEbooks := []; purchasedEbooks := []; isLoading := true;
     walletConnected := false; userAddress := None |}.

Definition setPublishedEbooks (l : list Ebook.Ebook) : M State unit :=
  modify (fun s =>
    {| publishedEbooks := l; purchasedEbooks := purchasedEbooks s;
       isLoading := isLoading s; walletConnected := walletConnected s;
       userAddress := userAddress s |}).

Definition setPurchasedEbooks (l : list Ebook.Ebook) : M State unit :=
  modify (fun s =>
    {| publishedEbooks := publishedEbooks s; purchasedEbooks := l;
       isLoading := isLoading s; walletConnected := walletConnected s;
       userAddress := userAddress s |}).

Definition setIsLoading (b : bool) : M State unit :=
  modify (fun s =>
    {| publishedEbooks := publishedEbooks s;
       purchasedEbooks := purchasedEbooks s;
       isLoading := b; walletConnected := walletConnected s;
       userAddress := userAddress s |}).

Definition setWalletConnected (b : bool) : M State unit :=
  modify (fun s =>
    {| publishedEbooks := publishedEbooks s;
       purchasedEbooks := purchasedEbooks s;
       isLoading := isLoading s; walletConnected := b;
       userAddress := userAddress s |}).

Definition setUserAddress (a : option string) : M State unit :=
  modify (fun s =>
    {| publishedEbooks := publishedEbooks s;
       purchasedEbooks := purchasedEbooks s;
       isLoading := isLoading s; walletConnected := walletConnected s;
       userAddress := a |}).

(** The object literal that [loadMyBooks] builds for a fetched record. *)
Definition listing (id : nat) (ebook : JSValue) : Ebook.Ebook :=
  {| Ebook.id := id;
     Ebook.title := or_else (get ebook "title") (JStr EmptyString);
     Ebook.description := or_else (get ebook "description") (JStr EmptyString);
     Ebook.contentHash :=
       or_else (or_else (get ebook "content-hash") (get ebook "contentHash"))
               (JStr EmptyString);
     Ebook.price := num_or_zero (ToNumber (get ebook "price"));
     Ebook.author := or_else (get ebook "author") (JStr EmptyString);
     Ebook.createdAt :=
       ToNumber (or_else (or_else (get ebook "created-at")
                                  (get ebook "createdAt"))
                         (JNum zero));
     Ebook.active := JBool (strict_neq_false (get ebook "active")) |}.

(** [xs.filter(Boolean)] on an array of objects and [null]s. *)
Definition filter_Boolean {A} (xs : list (option A)) : list A :=
  omap (fun x => x) xs.

Definition loadMyBooks (address : option string) : M State unit :=
  match address with
  | None | Some EmptyString => setIsLoading false
  | Some address =>
      try_finally
        (try_catch
           (setIsLoading true ;;
            let* totalCount := getEbookCount in
            let* authorEbookIds := getAuthorEbooks address in
            let* allAuthorEbooks :=
              for_of (seq 1 totalCount)
                (fun i allAuthorEbooks =>
                   let* ebook := getEbook i in
                   if ToBoolean ebook
                      && strict_eq_string (get ebook "author") address
                   then ret (allAuthorEbooks ++ [listing i ebook])
                   else ret allAuthorEbooks)
                [] in
            setPublishedEbooks allAuthorEbooks ;;
            let* buyerEbookIds := getBuyerEbooks address in
            let* purchased :=
              map_async
                (fun id =>
                   let* ebook := getEbook id in
                   if ToBoolean ebook
                   then ret (Some (listing id ebook))
                   else ret None)
                buyerEbookIds in
            setPurchasedEbooks (filter_Boolean purchased))
           (ret tt))
        (setIsLoading false)
  end.

(** The effect that runs once when the page mounts. *)
Definition useEffect (B : Browser) : M State unit :=
  if window_defined B then
    let connected := isSignedIn B in
    setWalletConnected connected ;;
    if connected then
      let addr := getUserAddress B in
      setUserAddress addr ;;
      loadMyBooks addr
    else setIsLoading false
  else ret tt.

End MyBooks.

(** ** [pages/my-books.tsx], the version that reads the author index *)

Module MyBooksIndexed.

Record State : Type := {
  publishedEbooks : list Ebook.Ebook;
  purchasedEbooks : list Ebook.Ebook;
  isLoading : bool;
  walletConnected : bool
}.

Definition initial : State :=
  {| publishedEbooks := []; purchasedEbooks := []; isLoading := true;
     walletConnected := false |}.

Definition setPublishedEbooks (l : list Ebook.Ebook) : M State unit :=
  modify (fun s =>
    {| publishedEbooks := l; purchasedEbooks := purchasedEbooks s;
       isLoading := isLoading s; walletConnected := walletConnected s |}).

Definition setPurchasedEbooks (l : list Ebook.Ebook) : M State unit :=
  modify (fun s =>
    {| publishedEbooks := publishedEbooks s; purchasedEbooks := l;
       isLoading := isLoading s; walletConnected := walletConnected s |}).

Definition setIsLoading (b : bool) : M State unit :=
  modify (fun s =>
    {| publishedEbooks := publishedEbooks s;
       purchasedEbooks := purchasedEbooks s;
       isLoading := b; walletConnected := walletConnected s |}).

Definition setWalletConnected (b : bool) : M State unit :=
  modify (fun s =>
    {| publishedEbooks := publishedEbooks s;
       purchasedEbooks := purchasedEbooks s;
       isLoading := isLoading s; walletConnected := b |}).

(** The object literal of this version: title, price and author are taken
    as they come. *)
Definition listing (id : nat) (ebook : JSValue) : Ebook.Ebook :=
  {| Ebook.id := id;
     Ebook.title := get ebook "title";
     Ebook.description := or_else (get ebook "description") (JStr EmptyString);
     Ebook.contentHash := or_else (get ebook "content-hash") (JStr EmptyString);
     Ebook.price := ToNumber (get ebook "price");
     Ebook.author := get ebook "author";
     Ebook.createdAt := ToNumber (or_else (get ebook "created-at") (JNum zero));
     Ebook.active := get ebook "active" |}.

(** [ids.map(async id => ...)] followed by [Promise.all] and
    [filter(Boolean)]. *)
Definition fetch_all (ids : list nat) : M State (list Ebook.Ebook) :=
  let* fetched :=
    map_async
      (fun id =>
         let* ebook := getEbook id in
         if ToBoolean ebook
         then ret (Some (listing id ebook))
         else ret None)
      ids in
  ret (MyBooks.filter_Boolean fetched).

Definition loadMyBooks (B : Browser) : M State unit :=
  try_finally
    (try_catch
       (setIsLoading true ;;
        match getUserAddress B with
        | None | Some EmptyString => setIsLoading false
        | Some address =>
            let* authorEbookIds := getAuthorEbooks address in
            let* published := fetch_all authorEbookIds in
            setPublishedEbooks published ;;
            let* buyerEbookIds := getBuyerEbooks address in
            let* purchased := fetch_all buyerEbookIds in
            setPurchasedEbooks purchased
        end)
       (ret tt))
    (setIsLoading false).

Definition useEffect (B : Browser) : M State unit :=
  if window_defined B then
    let connected := isSignedIn B in
    setWalletConnected connected ;;
    if connected then loadMyBooks B
    else setIsLoading false
  else ret tt.

End MyBooksIndexed.

(** ** Vocabulary for the traces of the composite reads *)

Definition count_request : Request := ReadOnlyCall "get-ebook-count" [].

Definition fetch_request (id : nat) : Request :=
  ReadOnlyCall "get-ebook" [uintCV_nat id].

Definition author_request (address : string) : Request :=
  ReadOnlyCall "get-author-ebooks" [PrincipalCV address].

Definition buyer_request (address : string) : Request :=
  ReadOnlyCall "get-buyer-ebooks" [PrincipalCV address].

(** What [getEbook id] hands back when the requests [h] came before it. *)
Definition ebook_answer (R : Remote) (h : History) (id : nat) : JSValue :=
  match get_ebook R h id with
  | Returns v => v
  | Throws => JNull
  end.

(** What [getEbookCount] hands back after [h]. *)
Definition count_answer (R : Remote) (h : History) : nat :=
  match get_ebook_count R h with
  | Returns n => n
  | Throws => 0%nat
  end.

(** What [getAuthorEbooks] and [getBuyerEbooks] make of an answer. *)
Definition ids_answer (o : Outcome (option (list nat))) : list nat :=
  match o with
  | Returns (Some ids) => ids
  | _ => []
  end.

(** The records that sequential [getEbook] calls for [ids] obtain, the first
    call coming after the requests [h]. *)
Fixpoint fetches (R : Remote) (h : History) (ids : list nat)
  : list (nat * JSValue) :=
  match ids with
  | [] => []
  | id :: rest =>
      (id, ebook_answer R h id) :: fetches R (h ++ [fetch_request id]) rest
  end.

(** The entries a loop pushes, [keep] saying what one fetched record gives. *)
Definition kept {A} (keep : nat -> JSValue -> list A)
    (fs : list (nat * JSValue)) : list A :=
  flat_map (fun '(id, ebook) => keep id ebook) fs.

(** What [getAllEbooks] keeps of a fetched record. *)
Definition keep_active (id : nat) (ebook : JSValue) : list Ebook.Ebook :=
  if ToBoolean ebook && ToBoolean (get ebook "active")
  then [listing id ebook] else [].

(** What the scan of [loadMyBooks] keeps of a fetched record. *)
Definition keep_by_author (address : string) (id : nat) (ebook : JSValue)
  : list Ebook.Ebook :=
  if ToBoolean ebook && strict_eq_string (get ebook "author") address
  then [MyBooks.listing id ebook] else [].

(** What the purchased list of [loadMyBooks] keeps of a fetched record. *)
Definition keep_fetched (id : nat) (ebook : JSValue) : list Ebook.Ebook :=
  if ToBoolean ebook then [MyBooks.listing id ebook] else [].

(** What the version of My Books that reads the author index keeps of a
    fetched record. *)
Definition keep_indexed (id : nat) (ebook : JSValue) : list Ebook.Ebook :=
  if ToBoolean ebook then [MyBooksIndexed.listing id ebook] else [].

(** A remote that answers [get-author-ebooks] with [g] and is [R] otherwise. *)
Definition with_author_ebooks (R : Remote)
    (g : History -> string -> Outcome (option (list nat))) : Remote :=
  {| get_ebook := get_ebook R;
     get_ebook_count := get_ebook_count R;
     has_access := has_access R;
     get_author_ebooks := g;
     get_buyer_ebooks := get_buyer_ebooks R;
     is_author := is_author R;
     wallet := wallet R |}.

(** The form [f] with another file selected. *)
Definition with_file (f : Upload.Form) (file : option Upload.File)
  : Upload.Form :=
  {| Upload.title := Upload.title f;
     Upload.description := Upload.description f;
     Upload.price := Upload.price f;
     Upload.file := file;
     Upload.ipfsCid := Upload.ipfsCid f |}.

(** The form passes the checks that [handleSubmit] makes before it submits. *)
Definition accepted (B : Browser) (f : Upload.Form) : bool :=
  isSignedIn B
  && negb (is_empty (trim (Upload.title f)))
  && negb (is_empty (trim (Upload.description f)))
  && negb (is_empty (Upload.price f)
           || leb (parseFloat (Upload.price f)) zero)
  && negb (is_empty (trim (Upload.ipfsCid f))).

(** The error text of the [catch] block of [handleSubmit]. *)
Definition failed_to_register : string :=
  "Failed to register ebook. Please try again.".

(** ** Concrete browsers, remotes and forms *)

Module Example.

(** A signed-in browser on a deployment that sets [NEXT_PUBLIC_NETWORK]. *)
Definition browser (network : option string) : Browser :=
  {| window_defined := true;
     NEXT_PUBLIC_NETWORK := network;
     isUserSignedIn := true;
     stxAddress_mainnet := "SP2J6ZY48GV1EZ5V2V5RB9MP66SW86PYKKNRV9EJ7";
     stxAddress_testnet := "ST2J6ZY48GV1EZ5V2V5RB9MP66SW86PYKKPVKG2CE" |}.

(** Server-side rendering: no [window]. *)
Definition server : Browser :=
  {| window_defined := false;
     NEXT_PUBLIC_NETWORK := Some "mainnet";
     isUserSignedIn := true;
     stxAddress_mainnet := "SP2J6ZY48GV1EZ5V2V5RB9MP66SW86PYKKNRV9EJ7";
     stxAddress_testnet := "ST2J6ZY48GV1EZ5V2V5RB9MP66SW86PYKKPVKG2CE" |}.

(** A node that cannot be reached: every read throws, the wallet fails. *)
Definition unreachable : Remote :=
  {| get_ebook := fun _ _ => Throws;
     get_ebook_count := fun _ => Throws;
     has_access := fun _ _ _ => Throws;
     get_author_ebooks := fun _ _ => Throws;
     get_buyer_ebooks := fun _ _ => Throws;
     is_author := fun _ _ _ => Throws;
     wallet := fun _ _ => Fails |}.

(** A contract on which nothing is registered. *)
Definition empty_store : Remote :=
  {| get_ebook := fun _ _ => Returns JNull;
     get_ebook_count := fun _ => Returns 0%nat;
     has_access := fun _ _ _ => Returns false;
     get_author_ebooks := fun _ _ => Returns (Some []);
     get_buyer_ebooks := fun _ _ => Returns (Some []);
     is_author := fun _ _ _ => Returns false;
     wallet := fun _ _ => Finish "0x5e1f" |}.

Definition record (author : string) (fields : list (string * JSValue))
  : JSValue :=
  JObj (list_to_map (("author", JStr author) :: ("title", JStr "Dune")
                       :: ("price", JBigInt 1500000) :: fields)).

(** A contract with three listings of one author: an active one, a
    deactivated one and one whose record carries no [active] key; the
    author bought the third. *)
Definition store (author : string) : Remote :=
  {| get_ebook := fun _ id =>
       match id with
       | 1%nat => Returns (record author [("active", JBool true)])
       | 2%nat => Returns (record author [("active", JBool false)])
       | 3%nat => Returns (record author [])
       | _ => Returns JNull
       end;
     get_ebook_count := fun _ => Returns 3%nat;
     has_access := fun _ _ _ => Returns false;
     get_author_ebooks := fun _ _ => Returns (Some [1%nat; 2%nat; 3%nat]);
     get_buyer_ebooks := fun _ _ => Returns (Some [3%nat]);
     is_author := fun _ _ _ => Returns true;
     wallet := fun _ _ => Finish "0x5e1f" |}.

Definition form (title price ipfsCid : string) : Upload.Form :=
  {| Upload.title := title;
     Upload.description := "A novel";
     Upload.price := price;
     Upload.file := None;
     Upload.ipfsCid := ipfsCid |}.

Definition idle : Upload.State :=
  {| Upload.isLoading := false; Upload.error := None; Upload.txId := None |}.

End Example.

(** * Properties *)

(** ** Runs of the read-only calls *)

Section Runs.

Context {S : Type}.
Implicit Types (R : Remote) (s : S) (h : History).

Lemma getEbook_run R s h id :
  getEbook id R s h =
  {| outcome := Returns (ebook_answer R h id); page := s;
     trace := h ++ [fetch_request id] |}.
Proof.
  unfold getEbook, try_catch, bind, callReadOnlyFunction, ebook_answer, ret.
  cbn. destruct (get_ebook R h id); reflexivity.
Qed.

Lemma getEbookCount_run R s h :
  getEbookCount R s h =
  {| outcome := Returns (count_answer R h); page := s;
     trace := h ++ [count_request] |}.
Proof.
  unfold getEbookCount, try_catch, bind, callReadOnlyFunction, count_answer,
    ret.
  cbn. destruct (get_ebook_count R h); reflexivity.
Qed.

Lemma getAuthorEbooks_run R s h address :
  getAuthorEbooks address R s h =
  {| outcome := Returns (ids_answer (get_author_ebooks R h address));
     page := s; trace := h ++ [author_request address] |}.
Proof.
  unfold getAuthorEbooks, try_catch, bind, callReadOnlyFunction, ids_answer,
    ret.
  cbn. destruct (get_author_ebooks R h address) as [|[ids|]]; reflexivity.
Qed.

Lemma getBuyerEbooks_run R s h address :
  getBuyerEbooks address R s h =
  {| outcome := Returns (ids_answer (get_buyer_ebooks R h address));
     page := s; trace := h ++ [buyer_request address] |}.
Proof.
  unfold getBuyerEbooks, try_catch, bind, callReadOnlyFunction, ids_answer,
    ret.
  cbn. destruct (get_buyer_ebooks R h address) as [|[ids|]]; reflexivity.
Qed.

Lemma hasAccess_run R s h address id :
  hasAccess address id R s h =
  {| outcome :=
       Returns (match has_access R h address id with
                | Returns b => b
                | Throws => false
                end);
     page := s;
     trace := h ++ [ReadOnlyCall "has-access"
                      [PrincipalCV address; uintCV_nat id]] |}.
Proof.
  unfold hasAccess, try_catch, callReadOnlyFunction, ret.
  cbn. destruct (has_access R h address id); reflexivity.
Qed.

Lemma isAuthor_run R s h id address :
  isAuthor id address R s h =
  {| outcome :=
       Returns (match is_author R h id address with
                | Returns b => b
                | Throws => false
                end);
     page := s;
     trace := h ++ [ReadOnlyCall "is-author"
                      [uintCV_nat id; PrincipalCV address]] |}.
Proof.
  unfold isAuthor, try_catch, callReadOnlyFunction, ret.
  cbn. destruct (is_author R h id address); reflexivity.
Qed.

(** A loop whose body fetches one record and pushes what [keep] makes of
    it: the fetches are issued in order and nothing else is. *)
Lemma for_of_fetch_run (keep : nat -> JSValue -> list Ebook.Ebook)
    (body : nat -> list Ebook.Ebook -> M S (list Ebook.Ebook)) :
  (forall id acc R s h,
      body id acc R s h =
      {| outcome := Returns (acc ++ keep id (ebook_answer R h id));
         page := s; trace := h ++ [fetch_request id] |}) ->
  forall ids acc R s h,
    for_of ids body acc R s h =
    {| outcome := Returns (acc ++ kept keep (fetches R h ids));
       page := s; trace := h ++ map fetch_request ids |}.
Proof.
  intros Hbody ids.
  induction ids as [|id rest IH]; intros acc R s h.
  - cbn. unfold ret. now rewrite !app_nil_r.
  - cbn [for_of]. unfold bind at 1. rewrite Hbody. cbn [outcome page trace].
    rewrite IH. cbn [fetches kept flat_map map].
    f_equal.
    + now rewrite <- List.app_assoc.
    + now rewrite <- List.app_assoc.
Qed.

Lemma bind_run {A B} (c : M S A) (k : A -> M S B) R s h a s' h' :
  c R s h = {| outcome := Returns a; page := s'; trace := h' |} ->
  bind c k R s h = k a R s' h'.
Proof. intros E. unfold bind. now rewrite E. Qed.

Lemma try_catch_run {A} (c handler : M S A) R s h a s' h' :
  c R s h = {| outcome := Returns a; page := s'; trace := h' |} ->
  try_catch c handler R s h =
  {| outcome := Returns a; page := s'; trace := h' |}.
Proof. intros E. unfold try_catch. now rewrite E. Qed.

Lemma getAllEbooks_run R s h :
  getAllEbooks R s h =
  {| outcome :=
       Returns (kept keep_active
                  (fetches R (h ++ [count_request])
                     (seq 1 (count_answer R h))));
     page := s;
     trace := h ++ [count_request]
                ++ map fetch_request (seq 1 (count_answer R h)) |}.
Proof.
  unfold getAllEbooks. apply try_catch_run.
  rewrite (bind_run _ _ _ _ _ _ _ _ (getEbookCount_run R s h)).
  erewrite bind_run; cycle 1.
  - apply (for_of_fetch_run keep_active).
    intros id acc R' s' h'.
    rewrite (bind_run _ _ _ _ _ _ _ _ (getEbook_run R' s' h' id)).
    unfold keep_active.
    destruct (ToBoolean (ebook_answer R' h' id)); cbn [andb].
    + destruct (ToBoolean (get (ebook_answer R' h' id) "active"));
        unfold ret; now rewrite ?app_nil_r.
    + unfold ret. now rewrite app_nil_r.
  - unfold ret. cbn [app]. now rewrite <- List.app_assoc.
Qed.

Lemma getEbooksByAuthor_run R s h address :
  getEbooksByAuthor address R s h =
  let ids := ids_answer (get_author_ebooks R h address) in
  {| outcome :=
       Returns (kept (fun id ebook =>
                        if ToBoolean ebook then [listing id ebook] else [])
                  (fetches R (h ++ [author_request address]) ids));
     page := s;
     trace := h ++ [author_request address] ++ map fetch_request ids |}.
Proof.
  unfold getEbooksByAuthor. apply try_catch_run.
  rewrite (bind_run _ _ _ _ _ _ _ _ (getAuthorEbooks_run R s h address)).
  erewrite bind_run; cycle 1.
  - apply (for_of_fetch_run
             (fun id ebook =>
                if ToBoolean ebook then [listing id ebook] else [])).
    intros id acc R' s' h'.
    rewrite (bind_run _ _ _ _ _ _ _ _ (getEbook_run R' s' h' id)).
    destruct (ToBoolean (ebook_answer R' h' id));
      unfold ret; now rewrite ?app_nil_r.
  - unfold ret. cbn [app]. now rewrite <- List.app_assoc.
Qed.

(** [Promise.all] over a [map] whose callback fetches one record. *)
Lemma map_async_fetch_run {B} (g : nat -> JSValue -> B)
    (f : nat -> M S B) :
  (forall id R s h,
      f id R s h =
      {| outcome := Returns (g id (ebook_answer R h id)); page := s;
         trace := h ++ [fetch_request id] |}) ->
  forall ids R s h,
    map_async f ids R s h =
    {| outcome :=
         Returns (map (fun '(id, ebook) => g id ebook) (fetches R h ids));
       page := s; trace := h ++ map fetch_request ids |}.
Proof.
  intros Hf ids.
  induction ids as [|id rest IH]; intros R s h.
  - cbn. unfold ret. now rewrite app_nil_r.
  - cbn [map_async].
    rewrite (bind_run _ _ _ _ _ _ _ _ (Hf id R s h)).
    rewrite (bind_run _ _ _ _ _ _ _ _ (IH R s (h ++ [fetch_request id]))).
    unfold ret. cbn [fetches map]. now rewrite <- List.app_assoc.
Qed.

End Runs.

(** ** What the loops keep *)

Lemma kept_In {A} (keep : nat -> JSValue -> list A) fs x :
  In x (kept keep fs) <->
  exists id ebook, In (id, ebook) fs /\ In x (keep id ebook).
Proof.
  unfold kept. rewrite in_flat_map. split.
  - intros [[id ebook] [H1 H2]]. now exists id, ebook.
  - intros (id & ebook & H1 & H2). now exists (id, ebook).
Qed.

Lemma fetches_ids R h ids : map fst (fetches R h ids) = ids.
Proof.
  revert h. induction ids as [|id rest IH]; intros h; cbn; [easy|].
  now rewrite IH.
Qed.

(** One id is fetched once: it has one record. *)
Lemma fetches_functional R h ids id e1 e2 :
  List.NoDup ids ->
  In (id, e1) (fetches R h ids) -> In (id, e2) (fetches R h ids) -> e1 = e2.
Proof.
  intros Hnd. revert h.
  induction Hnd as [|i rest Hnotin Hnd IH]; intros h; cbn; [easy|].
  assert (Hfst : forall e h', In (i, e) (fetches R h' rest) -> False).
  { intros e h' Hin. apply Hnotin.
    rewrite <- (fetches_ids R h' rest).
    change i with (fst (i, e)). now apply in_map. }
  intros [E1|H1] [E2|H2].
  - congruence.
  - inversion E1; subst. now destruct (Hfst e2 _ H2).
  - inversion E2; subst. now destruct (Hfst e1 _ H1).
  - eauto.
Qed.

Lemma filter_Boolean_kept (fs : list (nat * JSValue)) :
  MyBooks.filter_Boolean
    (map (fun '(id, ebook) =>
            if ToBoolean ebook then Some (MyBooks.listing id ebook) else None)
       fs)
  = kept keep_fetched fs.
Proof.
  unfold MyBooks.filter_Boolean, kept, keep_fetched.
  induction fs as [|[id ebook] rest IH]; [reflexivity|].
  cbn. rewrite <- IH. now destruct (ToBoolean ebook).
Qed.

(** ** The run of [loadMyBooks] *)

Lemma loadMyBooks_body_run (address : string) id acc R (s : MyBooks.State) h :
  (let* ebook := getEbook id in
   if ToBoolean ebook && strict_eq_string (get ebook "author") address
   then ret (acc ++ [MyBooks.listing id ebook])
   else ret acc) R s h =
  {| outcome :=
       Returns (acc ++ keep_by_author address id (ebook_answer R h id));
     page := s; trace := h ++ [fetch_request id] |}.
Proof.
  rewrite (bind_run _ _ _ _ _ _ _ _ (getEbook_run R s h id)).
  unfold keep_by_author.
  destruct (ToBoolean (ebook_answer R h id)
            && strict_eq_string (get (ebook_answer R h id) "author") address);
    unfold ret; now rewrite ?app_nil_r.
Qed.

Lemma loadMyBooks_purchase_run id R (s : MyBooks.State) h :
  (let* ebook := getEbook id in
   if ToBoolean ebook
   then ret (Some (MyBooks.listing id ebook))
   else ret None) R s h =
  {| outcome :=
       Returns ((fun id ebook =>
                   if ToBoolean ebook then Some (MyBooks.listing id ebook)
                   else None) id (ebook_answer R h id));
     page := s; trace := h ++ [fetch_request id] |}.
Proof.
  rewrite (bind_run _ _ _ _ _ _ _ _ (getEbook_run R s h id)).
  cbn beta. now destruct (ToBoolean (ebook_answer R h id)).
Qed.

Lemma loadMyBooks_run R (s : MyBooks.State) h (address : string) :
  address <> EmptyString ->
  let n := count_answer R h in
  let h2 := h ++ [count_request; author_request address] in
  let h3 := h2 ++ map fetch_request (seq 1 n) in
  let bought := ids_answer (get_buyer_ebooks R h3 address) in
  MyBooks.loadMyBooks (Some address) R s h =
  {| outcome := Returns tt;
     page :=
       {| MyBooks.publishedEbooks :=
            kept (keep_by_author address) (fetches R h2 (seq 1 n));
          MyBooks.purchasedEbooks :=
            kept keep_fetched
              (fetches R (h3 ++ [buyer_request address]) bought);
          MyBooks.isLoading := false;
          MyBooks.walletConnected := MyBooks.walletConnected s;
          MyBooks.userAddress := MyBooks.userAddress s |};
     trace := h3 ++ [buyer_request address] ++ map fetch_request bought |}.
Proof.
  intros Hne n h2 h3 bought.
  destruct address as [|c a]; [congruence|].
  unfold MyBooks.loadMyBooks. cbv beta iota.
  set (address := String c a) in *.
  unfold try_finally.
  erewrite try_catch_run; cycle 1.
  - erewrite bind_run by reflexivity.
    rewrite (bind_run _ _ _ _ _ _ _ _ (getEbookCount_run R _ h)).
    rewrite (bind_run _ _ _ _ _ _ _ _ (getAuthorEbooks_run R _ _ address)).
    erewrite bind_run; cycle 1.
    { apply (for_of_fetch_run (keep_by_author address)).
      intros. apply loadMyBooks_body_run. }
    erewrite bind_run by reflexivity.
    rewrite (bind_run _ _ _ _ _ _ _ _ (getBuyerEbooks_run R _ _ address)).
    erewrite bind_run; cycle 1.
    { apply (map_async_fetch_run
               (fun id ebook =>
                  if ToBoolean ebook then Some (MyBooks.listing id ebook)
                  else None)).
      intros. apply loadMyBooks_purchase_run. }
    rewrite filter_Boolean_kept.
    reflexivity.
  - cbn [outcome page trace MyBooks.setIsLoading MyBooks.setPublishedEbooks
         MyBooks.setPurchasedEbooks modify MyBooks.publishedEbooks
         MyBooks.purchasedEbooks MyBooks.isLoading MyBooks.walletConnected
         MyBooks.userAddress app].
    subst n h2 h3 bought.
    rewrite <- !List.app_assoc. cbn [app].
    reflexivity.
Qed.

Lemma fetches_with_author_ebooks R g h ids :
  fetches (with_author_ebooks R g) h ids = fetches R h ids.
Proof.
  revert h. induction ids as [|id rest IH]; intros h; cbn; [easy|].
  now rewrite IH.
Qed.

Lemma keep_active_In id ebook x :
  In x (keep_active id ebook) ->
  x = listing id ebook /\ ToBoolean (get ebook "active") = true.
Proof.
  unfold keep_active.
  destruct (ToBoolean ebook); cbn [andb]; [|easy].
  destruct (ToBoolean (get ebook "active")); [|easy].
  intros [<-|[]]. easy.
Qed.

Lemma get_author_truthy ebook address :
  get ebook "author" = JStr address -> ToBoolean ebook = true.
Proof. destruct ebook; cbn; congruence. Qed.

Lemma fetches_In_ids R h ids id ebook :
  In (id, ebook) (fetches R h ids) -> In id ids.
Proof.
  intros H. rewrite <- (fetches_ids R h ids).
  change id with (fst (id, ebook)). now apply in_map.
Qed.

(** ** The composite reads *)

(** C4. [getAllEbooks] issues the count request, then one [get-ebook] request
    for each of the ids 1 .. n in increasing order, n being the count it
    obtained, and nothing else; its result is made of the fetched records
    whose [active] is truthy, each of them active. When the count endpoint
    returns 0 the result is empty and the count request is the only one. *)
Theorem getAllEbooks_fetch_pattern {S} (R : Remote) (s : S) (h : History) :
  let n := count_answer R h in
  let r := getAllEbooks R s h in
  trace r = h ++ count_request :: map fetch_request (seq 1 n)
  /\ outcome r =
     Returns (kept keep_active (fetches R (h ++ [count_request]) (seq 1 n)))
  /\ (forall l x, outcome r = Returns l -> In x l ->
        ToBoolean (Ebook.active x) = true)
  /\ (get_ebook_count R h = Returns 0%nat ->
        outcome r = Returns [] /\ trace r = h ++ [count_request]).
Proof.
  intros n r. subst r. rewrite getAllEbooks_run. cbn [outcome trace].
  repeat split.
  - intros l x [= <-] Hx. apply kept_In in Hx as (id & ebook & _ & Hk).
    apply keep_active_In in Hk as [-> Hact]. exact Hact.
  - subst n. unfold count_answer. now rewrite H.
  - subst n. unfold count_answer. now rewrite H.
Qed.

Lemma getAllEbooks_fetch_pattern_witness :
  get_ebook_count Example.empty_store [] = Returns 0%nat
  /\ outcome (getAllEbooks Example.empty_store tt []) = Returns []
  /\ trace (getAllEbooks Example.empty_store tt []) = [count_request].
Proof.
  split; [reflexivity|].
  apply (getAllEbooks_fetch_pattern Example.empty_store tt []).
  reflexivity.
Defined.

(** C5. A fetched record whose [active] flag is [false] gives no entry of the
    result of [getAllEbooks]; in the scan of [loadMyBooks], when its author
    is the address of the signed-in user, it gives an entry of the published
    list, with its flag [false]. *)
Theorem inactive_record_excluded_and_included (R : Remote) (h : History)
    (address : string) (id : nat) (ebook : JSValue) :
  get ebook "active" = JBool false ->
  (forall S (s : S) l,
      In (id, ebook)
         (fetches R (h ++ [count_request]) (seq 1 (count_answer R h))) ->
      outcome (getAllEbooks R s h) = Returns l ->
      forall x, In x l -> Ebook.id x <> id)
  /\ (forall s,
      address <> EmptyString ->
      In (id, ebook)
         (fetches R (h ++ [count_request; author_request address])
            (seq 1 (count_answer R h))) ->
      get ebook "author" = JStr address ->
      In (MyBooks.listing id ebook)
         (MyBooks.publishedEbooks
            (page (MyBooks.loadMyBooks (Some address) R s h)))
      /\ Ebook.active (MyBooks.listing id ebook) = JBool false).
Proof.
  intros Hact. split.
  - intros S s l Hin. rewrite getAllEbooks_run. cbn [outcome].
    intros [= <-] x Hx Hid.
    apply kept_In in Hx as (id' & ebook' & Hin' & Hk).
    apply keep_active_In in Hk as [-> Htruthy]. cbn in Hid. subst id'.
    rewrite (fetches_functional _ _ _ _ _ _ (seq_NoDup _ _) Hin' Hin)
      in Htruthy.
    rewrite Hact in Htruthy. discriminate.
  - intros s Hne Hin Hauthor. split.
    + rewrite (loadMyBooks_run R s h address Hne). cbn [page MyBooks.publishedEbooks].
      apply kept_In. exists id, ebook. split; [exact Hin|].
      unfold keep_by_author.
      rewrite (get_author_truthy _ _ Hauthor), Hauthor. cbn.
      rewrite String.eqb_refl. now left.
    + cbn. now rewrite Hact.
Qed.

Lemma inactive_record_excluded_and_included_witness :
  let R := Example.store "SP2J6ZY48GV1EZ5V2V5RB9MP66SW86PYKKNRV9EJ7" in
  let ebook :=
    Example.record "SP2J6ZY48GV1EZ5V2V5RB9MP66SW86PYKKNRV9EJ7"
      [("active", JBool false)] in
  get ebook "active" = JBool false
  /\ (forall x,
        In x (match outcome (getAllEbooks R tt []) with
              | Returns l => l
              | Throws => []
              end) -> Ebook.id x <> 2%nat)
  /\ In (MyBooks.listing 2 ebook)
       (MyBooks.publishedEbooks
          (page (MyBooks.loadMyBooks
                   (Some "SP2J6ZY48GV1EZ5V2V5RB9MP66SW86PYKKNRV9EJ7") R
                   MyBooks.initial []))).
Proof.
  intros R ebook.
  pose proof (inactive_record_excluded_and_included R []
                "SP2J6ZY48GV1EZ5V2V5RB9MP66SW86PYKKNRV9EJ7" 2 ebook
                eq_refl) as [Hall Hmine].
  split; [reflexivity|]. split.
  - intros x Hx.
    refine (Hall unit tt _ _ _ x Hx).
    + vm_compute. right. left. reflexivity.
    + rewrite getAllEbooks_run. reflexivity.
  - refine (proj1 (Hmine MyBooks.initial _ _ _)).
    + discriminate.
    + vm_compute. right. left. reflexivity.
    + reflexivity.
Defined.

(** C6. When its remote call throws, each read function returns its default:
    [getEbook] null, [getEbookCount] 0, [hasAccess] and [isAuthor] false,
    [getAuthorEbooks] and [getBuyerEbooks] the empty list. What the caller
    gets (result, page state and requests issued) is what it gets from a
    remote that answers with that empty value. *)
Theorem read_functions_swallow_errors {S} (R R' : Remote) (s : S)
    (h : History) :
  (forall id,
      get_ebook R h id = Throws ->
      outcome (getEbook id R s h) = Returns JNull
      /\ (get_ebook R' h id = Returns JNull ->
          getEbook id R' s h = getEbook id R s h))
  /\ (get_ebook_count R h = Throws ->
      outcome (getEbookCount R s h) = Returns 0%nat
      /\ (get_ebook_count R' h = Returns 0%nat ->
          getEbookCount R' s h = getEbookCount R s h))
  /\ (forall address id,
      has_access R h address id = Throws ->
      outcome (hasAccess address id R s h) = Returns false
      /\ (has_access R' h address id = Returns false ->
          hasAccess address id R' s h = hasAccess address id R s h))
  /\ (forall id address,
      is_author R h id address = Throws ->
      outcome (isAuthor id address R s h) = Returns false
      /\ (is_author R' h id address = Returns false ->
          isAuthor id address R' s h = isAuthor id address R s h))
  /\ (forall address,
      get_author_ebooks R h address = Throws ->
      outcome (getAuthorEbooks address R s h) = Returns []
      /\ (get_author_ebooks R' h address = Returns (Some []) ->
          getAuthorEbooks address R' s h = getAuthorEbooks address R s h))
  /\ (forall address,
      get_buyer_ebooks R h address = Throws ->
      outcome (getBuyerEbooks address R s h) = Returns []
      /\ (get_buyer_ebooks R' h address = Returns (Some []) ->
          getBuyerEbooks address R' s h = getBuyerEbooks address R s h)).
Proof.
  repeat split.
  - rewrite getEbook_run. unfold ebook_answer. now rewrite H.
  - intros H'. rewrite !getEbook_run. unfold ebook_answer. now rewrite H, H'.
  - rewrite getEbookCount_run. unfold count_answer. now rewrite H.
  - intros H'. rewrite !getEbookCount_run. unfold count_answer.
    now rewrite H, H'.
  - rewrite hasAccess_run. now rewrite H.
  - intros H'. rewrite !hasAccess_run. now rewrite H, H'.
  - rewrite isAuthor_run. now rewrite H.
  - intros H'. rewrite !isAuthor_run. now rewrite H, H'.
  - rewrite getAuthorEbooks_run. now rewrite H.
  - intros H'. rewrite !getAuthorEbooks_run. now rewrite H, H'.
  - rewrite getBuyerEbooks_run. now rewrite H.
  - intros H'. rewrite !getBuyerEbooks_run. now rewrite H, H'.
Qed.

Lemma read_functions_swallow_errors_witness :
  let R := Example.unreachable in
  let R' := Example.empty_store in
  let a := "SP2J6ZY48GV1EZ5V2V5RB9MP66SW86PYKKNRV9EJ7" in
  (get_ebook R [] 1 = Throws /\ get_ebook R' [] 1 = Returns JNull
   /\ getEbook 1 R' tt [] = getEbook 1 R tt [])
  /\ (get_ebook_count R [] = Throws /\ get_ebook_count R' [] = Returns 0%nat
      /\ getEbookCount R' tt [] = getEbookCount R tt [])
  /\ (has_access R [] a 1 = Throws /\ has_access R' [] a 1 = Returns false
      /\ hasAccess a 1 R' tt [] = hasAccess a 1 R tt [])
  /\ (is_author R [] 1 a = Throws /\ is_author R' [] 1 a = Returns false
      /\ isAuthor 1 a R' tt [] = isAuthor 1 a R tt [])
  /\ (get_author_ebooks R [] a = Throws
      /\ get_author_ebooks R' [] a = Returns (Some [])
      /\ getAuthorEbooks a R' tt [] = getAuthorEbooks a R tt [])
  /\ (get_buyer_ebooks R [] a = Throws
      /\ get_buyer_ebooks R' [] a = Returns (Some [])
      /\ getBuyerEbooks a R' tt [] = getBuyerEbooks a R tt []).
Proof.
  intros R R' a.
  destruct (@read_functions_swallow_errors unit R R' tt [])
    as (H1 & H2 & H3 & H4 & H5 & H6).
  split; [|split; [|split; [|split; [|split]]]];
    (split; [reflexivity|split; [reflexivity|]]).
  - exact (proj2 (H1 1%nat eq_refl) eq_refl).
  - exact (proj2 (H2 eq_refl) eq_refl).
  - exact (proj2 (H3 a 1%nat eq_refl) eq_refl).
  - exact (proj2 (H4 1%nat a eq_refl) eq_refl).
  - exact (proj2 (H5 a eq_refl) eq_refl).
  - exact (proj2 (H6 a eq_refl) eq_refl).
Defined.

(** C9. On My Books the published list is what the scan over the ids
    1 .. count finds: the fetched records whose author is the address of the
    signed-in user. The author-indexed id list is requested, and whatever the
    remote answers to that request the published list is the same. The
    purchased list is made of the records fetched for the ids of the
    buyer-indexed list, and of nothing else. *)
Theorem my_books_lists (R : Remote) (s : MyBooks.State) (h : History)
    (address : string) :
  address <> EmptyString ->
  let r := MyBooks.loadMyBooks (Some address) R s h in
  let n := count_answer R h in
  let h2 := h ++ [count_request; author_request address] in
  let h3 := h2 ++ map fetch_request (seq 1 n) in
  let bought := ids_answer (get_buyer_ebooks R h3 address) in
  MyBooks.publishedEbooks (page r) =
    kept (keep_by_author address) (fetches R h2 (seq 1 n))
  /\ trace r = h3 ++ buyer_request address :: map fetch_request bought
  /\ (forall g,
        MyBooks.publishedEbooks
          (page (MyBooks.loadMyBooks (Some address)
                   (with_author_ebooks R g) s h))
        = MyBooks.publishedEbooks (page r))
  /\ MyBooks.purchasedEbooks (page r) =
       kept keep_fetched (fetches R (h3 ++ [buyer_request address]) bought)
  /\ (forall x, In x (MyBooks.purchasedEbooks (page r)) ->
        In (Ebook.id x) bought).
Proof.
  intros Hne r n h2 h3 bought. subst r.
  rewrite (loadMyBooks_run R s h address Hne).
  cbn [page trace MyBooks.publishedEbooks MyBooks.purchasedEbooks].
  repeat split.
  - intros g. rewrite (loadMyBooks_run _ s h address Hne).
    cbn [page MyBooks.publishedEbooks].
    now rewrite fetches_with_author_ebooks.
  - intros x Hx. apply kept_In in Hx as (id & ebook & Hin & Hk).
    unfold keep_fetched in Hk. destruct (ToBoolean ebook); [|easy].
    destruct Hk as [<-|[]]. cbn. eapply fetches_In_ids, Hin.
Qed.

Lemma my_books_lists_witness :
  let a := "SP2J6ZY48GV1EZ5V2V5RB9MP66SW86PYKKNRV9EJ7" in
  let r := MyBooks.loadMyBooks (Some a) (Example.store a) MyBooks.initial [] in
  a <> EmptyString
  /\ map Ebook.id (MyBooks.publishedEbooks (page r)) = [1; 2; 3]%nat
  /\ map Ebook.id (MyBooks.purchasedEbooks (page r)) = [3]%nat
  /\ forall g,
       MyBooks.publishedEbooks
         (page (MyBooks.loadMyBooks (Some a)
                  (with_author_ebooks (Example.store a) g) MyBooks.initial []))
       = MyBooks.publishedEbooks (page r).
Proof.
  intros a r.
  assert (Hne : a <> EmptyString) by discriminate.
  destruct (my_books_lists (Example.store a) MyBooks.initial [] a Hne)
    as (Hpub & _ & Hindep & Hbought & _).
  split; [exact Hne|]. split; [|split].
  - subst r. rewrite Hpub. vm_compute. reflexivity.
  - subst r. rewrite Hbought. vm_compute. reflexivity.
  - exact Hindep.
Defined.

(** C10. A fetched record whose [active] field is absent or undefined gives
    no entry of the result of [getAllEbooks]. On My Books it gives an entry
    with [active] true: of the published list when the scan fetched it and
    its author is the address of the signed-in user, of the purchased list
    when it was fetched for an id of the buyer-indexed list. *)
Theorem absent_active_flag (R : Remote) (h : History) (address : string)
    (id : nat) (ebook : JSValue) :
  get ebook "active" = JUndefined ->
  Ebook.active (MyBooks.listing id ebook) = JBool true
  /\ (forall S (s : S) l,
      In (id, ebook)
         (fetches R (h ++ [count_request]) (seq 1 (count_answer R h))) ->
      outcome (getAllEbooks R s h) = Returns l ->
      forall x, In x l -> Ebook.id x <> id)
  /\ (forall s,
      address <> EmptyString ->
      let r := MyBooks.loadMyBooks (Some address) R s h in
      let h2 := h ++ [count_request; author_request address] in
      let h3 := h2 ++ map fetch_request (seq 1 (count_answer R h)) in
      (In (id, ebook) (fetches R h2 (seq 1 (count_answer R h))) ->
       get ebook "author" = JStr address ->
       In (MyBooks.listing id ebook) (MyBooks.publishedEbooks (page r)))
      /\ (In (id, ebook)
            (fetches R (h3 ++ [buyer_request address])
               (ids_answer (get_buyer_ebooks R h3 address))) ->
          ToBoolean ebook = true ->
          In (MyBooks.listing id ebook) (MyBooks.purchasedEbooks (page r)))).
Proof.
  intros Hact. split; [|split].
  - cbn. now rewrite Hact.
  - intros S s l Hin. rewrite getAllEbooks_run. cbn [outcome].
    intros [= <-] x Hx Hid.
    apply kept_In in Hx as (id' & ebook' & Hin' & Hk).
    apply keep_active_In in Hk as [-> Htruthy]. cbn in Hid. subst id'.
    rewrite (fetches_functional _ _ _ _ _ _ (seq_NoDup _ _) Hin' Hin)
      in Htruthy.
    rewrite Hact in Htruthy. discriminate.
  - intros s Hne r h2 h3. subst r.
    rewrite (loadMyBooks_run R s h address Hne).
    cbn [page MyBooks.publishedEbooks MyBooks.purchasedEbooks]. split.
    + intros Hin Hauthor. apply kept_In. exists id, ebook.
      split; [exact Hin|]. unfold keep_by_author.
      rewrite (get_author_truthy _ _ Hauthor), Hauthor. cbn.
      rewrite String.eqb_refl. now left.
    + intros Hin Htruthy. apply kept_In. exists id, ebook.
      split; [exact Hin|]. unfold keep_fetched. rewrite Htruthy. now left.
Qed.

Lemma absent_active_flag_witness :
  let a := "SP2J6ZY48GV1EZ5V2V5RB9MP66SW86PYKKNRV9EJ7" in
  let R := Example.store a in
  let ebook := Example.record a [] in
  let r := MyBooks.loadMyBooks (Some a) R MyBooks.initial [] in
  get ebook "active" = JUndefined
  /\ (forall x,
        In x (match outcome (getAllEbooks R tt []) with
              | Returns l => l
              | Throws => []
              end) -> Ebook.id x <> 3%nat)
  /\ In (MyBooks.listing 3 ebook) (MyBooks.publishedEbooks (page r))
  /\ In (MyBooks.listing 3 ebook) (MyBooks.purchasedEbooks (page r))
  /\ Ebook.active (MyBooks.listing 3 ebook) = JBool true.
Proof.
  intros a R ebook r.
  destruct (absent_active_flag R [] a 3 ebook eq_refl) as (Htrue & Hall & Hmine).
  assert (Hne : a <> EmptyString) by discriminate.
  destruct (Hmine MyBooks.initial Hne) as [Hpub Hbought].
  split; [reflexivity|]. split; [|split; [|split]].
  - intros x Hx. refine (Hall unit tt _ _ _ x Hx).
    + vm_compute. right. right. left. reflexivity.
    + rewrite getAllEbooks_run. reflexivity.
  - apply Hpub.
    + vm_compute. right. right. left. reflexivity.
    + reflexivity.
  - apply Hbought.
    + vm_compute. left. reflexivity.
    + reflexivity.
  - exact Htrue.
Defined.

(** ** Signing in *)

(** C8 (counterexample). With [NEXT_PUBLIC_NETWORK] set to the empty string,
    a value that is not the production value, a signed-in user gets the
    mainnet account identifier and not the testnet one. *)
Lemma empty_network_selects_mainnet :
  let B := Example.browser (Some EmptyString) in
  isSignedIn B = true
  /\ NEXT_PUBLIC_NETWORK B <> Some "mainnet"
  /\ getUserAddress B = Some (stxAddress_mainnet B)
  /\ getUserAddress B <> Some (stxAddress_testnet B).
Proof. cbv zeta. repeat split; discriminate. Qed.

Lemma env_or_nonempty (v d : string) : v <> EmptyString -> env_or (Some v) d = v.
Proof. destruct v; [congruence|reflexivity]. Qed.

(** C8 (amended). [isSignedIn] is false where [window] is undefined, and
    [getUserAddress] is null whenever [isSignedIn] is false. For a signed-in
    user [getUserAddress] is the mainnet account identifier when
    [NEXT_PUBLIC_NETWORK] is ["mainnet"], unset or empty, and the testnet
    account identifier for every other value. *)
Theorem getUserAddress_selects (B : Browser) :
  (window_defined B = false -> isSignedIn B = false)
  /\ (isSignedIn B = false -> getUserAddress B = None)
  /\ (isSignedIn B = true ->
      (NEXT_PUBLIC_NETWORK B = Some "mainnet"
       \/ NEXT_PUBLIC_NETWORK B = None
       \/ NEXT_PUBLIC_NETWORK B = Some EmptyString ->
       getUserAddress B = Some (stxAddress_mainnet B))
      /\ (forall v,
           NEXT_PUBLIC_NETWORK B = Some v ->
           v <> "mainnet" -> v <> EmptyString ->
           getUserAddress B = Some (stxAddress_testnet B))).
Proof.
  split; [|split].
  - intros H. unfold isSignedIn. now rewrite H.
  - intros H. unfold getUserAddress. now rewrite H.
  - intros H. unfold getUserAddress. rewrite H. cbn [negb]. split.
    + intros [E|[E|E]]; now rewrite E.
    + intros v E Hm He. rewrite E, (env_or_nonempty _ _ He).
      apply String.eqb_neq in Hm. now rewrite Hm.
Qed.

Lemma getUserAddress_selects_witness :
  (window_defined Example.server = false /\ isSignedIn Example.server = false
   /\ getUserAddress Example.server = None)
  /\ (isSignedIn (Example.browser None) = true
      /\ getUserAddress (Example.browser None)
         = Some "SP2J6ZY48GV1EZ5V2V5RB9MP66SW86PYKKNRV9EJ7")
  /\ (isSignedIn (Example.browser (Some "testnet")) = true
      /\ getUserAddress (Example.browser (Some "testnet"))
         = Some "ST2J6ZY48GV1EZ5V2V5RB9MP66SW86PYKKPVKG2CE").
Proof.
  split; [|split].
  - destruct (getUserAddress_selects Example.server) as (H1 & H2 & _).
    split; [reflexivity|]. split; [exact (H1 eq_refl)|].
    exact (H2 (H1 eq_refl)).
  - destruct (getUserAddress_selects (Example.browser None)) as (_ & _ & H3).
    split; [reflexivity|].
    exact (proj1 (H3 eq_refl) (or_intror (or_introl eq_refl))).
  - destruct (getUserAddress_selects (Example.browser (Some "testnet")))
      as (_ & _ & H3).
    split; [reflexivity|].
    refine (proj2 (H3 eq_refl) "testnet" eq_refl _ _); discriminate.
Defined.

(** ** The publish form *)

Lemma SHA256_digest_length (msg : list Z) :
  length (SHA256.digest msg) = 32%nat.
Proof.
  unfold SHA256.digest.
  generalize (SHA256.blocks (length (SHA256.pad msg))
                (SHA256.of_list SHA256.H0) (SHA256.pad msg)).
  intros r. reflexivity.
Qed.

(** What [handleSubmit] does once its two resets have run. *)
Lemma handleSubmit_reset B f R s h :
  Upload.handleSubmit B f R s h =
  (if negb (isSignedIn B) then
     Upload.setError (Some "Please connect your wallet first.")
   else if is_empty (trim (Upload.title f)) then
     Upload.setError (Some "Title is required.")
   else if is_empty (trim (Upload.description f)) then
     Upload.setError (Some "Description is required.")
   else if is_empty (Upload.price f)
           || leb (parseFloat (Upload.price f)) zero then
     Upload.setError (Some "Price must be greater than 0.")
   else if is_empty (trim (Upload.ipfsCid f)) then
     Upload.setError
       (Some "IPFS CID is required. Upload your ebook to IPFS first.")
   else
     try_catch
       (Upload.setIsLoading true ;;
        registerEbook (Upload.title f) (Upload.description f)
          (SHA256.digest (TextEncoder_encode (Upload.ipfsCid f)))
          (stxToMicroStx (parseFloat (Upload.price f)))
          (Some (fun data =>
                   Upload.setTxId (Some data) ;; Upload.setIsLoading false))
          (Some (fun _ => Upload.setIsLoading false)))
       (Upload.setError (Some "Failed to register ebook. Please try again.") ;;
        Upload.setIsLoading false))
    R
    {| Upload.isLoading := Upload.isLoading s; Upload.error := None;
       Upload.txId := None |}
    h.
Proof. reflexivity. Qed.

(** C3. A submission whose title is empty or blank, whose price is missing,
    zero or negative, or whose content identifier is empty or blank, is
    rejected locally: an error text is set, no transaction id is set, and no
    request, read or transaction, is issued. *)
Theorem handleSubmit_rejects_locally (B : Browser) (f : Upload.Form)
    (R : Remote) (s : Upload.State) (h : History) :
  is_empty (trim (Upload.title f)) = true
  \/ is_empty (Upload.price f) = true
  \/ leb (parseFloat (Upload.price f)) zero = true
  \/ is_empty (trim (Upload.ipfsCid f)) = true ->
  let r := Upload.handleSubmit B f R s h in
  trace r = h
  /\ outcome r = Returns tt
  /\ (exists msg, Upload.error (page r) = Some msg)
  /\ Upload.txId (page r) = None
  /\ Upload.isLoading (page r) = Upload.isLoading s.
Proof.
  intros H r. subst r. rewrite handleSubmit_reset.
  destruct (negb (isSignedIn B)); [cbn; eauto 6|].
  destruct (is_empty (trim (Upload.title f))) eqn:Et; [cbn; eauto 6|].
  destruct (is_empty (trim (Upload.description f))); [cbn; eauto 6|].
  destruct (is_empty (Upload.price f)) eqn:Ep; [cbn; eauto 6|].
  destruct (leb (parseFloat (Upload.price f)) zero) eqn:El; [cbn; eauto 6|].
  destruct (is_empty (trim (Upload.ipfsCid f))) eqn:Ec; [cbn; eauto 6|].
  exfalso. intuition congruence.
Qed.

Lemma handleSubmit_rejects_locally_witness :
  let f := Example.form "   " "1.5" "QmYwAPJzv5CZsnA625s3Xf2nemtYgPpHdWEz79ojWnPbdG" in
  let r := Upload.handleSubmit (Example.browser None) f Example.empty_store
             Example.idle [] in
  is_empty (trim (Upload.title f)) = true
  /\ trace r = []
  /\ (exists msg, Upload.error (page r) = Some msg).
Proof.
  intros f r. split; [reflexivity|].
  destruct (handleSubmit_rejects_locally (Example.browser None) f
              Example.empty_store Example.idle [] (or_introl eq_refl))
    as (Ht & _ & He & _).
  split; [exact Ht|exact He].
Defined.

Lemma uintCV_Returns (value : number) (cv : ClarityValue) :
  uintCV value = Returns cv ->
  exists p, cv = UIntCV p /\ 0 <= p <= MAX_U128 /\ to_integer value = Some p.
Proof.
  unfold uintCV. destruct (to_integer value) as [z|]; [|discriminate].
  destruct ((0 <=? z) && (z <=? MAX_U128)) eqn:E; [|discriminate].
  intros [= <-]. exists z. apply andb_true_iff in E as [E1 E2].
  apply Z.leb_le in E1, E2. auto.
Qed.

(** The requests of [registerEbook]: none when [uintCV] throws, else the one
    transaction request. *)
Lemma registerEbook_trace {S} title description contentHash price
    (onFinish : option (string -> M S unit))
    (onCancel : option (unit -> M S unit)) R s h :
  (forall data R s h, trace (call_opt onFinish data R s h) = h) ->
  (forall R s h, trace (call_opt onCancel tt R s h) = h) ->
  let r := registerEbook title description contentHash price onFinish onCancel
             R s h in
  match uintCV price with
  | Throws => trace r = h /\ outcome r = Throws
  | Returns cv =>
      trace r = h ++ [ContractCall "register-ebook"
                        [StringUtf8CV title; StringUtf8CV description;
                         BufferCV contentHash; cv]]
  end.
Proof.
  intros Hf Hc r. subst r. unfold registerEbook, bind, of_outcome.
  cbn [outcome page trace].
  destruct (uintCV price) as [|cv]; [easy|].
  unfold openContractCall.
  destruct (wallet R h _); cbn [trace]; auto.
Qed.

(** The requests of [handleSubmit]: the transaction request when the form is
    accepted and [uintCV] takes the price, none otherwise. *)
Lemma handleSubmit_trace B f R s h :
  trace (Upload.handleSubmit B f R s h) =
  if accepted B f then
    match uintCV (stxToMicroStx (parseFloat (Upload.price f))) with
    | Returns cv =>
        h ++ [ContractCall "register-ebook"
                [StringUtf8CV (Upload.title f);
                 StringUtf8CV (Upload.description f);
                 BufferCV (SHA256.digest (TextEncoder_encode (Upload.ipfsCid f)));
                 cv]]
    | Throws => h
    end
  else h.
Proof.
  rewrite handleSubmit_reset. unfold accepted.
  destruct (isSignedIn B); [|reflexivity]. cbn [negb andb].
  destruct (is_empty (trim (Upload.title f))); [reflexivity|].
  destruct (is_empty (trim (Upload.description f))); [reflexivity|].
  destruct (is_empty (Upload.price f)
            || leb (parseFloat (Upload.price f)) zero); [reflexivity|].
  destruct (is_empty (trim (Upload.ipfsCid f))); [reflexivity|].
  cbn [negb andb].
  unfold try_catch.
  erewrite (bind_run (Upload.setIsLoading true)) by reflexivity.
  match goal with
  | |- context [registerEbook ?t ?d ?c ?p ?onF ?onC R ?s1 h] =>
      pose proof (registerEbook_trace t d c p onF onC R s1 h
                    (fun _ _ _ _ => eq_refl) (fun _ _ _ => eq_refl)) as Ht;
      cbv zeta in Ht;
      destruct (registerEbook t d c p onF onC R s1 h) as [o s2 h2]
  end.
  cbn [outcome page trace] in *.
  destruct (uintCV (stxToMicroStx (parseFloat (Upload.price f)))) as [|cv].
  - now destruct Ht as [-> ->].
  - now destruct o.
Qed.

(** C7. A submission reaches the transaction step when [handleSubmit]
    accepts the form and [uintCV] takes the price. The request it then
    issues is the [register-ebook] transaction whose third argument is the
    SHA-256 digest of the UTF-8 encoding of the content identifier typed
    into the form, a digest of 32 bytes; no request is issued otherwise, and
    the selected file has no part in what [handleSubmit] does. *)
Theorem content_hash_is_digest_of_cid (B : Browser) (f : Upload.Form)
    (R : Remote) (s : Upload.State) (h : History) :
  let r := Upload.handleSubmit B f R s h in
  let contentHash := SHA256.digest (TextEncoder_encode (Upload.ipfsCid f)) in
  let price := uintCV (stxToMicroStx (parseFloat (Upload.price f))) in
  (forall cv,
     accepted B f = true ->
     price = Returns cv ->
     trace r =
     h ++ [ContractCall "register-ebook"
             [StringUtf8CV (Upload.title f);
              StringUtf8CV (Upload.description f);
              BufferCV contentHash; cv]])
  /\ (accepted B f = false \/ price = Throws -> trace r = h)
  /\ length contentHash = 32%nat
  /\ forall file, Upload.handleSubmit B (with_file f file) R s h = r.
Proof.
  intros r contentHash price. split; [|split; [|split]].
  - intros cv Ha Hcv. subst r. rewrite handleSubmit_trace, Ha.
    fold price. now rewrite Hcv.
  - intros H. subst r. rewrite handleSubmit_trace.
    destruct (accepted B f); [|reflexivity].
    destruct H as [H|H]; [discriminate|]. fold price. now rewrite H.
  - apply SHA256_digest_length.
  - intros file. reflexivity.
Qed.

Lemma content_hash_is_digest_of_cid_witness :
  let cid := "QmYwAPJzv5CZsnA625s3Xf2nemtYgPpHdWEz79ojWnPbdG" in
  let f := with_file (Example.form "Dune" "1.5" cid)
             (Some {| Upload.name := "dune.pdf";
                      Upload.bytes := [37; 80; 68; 70] |}) in
  accepted (Example.browser None) f = true
  /\ SHA256.digest (TextEncoder_encode cid) =
     [41; 63; 169; 243; 25; 114; 158; 152; 199; 202; 192; 167; 193; 125; 134;
      174; 223; 3; 53; 15; 251; 20; 84; 146; 62; 75; 147; 165; 157; 239; 37;
      36]
  /\ trace (Upload.handleSubmit (Example.browser None) f Example.empty_store
              Example.idle []) =
     [ContractCall "register-ebook"
        [StringUtf8CV "Dune"; StringUtf8CV "A novel";
         BufferCV (SHA256.digest (TextEncoder_encode cid));
         UIntCV 1500000]].
Proof.
  intros cid f.
  assert (Ha : accepted (Example.browser None) f = true)
    by (vm_compute; reflexivity).
  assert (Hp : uintCV (stxToMicroStx (parseFloat (Upload.price f)))
               = Returns (UIntCV 1500000)) by (vm_compute; reflexivity).
  split; [exact Ha|]. split; [vm_compute; reflexivity|].
  exact (proj1 (content_hash_is_digest_of_cid (Example.browser None) f
                  Example.empty_store Example.idle [])
           (UIntCV 1500000) Ha Hp).
Defined.

(** ** Rounding to binary64 *)

Lemma digits2_pos_bounds (p : positive) :
  2 ^ (Zpos (digits2_pos p) - 1) <= Zpos p < 2 ^ Zpos (digits2_pos p).
Proof.
  induction p as [p IH|p IH|]; cbn [digits2_pos]; [| |vm_compute; split; congruence].
  - rewrite Pos2Z.inj_succ. change (Zpos p~1) with (2 * Zpos p + 1).
    replace (Z.succ (Zpos (digits2_pos p)) - 1)
      with (Z.succ (Zpos (digits2_pos p) - 1)) by lia.
    rewrite !Z.pow_succ_r by lia. lia.
  - rewrite Pos2Z.inj_succ. change (Zpos p~0) with (2 * Zpos p).
    replace (Z.succ (Zpos (digits2_pos p)) - 1)
      with (Z.succ (Zpos (digits2_pos p) - 1)) by lia.
    rewrite !Z.pow_succ_r by lia. lia.
Qed.

Lemma Zdigits2_bounds (m : Z) :
  0 < m -> 2 ^ (Zdigits2 m - 1) <= m < 2 ^ Zdigits2 m.
Proof. destruct m as [|p|p]; try lia. intros _. apply digits2_pos_bounds. Qed.

Lemma Zdigits2_nonneg (m : Z) : 0 <= Zdigits2 m.
Proof. destruct m; cbn; lia. Qed.

Lemma Zdigits2_le (m n : Z) : 0 < m -> m < 2 ^ n -> Zdigits2 m <= n.
Proof.
  intros Hm Hn. pose proof (Zdigits2_bounds m Hm) as [Hlo _].
  destruct (Z.le_gt_cases (Zdigits2 m) n) as [|Hgt]; [easy|exfalso].
  assert (0 <= n).
  { destruct (Z.le_gt_cases 0 n); [easy|]. rewrite Z.pow_neg_r in Hn; lia. }
  assert (2 ^ n <= 2 ^ (Zdigits2 m - 1)) by (apply Z.pow_le_mono_r; lia).
  lia.
Qed.

Lemma Zdigits2_ge (m n : Z) : 2 ^ (n - 1) <= m -> 0 < m -> n <= Zdigits2 m.
Proof.
  intros Hn Hm. pose proof (Zdigits2_bounds m Hm) as [_ Hhi].
  destruct (Z.le_gt_cases n (Zdigits2 m)) as [|Hgt]; [easy|exfalso].
  pose proof (Zdigits2_nonneg m).
  assert (2 ^ Zdigits2 m <= 2 ^ (n - 1)) by (apply Z.pow_le_mono_r; lia).
  lia.
Qed.

Lemma shr_1_m (r : shr_record) :
  0 <= shr_m r -> shr_m (shr_1 r) = shr_m r / 2.
Proof.
  destruct r as [m rb sb]. cbn [shr_m]. intros Hm.
  destruct m as [|[p|p|]|]; cbn [shr_1 shr_m]; try lia.
  - reflexivity.
  - apply Z.div_unique with 1; lia.
  - apply Z.div_unique with 0; lia.
  - reflexivity.
Qed.

Lemma iter_shr_1_m (p : positive) (r : shr_record) :
  0 <= shr_m r ->
  shr_m (SpecFloat.iter_pos shr_1 p r) = shr_m r / 2 ^ Zpos p.
Proof.
  revert r. induction p as [p IH|p IH|]; intros r Hr; cbn [SpecFloat.iter_pos].
  - assert (H1 : 0 <= shr_m (shr_1 r)).
    { rewrite shr_1_m by easy. apply Z.div_pos; lia. }
    assert (H2 : 0 <= shr_m (SpecFloat.iter_pos shr_1 p (shr_1 r))).
    { rewrite IH by easy. apply Z.div_pos; lia. }
    rewrite IH, IH, shr_1_m by easy.
    rewrite !Z.div_div by lia.
    f_equal. change (Zpos p~1) with (2 * Zpos p + 1).
    replace (2 * Zpos p + 1) with (1 + Zpos p + Zpos p) by lia.
    rewrite !Z.pow_add_r by lia. lia.
  - assert (H2 : 0 <= shr_m (SpecFloat.iter_pos shr_1 p r)).
    { rewrite IH by easy. apply Z.div_pos; lia. }
    rewrite IH, IH by easy.
    rewrite !Z.div_div by lia.
    f_equal. change (Zpos p~0) with (2 * Zpos p).
    replace (2 * Zpos p) with (Zpos p + Zpos p) by lia.
    rewrite !Z.pow_add_r by lia. lia.
  - now rewrite shr_1_m.
Qed.

Lemma shr_spec (r : shr_record) (e k : Z) :
  0 <= shr_m r ->
  shr_m (fst (shr r e k)) = shr_m r / 2 ^ Z.max k 0
  /\ snd (shr r e k) = e + Z.max k 0.
Proof.
  intros Hr. destruct k as [|p|p]; cbn [shr fst snd].
  - cbn. rewrite Z.div_1_r. lia.
  - rewrite iter_shr_1_m by easy. rewrite Z.max_l by lia. lia.
  - rewrite Z.max_r by lia. cbn. rewrite Z.div_1_r. lia.
Qed.

Lemma shr_nonpos (r : shr_record) (e k : Z) : k <= 0 -> shr r e k = (r, e).
Proof. destruct k; cbn; try reflexivity; lia. Qed.

Lemma shr_record_of_loc_m (m : Z) (l : location) :
  shr_m (shr_record_of_loc m l) = m.
Proof. destruct l as [|[]]; reflexivity. Qed.

Lemma loc_of_shr_record_of_loc (m : Z) (l : location) :
  loc_of_shr_record (shr_record_of_loc m l) = l.
Proof. destruct l as [|[]]; reflexivity. Qed.

Lemma round_nearest_even_bounds (m : Z) (l : location) :
  m <= round_nearest_even m l <= m + 1.
Proof.
  destruct l as [|[]]; cbn [round_nearest_even]; try destruct (Z.even m); lia.
Qed.

(** What [binary_round_aux] computes: the mantissa is cut to the weight
    [2 ^ e'], rounded to [m1], one of the two neighbours, and renormalised
    when [m1] is [2 ^ 53]. *)
Lemma binary_round_aux_spec (s : bool) (mx ex : Z) (lx : location) :
  0 <= mx ->
  let e' := round_exponent (Zdigits2 mx) ex in
  let m' := mx / 2 ^ (e' - ex) in
  m' < 2 ^ 53
  /\ exists m1,
      m' <= m1 <= m' + 1
      /\ (lx = loc_Exact -> e' = ex -> m1 = mx)
      /\ binary_round_aux prec emax s mx ex lx =
         if m1 =? 0 then S754_zero s
         else if m1 =? 2 ^ 53 then
           if e' + 1 <=? 971 then S754_finite s (Z.to_pos (2 ^ 52)) (e' + 1)
           else S754_infinity s
         else if e' <=? 971 then S754_finite s (Z.to_pos m1) e'
         else S754_infinity s.
Proof.
  intros Hmx e' m'.
  assert (Hhi : mx < 2 ^ Zdigits2 mx).
  { destruct (Z.eq_dec mx 0) as [->|]; [reflexivity|].
    apply Zdigits2_bounds. lia. }
  pose proof (Zdigits2_nonneg mx) as Hd.
  set (d := Zdigits2 mx) in *.
  assert (Hk : fexp prec emax (d + ex) - ex <= e' - ex
               /\ Z.max (fexp prec emax (d + ex) - ex) 0 = e' - ex).
  { unfold fexp, emin, prec, emax, e', round_exponent. lia. }
  assert (He' : -1074 <= e' /\ d + ex - 53 <= e' /\ ex <= e').
  { unfold e', round_exponent. lia. }
  assert (Hm'0 : 0 <= m') by (apply Z.div_pos; lia).
  assert (Hm' : m' < 2 ^ 53).
  { apply Z.div_lt_upper_bound; [lia|].
    rewrite <- Z.pow_add_r by lia.
    eapply Z.lt_le_trans; [exact Hhi|]. apply Z.pow_le_mono_r; lia. }
  split; [exact Hm'|].
  unfold binary_round_aux, shr_fexp.
  fold d.
  pose proof (shr_spec (shr_record_of_loc mx lx) ex
                (fexp prec emax (d + ex) - ex)) as Hshr.
  rewrite shr_record_of_loc_m in Hshr. specialize (Hshr Hmx).
  destruct (shr (shr_record_of_loc mx lx) ex (fexp prec emax (d + ex) - ex))
    as [r1 e1] eqn:E1.
  cbn [fst snd] in Hshr. destruct Hshr as [Hr1 He1].
  destruct Hk as [_ Hk]. rewrite Hk in Hr1, He1.
  replace (ex + (e' - ex)) with e' in He1 by lia. subst e1.
  fold m' in Hr1.
  set (m1 := round_nearest_even (shr_m r1) (loc_of_shr_record r1)).
  pose proof (round_nearest_even_bounds (shr_m r1) (loc_of_shr_record r1))
    as Hm1. fold m1 in Hm1. rewrite Hr1 in Hm1.
  exists m1. split; [exact Hm1|]. split.
  { intros -> Hex. rewrite shr_nonpos in E1 by lia.
    injection E1 as <-. subst m1. cbn. reflexivity. }
  destruct (Z.eqb_spec m1 0) as [E0|N0].
  - rewrite E0. cbn [Zdigits2].
    rewrite shr_nonpos by (unfold fexp, emin, prec, emax; lia).
    cbn. reflexivity.
  - destruct (Z.eqb_spec m1 (2 ^ 53)) as [E53|N53].
    + rewrite E53.
      replace (Zdigits2 (2 ^ 53)) with 54 by reflexivity.
      replace (fexp prec emax (54 + e') - e') with 1
        by (unfold fexp, emin, prec, emax; lia).
      cbn [shr shr_record_of_loc SpecFloat.iter_pos]. cbn [shr_m shr_1].
      replace (Z.sub emax prec) with 971 by reflexivity.
      reflexivity.
    + assert (Hpos : 0 < m1) by lia.
      assert (Hdm1 : Zdigits2 m1 <= 53) by (apply Zdigits2_le; lia).
      rewrite shr_nonpos by (unfold fexp, emin, prec, emax; lia).
      cbn [shr_m shr_record_of_loc].
      destruct m1 as [|p|p]; try lia.
      replace (Z.sub emax prec) with 971 by reflexivity.
      reflexivity.
Qed.

(** *** Dyadic rationals *)

Lemma pow2_pos (e : Z) : (0 < 2 ^ e)%Q.
Proof. now apply Qpower_0_lt. Qed.

Lemma pow2_add (a b : Z) : (2 ^ (a + b) == 2 ^ a * 2 ^ b)%Q.
Proof. now apply Qpower_plus. Qed.

Lemma pow2_Z (n : Z) : 0 <= n -> (2 ^ n == inject_Z (2 ^ n))%Q.
Proof. intros Hn. now rewrite Zpower_Qpower. Qed.

Lemma pow2_le (a b : Z) : a <= b -> (2 ^ a <= 2 ^ b)%Q.
Proof. intros H. now apply Qpower_le_compat_l. Qed.

Lemma scaled_le (m n e : Z) : m <= n -> (scaled m e <= scaled n e)%Q.
Proof.
  intros H. unfold scaled. apply Qmult_le_compat_r.
  - now rewrite <- Zle_Qle.
  - apply Qlt_le_weak, pow2_pos.
Qed.

Lemma scaled_lt (m n e : Z) : m < n -> (scaled m e < scaled n e)%Q.
Proof.
  intros H. unfold scaled. apply Qmult_lt_compat_r.
  - apply pow2_pos.
  - now rewrite <- Zlt_Qlt.
Qed.

Lemma scaled_succ (m e : Z) : (scaled (m + 1) e == scaled m e + 2 ^ e)%Q.
Proof. unfold scaled. rewrite inject_Z_plus. ring. Qed.

Lemma scaled_shift (m e k : Z) :
  0 <= k -> (scaled (m * 2 ^ k) e == scaled m (e + k))%Q.
Proof.
  intros Hk. unfold scaled.
  rewrite inject_Z_mult, <- pow2_Z, pow2_add by easy. ring.
Qed.

Lemma scaled_1 (e : Z) : (scaled 1 e == 2 ^ e)%Q.
Proof. unfold scaled. ring. Qed.

(** [binary_round_aux] rounds faithfully: the result is within one unit in
    the last place of the rational [T] it is given by a mantissa, an exponent
    and a location; the result is normal, or subnormal, or [T] itself. *)
Lemma binary_round_aux_faithful (s : bool) (mx ex : Z) (lx : location)
    (T : Q) :
  0 < mx ->
  (scaled mx ex <= T)%Q ->
  (T < scaled (mx + 1) ex)%Q ->
  (lx = loc_Exact -> T == scaled mx ex)%Q ->
  53 <= Zdigits2 mx \/ lx = loc_Exact ->
  match binary_round_aux prec emax s mx ex lx with
  | S754_nan => False
  | S754_infinity _ => 53 <= Zdigits2 mx -> (2 ^ 1023 <= T)%Q
  | S754_zero _ => (T < 2 ^ (-1074))%Q
  | S754_finite s' m e =>
      s' = s /\ Zpos m < 2 ^ 53 /\ -1074 <= e <= 971
      /\ (scaled (Zpos m) e - 2 ^ e <= T <= scaled (Zpos m) e + 2 ^ e)%Q
      /\ (2 ^ 52 <= Zpos m \/ e = -1074 \/ (T == scaled (Zpos m) e)%Q)
  end.
Proof.
  intros Hmx Hlo Hhi Hexact Hdig.
  pose proof (binary_round_aux_spec s mx ex lx (Z.lt_le_incl _ _ Hmx))
    as Hspec.
  pose proof (Zdigits2_bounds mx Hmx) as [Hdlo Hdhi].
  pose proof (Zdigits2_nonneg mx) as Hd.
  set (d := Zdigits2 mx) in *.
  set (e' := round_exponent d ex) in *.
  set (m' := mx / 2 ^ (e' - ex)) in *.
  cbv zeta in Hspec.
  destruct Hspec as (Hm' & m1 & Hm1 & Hm1x & ->).
  assert (He' : -1074 <= e' /\ d + ex - 53 <= e' /\ ex <= e')
    by (unfold e', round_exponent; lia).
  set (k := e' - ex) in *.
  assert (Hk : 0 <= k) by lia.
  assert (H2k : 0 < 2 ^ k) by (apply Z.pow_pos_nonneg; lia).
  assert (Hdiv : m' * 2 ^ k <= mx /\ mx + 1 <= (m' + 1) * 2 ^ k).
  { pose proof (Z.div_mod mx (2 ^ k)) as Hdm.
    pose proof (Z.mod_pos_bound mx (2 ^ k) H2k) as Hmod.
    fold m' in Hdm. lia. }
  assert (Hm'0 : 0 <= m') by (apply Z.div_pos; lia).
  assert (HTlo : (scaled m' e' <= T)%Q).
  { replace e' with (ex + k) by lia. rewrite <- scaled_shift by easy.
    eapply Qle_trans; [|exact Hlo]. apply scaled_le. lia. }
  assert (HThi : (T < scaled m' e' + 2 ^ e')%Q).
  { rewrite <- scaled_succ. replace e' with (ex + k) at 1 by lia.
    rewrite <- scaled_shift by easy.
    eapply Qlt_le_trans; [exact Hhi|]. apply scaled_le. lia. }
  assert (Hv : (scaled m' e' <= scaled m1 e' <= scaled m' e' + 2 ^ e')%Q).
  { split; [apply scaled_le; lia|].
    rewrite <- scaled_succ. apply scaled_le. lia. }
  assert (Hnormal :
            e' <> -1074 -> ~ (lx = loc_Exact /\ e' = ex) -> 2 ^ 52 <= m').
  { intros Hn Hx.
    assert (Ek : k = d - 53).
    { destruct Hdig as [Hdig|Hl].
      - unfold k, e', round_exponent in *. lia.
      - assert (e' <> ex) by (intros E; apply Hx; now split).
        unfold k, e', round_exponent in *. lia. }
    apply Z.div_le_lower_bound; [lia|].
    rewrite Z.mul_comm, <- Z.pow_add_r by lia.
    replace (52 + k) with (d - 1) by lia. exact Hdlo. }
  assert (Hbig : 53 <= d -> 971 <= e' -> (2 ^ 1023 <= T)%Q).
  { intros H53 Hbig.
    assert (Ek : k = d - 53) by (unfold k, e', round_exponent in *; lia).
    assert (2 ^ 52 <= m').
    { apply Z.div_le_lower_bound; [lia|].
      rewrite Z.mul_comm, <- Z.pow_add_r by lia.
      replace (52 + k) with (d - 1) by lia. exact Hdlo. }
    eapply Qle_trans; [|exact HTlo].
    eapply Qle_trans; [|apply (scaled_le (1 * 2 ^ 52) m' e'); lia].
    rewrite scaled_shift, scaled_1 by lia. apply pow2_le. lia. }
  pose proof (pow2_pos e') as Hp.
  destruct (Z.eqb_spec m1 0) as [E0|N0].
  - assert (m' = 0) by lia.
    assert (Hlt : mx < 2 ^ k) by lia.
    assert (d - 1 < k).
    { apply (Z.pow_lt_mono_r_iff 2); lia. }
    assert (1 <= d) by (apply Zdigits2_ge; [change (2 ^ (1 - 1)) with 1|]; lia).
    assert (e' = -1074) by (unfold k, e', round_exponent in *; lia).
    replace m' with 0 in HThi by lia.
    unfold scaled in HThi. change (inject_Z 0) with 0%Q in HThi.
    replace (-1074) with e' by lia. lra.
  - destruct (Z.eqb_spec m1 (2 ^ 53)) as [E53|N53].
    + destruct (Z.leb_spec (e' + 1) 971); [|intros H53; apply Hbig; lia].
      assert (Ev : (scaled (Zpos (Z.to_pos (2 ^ 52))) (e' + 1)
                    == scaled m1 e')%Q).
      { rewrite E53. rewrite <- (scaled_shift (2 ^ 52) e' 1) by lia.
        reflexivity. }
      assert (Hp1 : (2 ^ e' <= 2 ^ (e' + 1))%Q) by (apply pow2_le; lia).
      split; [reflexivity|]. split; [reflexivity|]. split; [lia|].
      rewrite Ev. split; [lra|]. left. reflexivity.
    + destruct (Z.leb_spec e' 971); [|intros H53; apply Hbig; lia].
      assert (Hpos : 0 < m1) by lia.
      rewrite (Z2Pos.id m1 Hpos).
      split; [reflexivity|]. split; [lia|]. split; [lia|]. split; [lra|].
      destruct (Z.eq_dec e' (-1074)) as [|Hn]; [now right; left|].
      destruct lx as [|c].
      * destruct (Z.eq_dec e' ex) as [Ex|Hx].
        -- right; right. rewrite (Hm1x eq_refl Ex), Ex. now apply Hexact.
        -- left. assert (2 ^ 52 <= m') by (apply Hnormal; intuition). lia.
      * left.
        assert (2 ^ 52 <= m') by (apply Hnormal; [easy|intros [? _]; easy]).
        lia.
Qed.

(** *** Multiplication, [Math.floor] and division *)

Lemma scaled_mul (m1 e1 m2 e2 : Z) :
  (scaled (m1 * m2) (e1 + e2) == scaled m1 e1 * scaled m2 e2)%Q.
Proof. unfold scaled. rewrite inject_Z_mult, pow2_add. ring. Qed.

Lemma scaled_0 (m : Z) : (scaled m 0 == inject_Z m)%Q.
Proof. unfold scaled. change (2 ^ 0)%Q with 1%Q. ring. Qed.

Lemma scaled_pos (m e : Z) : 0 < m -> (0 < scaled m e)%Q.
Proof.
  intros H. unfold scaled. apply Qmult_lt_0_compat; [|apply pow2_pos].
  change 0%Q with (inject_Z 0). now rewrite <- Zlt_Qlt.
Qed.

(** The product of two positive numbers, the second of 53 significant bits. *)
Lemma mul_faithful (mx : positive) (ex : Z) (my : positive) (ey : Z)
    (T : Q) :
  2 ^ 52 <= Zpos my ->
  (T == scaled (Zpos mx) ex * scaled (Zpos my) ey)%Q ->
  match mul (S754_finite false mx ex) (S754_finite false my ey) with
  | S754_nan => False
  | S754_infinity _ => (2 ^ 1023 <= T)%Q
  | S754_zero s => s = false /\ (T < 2 ^ (-1074))%Q
  | S754_finite s m e =>
      s = false /\ Zpos m < 2 ^ 53 /\ -1074 <= e <= 971
      /\ (scaled (Zpos m) e - 2 ^ e <= T <= scaled (Zpos m) e + 2 ^ e)%Q
      /\ (2 ^ 52 <= Zpos m \/ e = -1074 \/ (T == scaled (Zpos m) e)%Q)
  end.
Proof.
  intros Hmy HT0. unfold mul. cbn [SFmul xorb].
  assert (HT : (T == scaled (Zpos (mx * my)) (ex + ey))%Q).
  { now rewrite HT0, Pos2Z.inj_mul, scaled_mul. }
  assert (Hd : 53 <= Zdigits2 (Zpos (mx * my))).
  { apply Zdigits2_ge; [|lia]. change (53 - 1) with 52.
    rewrite Pos2Z.inj_mul. nia. }
  assert (H := binary_round_aux_faithful false (Zpos (mx * my)) (ex + ey)
                loc_Exact T).
  specialize (H ltac:(lia)).
  specialize (H ltac:(rewrite HT; apply Qle_refl)).
  specialize (H ltac:(rewrite HT; apply scaled_lt; lia)).
  specialize (H (fun _ => HT) (or_intror eq_refl)).
  destruct (binary_round_aux prec emax false (Zpos (mx * my)) (ex + ey)
              loc_Exact) as [s|s| |s m e] eqn:E.
  - assert (Hs : s = false).
    { pose proof (binary_round_aux_spec false (Zpos (mx * my)) (ex + ey)
                    loc_Exact) as Hspec.
      cbv zeta in Hspec. destruct Hspec as (_ & m1 & _ & _ & Hr); [lia|].
      rewrite E in Hr.
      repeat match type of Hr with
             | context [if ?c then _ else _] => destruct c
             end; congruence. }
    split; [exact Hs|exact H].
  - exact (H Hd).
  - exact H.
  - exact H.
Qed.

Lemma iter_xO (mx d : positive) :
  Zpos (Pos.iter xO mx d) = Zpos mx * 2 ^ Zpos d.
Proof.
  change (Pos.iter xO mx d) with (shift_pos d mx).
  rewrite shift_pos_correct, Z.pow_pos_fold. lia.
Qed.

Lemma shl_align_spec (mx : positive) (ex ex' : Z) :
  snd (shl_align mx ex ex') = Z.min ex ex'
  /\ Zpos (fst (shl_align mx ex ex')) = Zpos mx * 2 ^ (ex - Z.min ex ex').
Proof.
  unfold shl_align. destruct (ex' - ex) as [|d|d] eqn:E; cbn [fst snd].
  - rewrite Z.min_l by lia. rewrite Z.sub_diag. cbn. lia.
  - rewrite Z.min_l by lia. rewrite Z.sub_diag. cbn. lia.
  - rewrite Z.min_r by lia. rewrite iter_xO.
    replace (ex - ex') with (Zpos d) by lia. easy.
Qed.

(** An integer below [2 ^ 53] is a binary64 number. *)
Lemma binary_normalize_exact (N : Z) :
  0 < N < 2 ^ 53 ->
  exists mN eN,
    binary_normalize prec emax N 0 false = S754_finite false mN eN
    /\ 2 ^ 52 <= Zpos mN < 2 ^ 53
    /\ -52 <= eN <= 0
    /\ Zpos mN = N * 2 ^ (- eN).
Proof.
  intros [Hpos Hlt]. destruct N as [|n|n]; try lia.
  cbn [binary_normalize]. unfold binary_round.
  pose proof (digits2_pos_bounds n) as [Hdlo Hdhi].
  pose proof (Zdigits2_le (Zpos n) 53 Hpos Hlt) as Hd53. cbn [Zdigits2] in Hd53.
  set (dn := Zpos (digits2_pos n)) in *.
  assert (Hdn : 1 <= dn) by (unfold dn; lia).
  assert (Hfe : fexp prec emax (dn + 0) = dn - 53)
    by (unfold fexp, emin, prec, emax; lia).
  rewrite Hfe.
  pose proof (shl_align_spec n 0 (dn - 53)) as [Hez Hmz].
  destruct (shl_align n 0 (dn - 53)) as [mz ez]. cbn [fst snd] in Hez, Hmz.
  rewrite Z.min_r in Hez, Hmz by lia. subst ez.
  replace (0 - (dn - 53)) with (53 - dn) in Hmz by lia.
  assert (Hmzb : 2 ^ 52 <= Zpos mz < 2 ^ 53).
  { rewrite Hmz.
    assert (E52 : 2 ^ 52 = 2 ^ (dn - 1) * 2 ^ (53 - dn)).
    { rewrite <- Z.pow_add_r by lia. f_equal. lia. }
    assert (E53 : 2 ^ 53 = 2 ^ dn * 2 ^ (53 - dn)).
    { rewrite <- Z.pow_add_r by lia. f_equal. lia. }
    rewrite E52, E53.
    assert (0 < 2 ^ (53 - dn)) by (apply Z.pow_pos_nonneg; lia).
    split; [apply Z.mul_le_mono_nonneg_r|apply Z.mul_lt_mono_pos_r]; lia. }
  assert (Hdz : Zdigits2 (Zpos mz) = 53).
  { apply Z.le_antisymm.
    - apply Zdigits2_le; lia.
    - apply Zdigits2_ge; [change (53 - 1) with 52|]; lia. }
  pose proof (binary_round_aux_spec false (Zpos mz) (dn - 53) loc_Exact
                ltac:(lia)) as Hspec.
  cbv zeta in Hspec. rewrite Hdz in Hspec.
  assert (Hre : round_exponent 53 (dn - 53) = dn - 53)
    by (unfold round_exponent; lia).
  rewrite Hre in Hspec.
  destruct Hspec as (_ & m1 & _ & Hm1 & ->).
  rewrite (Hm1 eq_refl eq_refl).
  destruct (Z.eqb_spec (Zpos mz) 0); [lia|].
  destruct (Z.eqb_spec (Zpos mz) (2 ^ 53)); [lia|].
  destruct (Z.leb_spec (dn - 53) 971); [|lia].
  exists mz, (dn - 53). cbn [Z.to_pos].
  split; [reflexivity|]. split; [exact Hmzb|]. split; [lia|].
  rewrite Hmz. f_equal. f_equal. lia.
Qed.

(** [Math.floor] of a positive number: the integer part [N], as a number. *)
Lemma floor_spec (m : positive) (e : Z) :
  Zpos m < 2 ^ 53 ->
  exists N : Z,
    0 <= N
    /\ (inject_Z N <= scaled (Zpos m) e < inject_Z N + 1)%Q
    /\ ((N = 0 /\ floor (S754_finite false m e) = S754_zero false)
        \/ (0 < N
            /\ exists mN eN,
                floor (S754_finite false m e) = S754_finite false mN eN
                /\ (e < 0 -> 2 ^ 52 <= Zpos mN)
                /\ (scaled (Zpos mN) eN == inject_Z N)%Q)).
Proof.
  intros Hm. unfold floor.
  destruct (Z.leb_spec 0 e) as [He|He].
  - exists (Zpos m * 2 ^ e).
    assert (0 < 2 ^ e) by (apply Z.pow_pos_nonneg; lia).
    assert (Hv : (scaled (Zpos m) e == inject_Z (Zpos m * 2 ^ e))%Q).
    { rewrite <- scaled_0, scaled_shift by lia. now rewrite Z.add_0_l. }
    split; [nia|]. split; [rewrite Hv; lra|].
    right. split; [nia|]. exists m, e.
    split; [reflexivity|]. split; [lia|exact Hv].
  - cbn [cond_Zopp].
    set (N := Zpos m / 2 ^ (- e)).
    assert (H2 : 0 < 2 ^ (- e)) by (apply Z.pow_pos_nonneg; lia).
    assert (HN0 : 0 <= N) by (apply Z.div_pos; lia).
    assert (HNm : N * 2 ^ (- e) <= Zpos m < (N + 1) * 2 ^ (- e)).
    { pose proof (Z.div_mod (Zpos m) (2 ^ (- e))) as Hdm.
      pose proof (Z.mod_pos_bound (Zpos m) (2 ^ (- e)) H2) as Hmod.
      fold N in Hdm. lia. }
    assert (Hlo : (inject_Z N <= scaled (Zpos m) e)%Q).
    { rewrite <- scaled_0. replace 0 with (e + - e) at 1 by lia.
      rewrite <- scaled_shift by lia. apply scaled_le. lia. }
    assert (Hhi : (scaled (Zpos m) e < inject_Z N + 1)%Q).
    { change 1%Q with (inject_Z 1). rewrite <- inject_Z_plus, <- scaled_0.
      replace 0 with (e + - e) at 1 by lia.
      rewrite <- scaled_shift by lia. apply scaled_lt. lia. }
    exists N. split; [exact HN0|]. split; [split; assumption|].
    destruct (Z.eq_dec N 0) as [E0|Hn0].
    + left. split; [exact E0|]. now rewrite E0.
    + right. split; [lia|].
      assert (HN53 : N < 2 ^ 53).
      { assert (N <= Zpos m); [|lia]. nia. }
      destruct (binary_normalize_exact N ltac:(lia))
        as (mN & eN & -> & HmN & HeN & Hval).
      exists mN, eN. split; [reflexivity|]. split; [lia|].
      rewrite Hval, scaled_shift by lia.
      replace (eN + - eN) with 0 by lia. apply scaled_0.
Qed.

Lemma new_location_Exact (nb_steps k : Z) :
  new_location nb_steps k = loc_Exact -> k = 0.
Proof.
  unfold new_location, new_location_even, new_location_odd.
  destruct (Z.even nb_steps); destruct (Z.eqb_spec k 0); congruence.
Qed.

Lemma shift_match (m s : Z) :
  0 <= s ->
  match s with
  | 0 => m
  | Zpos _ => Z.shiftl m s
  | Zneg _ => 0
  end = m * 2 ^ s.
Proof.
  intros Hs. destruct s as [|p|p].
  - rewrite Z.pow_0_r. lia.
  - now rewrite Z.shiftl_mul_pow2 by lia.
  - lia.
Qed.

(** The quotient that [SFdiv] hands to the rounding: at least 53 significant
    bits, the exact quotient between it and its successor. *)
Lemma SFdiv_core_binary_spec (m1 e1 m2 e2 : Z) :
  0 < m1 -> 0 < m2 ->
  -1074 <= Zdigits2 m1 + e1 - (Zdigits2 m2 + e2) - 53 ->
  let '(q, e', l) := SFdiv_core_binary prec emax m1 e1 m2 e2 in
  let T := (scaled m1 e1 / scaled m2 e2)%Q in
  0 < q /\ 53 <= Zdigits2 q
  /\ (scaled q e' <= T)%Q /\ (T < scaled (q + 1) e')%Q
  /\ (l = loc_Exact -> (T == scaled q e')%Q).
Proof.
  intros H1 H2 Hrange. unfold SFdiv_core_binary.
  pose proof (Zdigits2_bounds m1 H1) as [Hd1lo Hd1hi].
  pose proof (Zdigits2_bounds m2 H2) as [Hd2lo Hd2hi].
  pose proof (Zdigits2_nonneg m1) as Hd1.
  pose proof (Zdigits2_nonneg m2) as Hd2.
  assert (Hd1' : 1 <= Zdigits2 m1)
    by (apply Zdigits2_ge; [change (2 ^ (1 - 1)) with 1|]; lia).
  set (d1 := Zdigits2 m1) in *. set (d2 := Zdigits2 m2) in *.
  set (e' := Z.min (fexp prec emax (d1 + e1 - (d2 + e2))) (e1 - e2)).
  set (s := e1 - e2 - e').
  assert (Hs : 0 <= s /\ d2 - d1 + 53 <= s).
  { unfold s, e', fexp, emin, prec, emax. lia. }
  set (m' := match s with
             | 0 => m1
             | Zpos _ => Z.shiftl m1 s
             | Zneg _ => 0
             end).
  assert (Hm' : m' = m1 * 2 ^ s) by (apply shift_match; lia).
  clearbody m'.
  destruct (Z.div_eucl m' m2) as [q r] eqn:Eq.
  assert (Hq : q = m' / m2) by (unfold Z.div; now rewrite Eq).
  assert (Hr : r = m' mod m2) by (unfold Z.modulo; now rewrite Eq).
  pose proof (Z.div_mod m' m2 ltac:(lia)) as Hdm.
  pose proof (Z.mod_pos_bound m' m2 H2) as Hmod.
  rewrite <- Hq, <- Hr in Hdm. rewrite <- Hr in Hmod.
  assert (H2s : 0 < 2 ^ s) by (apply Z.pow_pos_nonneg; lia).
  assert (Hbig : 2 ^ (d2 + 52) <= m').
  { rewrite Hm'.
    apply Z.le_trans with (2 ^ (d1 - 1) * 2 ^ s).
    - rewrite <- Z.pow_add_r by lia. apply Z.pow_le_mono_r; lia.
    - apply Z.mul_le_mono_nonneg_r; lia. }
  assert (Hq52 : 2 ^ 52 <= q).
  { rewrite Hq. apply Z.div_le_lower_bound; [lia|].
    apply Z.le_trans with (2 ^ d2 * 2 ^ 52).
    - apply Z.mul_le_mono_nonneg_r; lia.
    - rewrite <- Z.pow_add_r by lia. exact Hbig. }
  assert (Hqpos : 0 < q) by lia.
  assert (Hden : (0 < scaled m2 e2)%Q) by now apply scaled_pos.
  assert (Hnum : (scaled m1 e1 == scaled m' (e' + e2))%Q).
  { rewrite Hm'. rewrite scaled_shift by lia.
    replace (e' + e2 + s) with e1 by (unfold s; lia). reflexivity. }
  cbv zeta.
  split; [exact Hqpos|]. split.
  { apply Zdigits2_ge; [change (53 - 1) with 52|]; lia. }
  split; [|split].
  - apply Qle_shift_div_l; [exact Hden|].
    rewrite <- scaled_mul, Hnum. apply scaled_le. lia.
  - apply Qlt_shift_div_r; [exact Hden|].
    rewrite <- scaled_mul, Hnum. apply scaled_lt. lia.
  - intros Hl. apply new_location_Exact in Hl.
    assert (Em : m' = q * m2) by lia.
    rewrite Hnum, Em, scaled_mul.
    field. intros E. rewrite E in Hden. now apply Qlt_irrefl in Hden.
Qed.

(** The quotient of two positive numbers, in the normal range. *)
Lemma div_faithful (mx : positive) (ex : Z) (my : positive) (ey : Z)
    (T : Q) :
  -1074 <= Zdigits2 (Zpos mx) + ex - (Zdigits2 (Zpos my) + ey) - 53 ->
  (T == scaled (Zpos mx) ex / scaled (Zpos my) ey)%Q ->
  match div (S754_finite false mx ex) (S754_finite false my ey) with
  | S754_nan => False
  | S754_infinity _ => (2 ^ 1023 <= T)%Q
  | S754_zero _ => (T < 2 ^ (-1074))%Q
  | S754_finite s m e =>
      s = false /\ Zpos m < 2 ^ 53 /\ -1074 <= e <= 971
      /\ (scaled (Zpos m) e - 2 ^ e <= T <= scaled (Zpos m) e + 2 ^ e)%Q
      /\ (2 ^ 52 <= Zpos m \/ e = -1074 \/ (T == scaled (Zpos m) e)%Q)
  end.
Proof.
  intros Hrange HT. unfold div. cbn [SFdiv xorb].
  pose proof (SFdiv_core_binary_spec (Zpos mx) ex (Zpos my) ey
                ltac:(lia) ltac:(lia) Hrange) as Hcore.
  destruct (SFdiv_core_binary prec emax (Zpos mx) ex (Zpos my) ey)
    as [[q e'] l].
  cbv zeta in Hcore. rewrite <- HT in Hcore.
  destruct Hcore as (Hq & Hdq & Hlo & Hhi & Hex).
  assert (H := binary_round_aux_faithful false q e' l T Hq Hlo Hhi Hex
                 (or_introl Hdq)).
  destruct (binary_round_aux prec emax false q e' l); auto.
Qed.

(** ** Unit conversion *)

(** C1 (counterexample). For x = 0.003919, the number that [parseFloat] reads
    from ["0.003919"], the product x * 1_000_000 is just below 3919, so that
    [stxToMicroStx x] is 3918, and the round trip falls short of x by more
    than one smallest unit: exactly, and in the arithmetic of the code. *)
Lemma round_trip_loses_a_micro :
  let x := parseFloat "0.003919" in
  let back := microStxToStx (stxToMicroStx x) in
  gtb x zero = true
  /\ to_integer (stxToMicroStx x) = Some 3918
  /\ (1 # 1000000 < value x - value back)%Q
  /\ ltb (sub x back) (parseFloat "0.000001") = false.
Proof. vm_compute. repeat split; discriminate. Qed.

Lemma MICRO_eq : MICRO = S754_finite false 8589934592000000 (-33).
Proof. vm_compute. reflexivity. Qed.

Lemma MICRO_value : (scaled 8589934592000000 (-33) == 1000000)%Q.
Proof. vm_compute. reflexivity. Qed.

Lemma scaled_pow2 (k e : Z) : 0 <= k -> (scaled (2 ^ k) e == 2 ^ (e + k))%Q.
Proof.
  intros Hk. rewrite <- (Z.mul_1_l (2 ^ k)), scaled_shift by easy.
  apply scaled_1.
Qed.

(** A finite result of a faithful rounding that is at least 1 carries a
    relative error of at most [2 ^ -52]. *)
Lemma relative_error (m : positive) (e : Z) (T : Q) :
  Zpos m < 2 ^ 53 ->
  (scaled (Zpos m) e - 2 ^ e <= T <= scaled (Zpos m) e + 2 ^ e)%Q ->
  2 ^ 52 <= Zpos m \/ e = -1074 \/ (T == scaled (Zpos m) e)%Q ->
  (1 # 1000000 <= T)%Q \/ (1 # 1000000 <= scaled (Zpos m) e)%Q ->
  exists err : Q,
    (0 <= err)%Q /\ (err * 4503599627370496 <= scaled (Zpos m) e)%Q
    /\ (scaled (Zpos m) e - err <= T <= scaled (Zpos m) e + err)%Q.
Proof.
  intros Hm Hb Hn HT. destruct Hn as [Hn|[Hs|Hx]].
  - exists (2 ^ e)%Q. pose proof (pow2_pos e).
    split; [lra|]. split; [|exact Hb].
    assert (H52 : (scaled (2 ^ 52) e <= scaled (Zpos m) e)%Q)
      by now apply scaled_le.
    unfold scaled at 1 in H52.
    change (inject_Z (2 ^ 52)) with 4503599627370496%Q in H52. lra.
  - exfalso. subst e.
    assert (H1 : (scaled (Zpos m) (-1074) < scaled (2 ^ 53) (-1074))%Q)
      by now apply scaled_lt.
    rewrite scaled_pow2 in H1 by lia.
    assert (H2 : (2 ^ (-1074) <= 2 ^ (-1074 + 53))%Q) by (apply pow2_le; lia).
    assert (H3 : (2 ^ (-1074 + 53) <= 2 ^ (-22))%Q) by (apply pow2_le; lia).
    assert (H4 : (2 ^ (-22) == 1 # 4194304)%Q) by reflexivity.
    set (a := (2 ^ (-1074))%Q) in *. set (b := (2 ^ (-1074 + 53))%Q) in *.
    set (c := (2 ^ (-22))%Q) in *. clearbody a b c.
    destruct HT; lra.
  - exists 0%Q. pose proof (scaled_pos (Zpos m) e ltac:(lia)). lra.
Qed.

(** C1 (amended). For every positive finite x of at most [2 ^ 1000], the
    round trip [microStxToStx (stxToMicroStx x)] is a finite number that is
    below x by less than one smallest unit, up to the rounding of the
    multiplication and of the division: x minus the round trip lies between
    [- x / 2 ^ 50] and [1 / 1_000_000 + x / 2 ^ 50]. *)
Theorem round_trip_within_rounding (m : positive) (e : Z) :
  let x := S754_finite false m e in
  (value x <= 2 ^ 1000)%Q ->
  let back := microStxToStx (stxToMicroStx x) in
  is_finite back = true
  /\ (0 <= value back)%Q
  /\ (- (value x / 2 ^ 50) <= value x - value back)%Q
  /\ (value x - value back < (1 # 1000000) + value x / 2 ^ 50)%Q.
Proof.
  intros x Hx back.
  change (value x) with (scaled (Zpos m) e) in *.
  assert (E50 : (scaled (Zpos m) e / 2 ^ 50
                 == scaled (Zpos m) e * (1 # 1125899906842624))%Q).
  { unfold Qdiv. apply Qmult_comp; reflexivity. }
  rewrite !E50. clear E50.
  pose proof (scaled_pos (Zpos m) e ltac:(lia)) as HX.
  set (X := scaled (Zpos m) e) in *.
  subst back. unfold stxToMicroStx, microStxToStx. subst x.
  rewrite MICRO_eq.
  assert (Hmul := mul_faithful m e 8589934592000000 (-33) (X * 1000000)
                    ltac:(lia)).
  specialize (Hmul ltac:(now rewrite MICRO_value)).
  destruct (mul (S754_finite false m e)
              (S754_finite false 8589934592000000 (-33)))
    as [sP|sP| |sP mP eP].
  - (* the product underflows to zero *)
    destruct Hmul as [-> HT].
    assert (H1 : (2 ^ (-1074) <= 2 ^ 0)%Q) by (apply pow2_le; lia).
    change (2 ^ 0)%Q with 1%Q in H1.
    assert (HT1 : (X * 1000000 < 1)%Q)
      by (eapply Qlt_le_trans; [exact HT|exact H1]).
    clear HT H1.
    change (div (floor (S754_zero false)) _) with (S754_zero false).
    change (value (S754_zero false)) with 0%Q.
    split; [reflexivity|]. split; [lra|]. split; lra.
  - (* the product overflows *)
    exfalso.
    assert (H1 : (2 ^ 1023 == 2 ^ 1000 * 8388608)%Q).
    { change 1023 with (1000 + 23). rewrite pow2_add. reflexivity. }
    pose proof (pow2_pos 1000). lra.
  - contradiction.
  - destruct Hmul as (-> & HmP & HeP & HbP & HnP).
    destruct (floor_spec mP eP HmP) as (N & HN0 & [HNlo HNhi] & Hfloor).
    set (vP := scaled (Zpos mP) eP) in *.
    destruct Hfloor as [[-> ->]|(HNpos & mN & eN & -> & _ & HvN)].
    + (* the integer part is 0 *)
      change (inject_Z 0) with 0%Q in *.
      assert (HeP0 : eP < 0).
      { destruct (Z.lt_ge_cases eP 0) as [|Hge]; [easy|exfalso].
        assert ((scaled 1 0 <= vP)%Q).
        { unfold vP. replace eP with (0 + eP) by lia.
          rewrite <- scaled_shift by lia. apply scaled_le.
          assert (0 < 2 ^ eP) by (apply Z.pow_pos_nonneg; lia). nia. }
        rewrite scaled_0 in *. change (inject_Z 1) with 1%Q in *. lra. }
      assert (HmP1 : Zpos mP + 1 <= 2 ^ (- eP)).
      { destruct (Z.lt_ge_cases (Zpos mP) (2 ^ (- eP))) as [|Hge]; [lia|].
        exfalso.
        assert ((scaled (2 ^ (- eP)) eP <= vP)%Q) by now apply scaled_le.
        rewrite scaled_pow2 in * by lia.
        replace (eP + - eP) with 0 in * by lia.
        change (2 ^ 0)%Q with 1%Q in *. lra. }
      assert (Hup : (vP + 2 ^ eP <= 1)%Q).
      { unfold vP. rewrite <- scaled_succ.
        eapply Qle_trans; [apply (scaled_le _ (2 ^ (- eP))); exact HmP1|].
        rewrite scaled_pow2 by lia. replace (eP + - eP) with 0 by lia.
        apply Qle_refl. }
      change (div (S754_zero false) _) with (S754_zero false).
      change (value (S754_zero false)) with 0%Q.
      split; [reflexivity|]. split; [lra|]. split; lra.
    + (* the integer part is at least 1 *)
      assert (HN1 : (1 <= inject_Z N)%Q).
      { change 1%Q with (inject_Z 1). rewrite <- Zle_Qle. lia. }
      set (Nq := inject_Z N) in *.
      destruct (relative_error mP eP (X * 1000000) HmP HbP HnP
                  ltac:(right; fold vP; lra))
        as (errP & HerrP0 & HerrP & HerrPb).
      fold vP in HerrP, HerrPb.
      (* the division *)
      assert (Hrange : -1074 <= Zdigits2 (Zpos mN) + eN
                                - (Zdigits2 8589934592000000 + -33) - 53).
      { change (Zdigits2 8589934592000000) with 53.
        pose proof (Zdigits2_bounds (Zpos mN) ltac:(lia)) as [_ Hhi].
        pose proof (Zdigits2_nonneg (Zpos mN)) as Hd.
        destruct (Z.lt_ge_cases 0 (Zdigits2 (Zpos mN) + eN)) as [|Hle]; [lia|].
        exfalso.
        assert (H1 : (scaled (Zpos mN) eN
                      < scaled (2 ^ Zdigits2 (Zpos mN)) eN)%Q)
          by now apply scaled_lt.
        rewrite scaled_pow2 in H1 by lia.
        assert (H2 : (2 ^ (eN + Zdigits2 (Zpos mN)) <= 2 ^ 0)%Q)
          by (apply pow2_le; lia).
        change (2 ^ 0)%Q with 1%Q in H2. lra. }
      assert (Hdiv := div_faithful mN eN 8589934592000000 (-33)
                        (Nq * (1 # 1000000)) Hrange).
      specialize (Hdiv ltac:(rewrite HvN, MICRO_value; reflexivity)).
      assert (HvP1024 : (vP < 2 * 2 ^ 1023)%Q).
      { assert (H1 : (vP < scaled (2 ^ 53) eP)%Q) by now apply scaled_lt.
        rewrite scaled_pow2 in H1 by lia.
        assert (H2 : (2 ^ (eP + 53) <= 2 ^ (1 + 1023))%Q)
          by (apply pow2_le; lia).
        rewrite pow2_add in H2. change (2 ^ 1)%Q with 2%Q in H2. lra. }
      pose proof (pow2_pos 1023) as H1023.
      destruct (div (S754_finite false mN eN)
                  (S754_finite false 8589934592000000 (-33)))
        as [sB|sB| |sB mB eB].
      * exfalso.
        assert (H2 : (2 ^ (-1074) <= 2 ^ (-20))%Q) by (apply pow2_le; lia).
        assert (H3 : (2 ^ (-20) == 1 # 1048576)%Q) by reflexivity.
        lra.
      * exfalso. lra.
      * contradiction.
      * destruct Hdiv as (-> & HmB & HeB & HbB & HnB).
        destruct (relative_error mB eB (Nq * (1 # 1000000)) HmB HbB HnB
                    ltac:(left; lra))
          as (errB & HerrB0 & HerrB & HerrBb).
        change (value (S754_finite false mB eB)) with (scaled (Zpos mB) eB).
        pose proof (scaled_pos (Zpos mB) eB ltac:(lia)) as HvB.
        set (vB := scaled (Zpos mB) eB) in *.
        split; [reflexivity|]. split; [lra|]. split; lra.
Qed.

Lemma round_trip_within_rounding_witness :
  let x := parseFloat "0.003919" in
  let back := microStxToStx (stxToMicroStx x) in
  (value x <= 2 ^ 1000)%Q
  /\ (- (value x / 2 ^ 50) <= value x - value back)%Q
  /\ (value x - value back < (1 # 1000000) + value x / 2 ^ 50)%Q.
Proof.
  intros x back.
  assert (Hx : (value (S754_finite false 4518299376554233 (-60)) <= 2 ^ 1000)%Q)
    by (vm_compute; discriminate).
  split; [exact Hx|].
  exact (proj2 (proj2
    (round_trip_within_rounding 4518299376554233 (-60) Hx))).
Defined.

(** * Further properties of the service layer and of the pages *)

(** ** Read functions *)

(** X1. Each read function issues exactly one read-only request, leaves the
    state of the page alone and returns: none of them throws, whatever the
    remote does. *)
Theorem read_functions_never_throw {S} (R : Remote) (s : S) (h : History)
    (id : nat) (address : string) :
  (exists v, getEbook id R s h =
     {| outcome := Returns v; page := s;
        trace := h ++ [ReadOnlyCall "get-ebook" [UIntCV (Z.of_nat id)]] |})
  /\ (exists n, getEbookCount R s h =
        {| outcome := Returns n; page := s;
           trace := h ++ [ReadOnlyCall "get-ebook-count" []] |})
  /\ (exists b, hasAccess address id R s h =
        {| outcome := Returns b; page := s;
           trace := h ++ [ReadOnlyCall "has-access"
                            [PrincipalCV address; UIntCV (Z.of_nat id)]] |})
  /\ (exists b, isAuthor id address R s h =
        {| outcome := Returns b; page := s;
           trace := h ++ [ReadOnlyCall "is-author"
                            [UIntCV (Z.of_nat id); PrincipalCV address]] |})
  /\ (exists ids, getAuthorEbooks address R s h =
        {| outcome := Returns ids; page := s;
           trace := h ++ [ReadOnlyCall "get-author-ebooks"
                            [PrincipalCV address]] |})
  /\ (exists ids, getBuyerEbooks address R s h =
        {| outcome := Returns ids; page := s;
           trace := h ++ [ReadOnlyCall "get-buyer-ebooks"
                            [PrincipalCV address]] |}).
Proof.
  rewrite getEbook_run, getEbookCount_run, hasAccess_run, isAuthor_run,
    getAuthorEbooks_run, getBuyerEbooks_run.
  repeat split; eexists; reflexivity.
Qed.

(** ** Composite reads *)

Lemma kept_ids_sublist (keep : nat -> JSValue -> list Ebook.Ebook) fs :
  (forall id ebook,
      keep id ebook = [] \/ exists x, keep id ebook = [x] /\ Ebook.id x = id) ->
  sublist (map Ebook.id (kept keep fs)) (map fst fs).
Proof.
  intros Hkeep. unfold kept.
  induction fs as [|[id ebook] rest IH]; cbn [flat_map map fst].
  - constructor.
  - destruct (Hkeep id ebook) as [->|(x & -> & Hx)]; cbn [app map].
    + now constructor.
    + rewrite Hx. now constructor.
Qed.

Lemma keep_active_shape id ebook :
  keep_active id ebook = []
  \/ exists x, keep_active id ebook = [x] /\ Ebook.id x = id.
Proof.
  unfold keep_active.
  destruct (ToBoolean ebook && ToBoolean (get ebook "active")); eauto.
Qed.

Lemma sublist_seq_bounds (l : list nat) (a n : nat) (x : nat) :
  sublist l (seq a n) -> In x l -> (a <= x < a + n)%nat.
Proof.
  intros Hsub Hin. apply in_seq.
  apply list_elem_of_In. eapply elem_of_sublist; [|exact Hsub].
  now apply list_elem_of_In.
Qed.

Lemma fetches_all_throw R ids h :
  (forall h' id, get_ebook R h' id = Throws) ->
  kept keep_active (fetches R h ids) = [].
Proof.
  intros Hthrow. revert h.
  induction ids as [|id rest IH]; intros h; [reflexivity|].
  cbn [fetches]. unfold kept. cbn [flat_map]. unfold ebook_answer at 1.
  rewrite Hthrow. cbn [keep_active ToBoolean andb app]. apply IH.
Qed.

(** X2. The ids of the result of [getAllEbooks] are taken from 1 .. count in
    increasing order, none twice; so the result has at most count entries,
    and it is empty when every single-record fetch throws. *)
Theorem getAllEbooks_ids_increasing {S} (R : Remote) (s : S) (h : History)
    (l : list Ebook.Ebook) :
  outcome (getAllEbooks R s h) = Returns l ->
  let n := count_answer R h in
  sublist (map Ebook.id l) (seq 1 n)
  /\ (length l <= n)%nat
  /\ (forall x, In x l -> (1 <= Ebook.id x <= n)%nat)
  /\ ((forall h' id, get_ebook R h' id = Throws) -> l = []).
Proof.
  intros Hl n. rewrite getAllEbooks_run in Hl. cbn [outcome] in Hl.
  fold n in Hl. injection Hl as <-.
  assert (Hsub : sublist
                   (map Ebook.id
                      (kept keep_active
                         (fetches R (h ++ [count_request]) (seq 1 n))))
                   (seq 1 n)).
  { rewrite <- (fetches_ids R (h ++ [count_request]) (seq 1 n)) at 2.
    apply kept_ids_sublist, keep_active_shape. }
  split; [exact Hsub|]. split; [|split].
  - apply sublist_length in Hsub.
    now rewrite length_map, length_seq in Hsub.
  - intros x Hx.
    pose proof (sublist_seq_bounds _ 1 n (Ebook.id x) Hsub
                  (in_map Ebook.id _ _ Hx)). lia.
  - intros Hthrow. now apply fetches_all_throw.
Qed.

Lemma getAllEbooks_ids_increasing_witness :
  let a := "SP2J6ZY48GV1EZ5V2V5RB9MP66SW86PYKKNRV9EJ7" in
  exists l,
    outcome (getAllEbooks (Example.store a) tt []) = Returns l
    /\ map Ebook.id l = [1%nat]
    /\ sublist (map Ebook.id l) (seq 1 3).
Proof.
  intros a. eexists. split; [rewrite getAllEbooks_run; reflexivity|].
  split; [reflexivity|].
  refine (proj1 (getAllEbooks_ids_increasing (Example.store a) tt [] _ _)).
  rewrite getAllEbooks_run. reflexivity.
Defined.

(** X3. [getEbooksByAuthor] requests the author-indexed id list and then one
    record per id, in the order of the list; every record that comes back
    truthy gives an entry, the deactivated ones included, every entry comes
    from a record that came back truthy, and the entries keep the order of
    the list. *)
Theorem getEbooksByAuthor_keeps_inactive {S} (R : Remote) (s : S)
    (h : History) (address : string) :
  let r := getEbooksByAuthor address R s h in
  let ids := ids_answer (get_author_ebooks R h address) in
  let fs := fetches R (h ++ [author_request address]) ids in
  trace r = h ++ author_request address :: map fetch_request ids
  /\ exists l,
      outcome r = Returns l
      /\ sublist (map Ebook.id l) ids
      /\ (forall id ebook,
            In (id, ebook) fs -> ToBoolean ebook = true ->
            In (listing id ebook) l)
      /\ (forall x, In x l ->
            exists ebook,
              In (Ebook.id x, ebook) fs
              /\ ToBoolean ebook = true
              /\ x = listing (Ebook.id x) ebook).
Proof.
  intros r ids fs. subst r. rewrite getEbooksByAuthor_run.
  cbn [outcome trace]. fold ids. fold fs.
  split; [reflexivity|]. eexists. split; [reflexivity|]. split; [|split].
  - unfold fs.
    rewrite <- (fetches_ids R (h ++ [author_request address]) ids) at 2.
    apply kept_ids_sublist. intros id ebook.
    destruct (ToBoolean ebook); eauto.
  - intros id ebook Hin Ht. apply kept_In. exists id, ebook.
    split; [exact Hin|]. rewrite Ht. now left.
  - intros x Hx. apply kept_In in Hx as (id & ebook & Hin & Hk).
    destruct (ToBoolean ebook) eqn:Et; [|easy]. destruct Hk as [<-|[]].
    exists ebook. cbn. auto.
Qed.

Lemma getEbooksByAuthor_keeps_inactive_witness :
  let a := "SP2J6ZY48GV1EZ5V2V5RB9MP66SW86PYKKNRV9EJ7" in
  let r := getEbooksByAuthor a (Example.store a) tt [] in
  exists l,
    outcome r = Returns l
    /\ In (listing 2 (Example.record a [("active", JBool false)])) l.
Proof.
  intros a r.
  destruct (getEbooksByAuthor_keeps_inactive (Example.store a) tt [] a)
    as (_ & l & Hl & _ & Hin & _).
  exists l. split; [exact Hl|]. apply Hin.
  - vm_compute. right. left. reflexivity.
  - reflexivity.
Defined.

(** ** Network selection *)

Lemma getNetwork_mainnet_iff B :
  getNetwork B = StacksMainnet <->
  String.eqb (env_or (NEXT_PUBLIC_NETWORK B) "mainnet") "mainnet" = true.
Proof.
  unfold getNetwork.
  destruct (String.eqb (env_or (NEXT_PUBLIC_NETWORK B) "mainnet") "mainnet");
    [easy|].
  destruct (String.eqb (env_or (NEXT_PUBLIC_NETWORK B) "mainnet") "testnet");
    easy.
Qed.

(** X4. For a signed-in user [getUserAddress] follows [getNetwork] on
    mainnet only: it is the mainnet account identifier exactly when
    [getNetwork] is the mainnet, and the testnet account identifier on the
    testnet and on the devnet alike. *)
Theorem getUserAddress_follows_getNetwork (B : Browser) :
  isSignedIn B = true ->
  (getNetwork B = StacksMainnet ->
   getUserAddress B = Some (stxAddress_mainnet B))
  /\ (getNetwork B = StacksTestnet \/ getNetwork B = StacksDevnet ->
      getUserAddress B = Some (stxAddress_testnet B)).
Proof.
  intros Hs. unfold getUserAddress. rewrite Hs. cbn [negb].
  pose proof (getNetwork_mainnet_iff B) as Hiff.
  destruct (String.eqb (env_or (NEXT_PUBLIC_NETWORK B) "mainnet") "mainnet").
  - split; [reflexivity|].
    intros [H|H]; rewrite (proj2 Hiff eq_refl) in H; discriminate.
  - split; [|reflexivity]. intros H. apply Hiff in H. discriminate.
Qed.

Lemma getUserAddress_follows_getNetwork_witness :
  let B := Example.browser (Some "devnet") in
  isSignedIn B = true /\ getNetwork B = StacksDevnet
  /\ getUserAddress B = Some (stxAddress_testnet B).
Proof.
  intros B. split; [reflexivity|]. split; [reflexivity|].
  exact (proj2 (getUserAddress_follows_getNetwork B eq_refl)
           (or_intror eq_refl)).
Defined.

(** X5. When [NEXT_PUBLIC_NETWORK] is unset or empty the requests go to the
    mainnet, while the explorer link of the success view of the publish page
    points at the testnet. *)
Theorem explorer_link_disagrees_with_network (B : Browser) (txId : string) :
  NEXT_PUBLIC_NETWORK B = None \/ NEXT_PUBLIC_NETWORK B = Some EmptyString ->
  getNetwork B = StacksMainnet
  /\ Upload.explorerUrl B txId
     = ("https://explorer.stacks.co/txid/" ++ txId ++ "?chain=testnet")%string.
Proof.
  intros [H|H]; unfold getNetwork, Upload.explorerUrl; rewrite H; easy.
Qed.

Lemma explorer_link_disagrees_with_network_witness :
  NEXT_PUBLIC_NETWORK (Example.browser None) = None
  /\ getNetwork (Example.browser None) = StacksMainnet
  /\ Upload.explorerUrl (Example.browser None) "0x5e1f"
     = "https://explorer.stacks.co/txid/0x5e1f?chain=testnet".
Proof.
  split; [reflexivity|].
  exact (explorer_link_disagrees_with_network (Example.browser None) "0x5e1f"
           (or_introl eq_refl)).
Defined.

(** ** Transactions *)

(** X6. [registerEbook] and [updatePrice] ask the wallet only when [uintCV]
    takes the price: for a price that is not an integer between 0 and
    [2 ^ 128 - 1] they throw and no request is issued. *)
Theorem invalid_price_never_reaches_wallet {S} (price : number)
    (title description : string) (contentHash : list Z) (ebookId : nat)
    (onFinish : option (string -> M S unit))
    (onCancel : option (unit -> M S unit)) (R : Remote) (s : S)
    (h : History) :
  (forall z, to_integer price = Some z -> z < 0 \/ MAX_U128 < z) ->
  registerEbook title description contentHash price onFinish onCancel R s h
  = {| outcome := Throws; page := s; trace := h |}
  /\ updatePrice ebookId price onFinish onCancel R s h
     = {| outcome := Throws; page := s; trace := h |}.
Proof.
  intros Hbad.
  assert (E : uintCV price = Throws).
  { unfold uintCV. destruct (to_integer price) as [z|]; [|reflexivity].
    destruct (Hbad z eq_refl) as [Hz|Hz].
    - destruct (Z.leb_spec 0 z); [lia|reflexivity].
    - destruct (Z.leb_spec z MAX_U128); [lia|]. now rewrite andb_false_r. }
  unfold registerEbook, updatePrice, bind, of_outcome. cbn [outcome page trace].
  now rewrite E.
Qed.

Lemma invalid_price_never_reaches_wallet_witness :
  registerEbook "Dune" "A novel" [] (parseFloat "0.5") None None
    Example.empty_store tt []
  = {| outcome := Throws; page := tt; trace := [] |}
  /\ updatePrice 1 (parseFloat "-3") None None Example.empty_store tt []
     = {| outcome := Throws; page := tt; trace := [] |}.
Proof.
  split.
  - refine (proj1 (invalid_price_never_reaches_wallet (parseFloat "0.5")
                     "Dune" "A novel" [] 1 None None Example.empty_store tt []
                     _)).
    intros z Hz. vm_compute in Hz. discriminate.
  - refine (proj2 (invalid_price_never_reaches_wallet (parseFloat "-3")
                     "Dune" "A novel" [] 1 None None Example.empty_store tt []
                     _)).
    intros z Hz. vm_compute in Hz. injection Hz as <-. left. reflexivity.
Defined.

(** ** The publish form, once accepted *)

Lemma accepted_true B f :
  accepted B f = true ->
  isSignedIn B = true
  /\ is_empty (trim (Upload.title f)) = false
  /\ is_empty (trim (Upload.description f)) = false
  /\ is_empty (Upload.price f) || leb (parseFloat (Upload.price f)) zero
     = false
  /\ is_empty (trim (Upload.ipfsCid f)) = false.
Proof.
  unfold accepted. rewrite !andb_true_iff, !negb_true_iff. tauto.
Qed.

(** What [handleSubmit] does with an accepted form. *)
Lemma handleSubmit_accepted_run B f R s h :
  accepted B f = true ->
  Upload.handleSubmit B f R s h =
  match uintCV (stxToMicroStx (parseFloat (Upload.price f))) with
  | Throws =>
      {| outcome := Returns tt;
         page := {| Upload.isLoading := false;
                    Upload.error := Some failed_to_register;
                    Upload.txId := None |};
         trace := h |}
  | Returns cv =>
      let request :=
        ContractCall "register-ebook"
          [StringUtf8CV (Upload.title f); StringUtf8CV (Upload.description f);
           BufferCV (SHA256.digest (TextEncoder_encode (Upload.ipfsCid f)));
           cv] in
      {| outcome := Returns tt;
         page :=
           match wallet R h request with
           | Finish t =>
               {| Upload.isLoading := false; Upload.error := None;
                  Upload.txId := Some t |}
           | Cancel =>
               {| Upload.isLoading := false; Upload.error := None;
                  Upload.txId := None |}
           | NoAnswer =>
               {| Upload.isLoading := true; Upload.error := None;
                  Upload.txId := None |}
           | Fails =>
               {| Upload.isLoading := false;
                  Upload.error := Some failed_to_register;
                  Upload.txId := None |}
           end;
         trace := h ++ [request] |}
  end.
Proof.
  intros Ha. apply accepted_true in Ha as (Hs & Ht & Hd & Hp & Hc).
  rewrite handleSubmit_reset, Hs, Ht, Hd, Hp, Hc. cbn [negb].
  generalize (SHA256.digest (TextEncoder_encode (Upload.ipfsCid f))).
  intros contentHash.
  unfold try_catch, registerEbook, bind, of_outcome, Upload.setIsLoading,
    Upload.setError, Upload.setTxId, modify, openContractCall, call_opt.
  cbn [outcome page trace Upload.isLoading Upload.error Upload.txId].
  destruct (uintCV (stxToMicroStx (parseFloat (Upload.price f)))) as [|cv];
    cbn [outcome page trace Upload.isLoading Upload.error Upload.txId];
    [reflexivity|].
  cbv zeta.
  destruct (wallet R h _); reflexivity.
Qed.

(** X7. A form that passes the checks and whose price [uintCV] refuses (a
    price that [parseFloat] reads as NaN or as Infinity, or one of more than
    [2 ^ 128 - 1] smallest units) is not rejected as an invalid price: the
    failure comes from the [try] block, the text is the one of a failed
    registration, and no request is issued. *)
Theorem refused_price_fails_as_registration (B : Browser) (f : Upload.Form)
    (R : Remote) (s : Upload.State) (h : History) :
  accepted B f = true ->
  uintCV (stxToMicroStx (parseFloat (Upload.price f))) = Throws ->
  Upload.handleSubmit B f R s h =
  {| outcome := Returns tt;
     page := {| Upload.isLoading := false;
                Upload.error := Some failed_to_register;
                Upload.txId := None |};
     trace := h |}.
Proof.
  intros Ha Hu. now rewrite (handleSubmit_accepted_run B f R s h Ha), Hu.
Qed.

Lemma refused_price_fails_as_registration_witness :
  let f := Example.form "Dune" "abc"
             "QmYwAPJzv5CZsnA625s3Xf2nemtYgPpHdWEz79ojWnPbdG" in
  parseFloat (Upload.price f) = NaN
  /\ accepted (Example.browser None) f = true
  /\ Upload.handleSubmit (Example.browser None) f Example.empty_store
       Example.idle []
     = {| outcome := Returns tt;
          page := {| Upload.isLoading := false;
                     Upload.error := Some failed_to_register;
                     Upload.txId := None |};
          trace := [] |}.
Proof.
  intros f. split; [reflexivity|]. split; [reflexivity|].
  exact (refused_price_fails_as_registration (Example.browser None) f
           Example.empty_store Example.idle [] eq_refl eq_refl).
Defined.

(** X8. Once the form is accepted and the price converted, [handleSubmit]
    issues the one transaction request and returns; what the page shows then
    depends on the wallet alone: the transaction id when the user approves,
    the idle form when the user cancels, the error text when the wallet
    fails, and the loading state for good when the wallet never answers. *)
Theorem wallet_answer_decides_page (B : Browser) (f : Upload.Form)
    (R : Remote) (s : Upload.State) (h : History) (cv : ClarityValue) :
  accepted B f = true ->
  uintCV (stxToMicroStx (parseFloat (Upload.price f))) = Returns cv ->
  let request :=
    ContractCall "register-ebook"
      [StringUtf8CV (Upload.title f); StringUtf8CV (Upload.description f);
       BufferCV (SHA256.digest (TextEncoder_encode (Upload.ipfsCid f))); cv] in
  let r := Upload.handleSubmit B f R s h in
  outcome r = Returns tt
  /\ trace r = h ++ [request]
  /\ (forall t, wallet R h request = Finish t ->
        page r = {| Upload.isLoading := false; Upload.error := None;
                    Upload.txId := Some t |})
  /\ (wallet R h request = Cancel ->
        page r = {| Upload.isLoading := false; Upload.error := None;
                    Upload.txId := None |})
  /\ (wallet R h request = NoAnswer ->
        page r = {| Upload.isLoading := true; Upload.error := None;
                    Upload.txId := None |})
  /\ (wallet R h request = Fails ->
        page r = {| Upload.isLoading := false;
                    Upload.error := Some failed_to_register;
                    Upload.txId := None |}).
Proof.
  intros Ha Hu request r. subst r.
  rewrite (handleSubmit_accepted_run B f R s h Ha), Hu.
  cbv zeta. fold request. cbn [outcome page trace].
  split; [reflexivity|]. split; [reflexivity|].
  repeat split; intros; now rewrite H.
Qed.

Lemma wallet_answer_decides_page_witness :
  let f := Example.form "Dune" "1.5"
             "QmYwAPJzv5CZsnA625s3Xf2nemtYgPpHdWEz79ojWnPbdG" in
  let r := Upload.handleSubmit (Example.browser None) f Example.empty_store
             Example.idle [] in
  accepted (Example.browser None) f = true
  /\ uintCV (stxToMicroStx (parseFloat (Upload.price f)))
     = Returns (UIntCV 1500000)
  /\ page r = {| Upload.isLoading := false; Upload.error := None;
                 Upload.txId := Some "0x5e1f" |}.
Proof.
  intros f r. split; [reflexivity|]. split; [vm_compute; reflexivity|].
  assert (Hu : uintCV (stxToMicroStx (parseFloat (Upload.price f)))
               = Returns (UIntCV 1500000)) by (vm_compute; reflexivity).
  destruct (wallet_answer_decides_page (Example.browser None) f
              Example.empty_store Example.idle [] (UIntCV 1500000)
              eq_refl Hu) as (_ & _ & Hfinish & _).
  exact (Hfinish "0x5e1f" eq_refl).
Defined.

(** X9. [handleSubmit] reports one error at a time, in the order of its
    checks: the wallet first, then the title, the description, the price and
    the content identifier. *)
Theorem handleSubmit_first_error (B : Browser) (f : Upload.Form)
    (R : Remote) (s : Upload.State) (h : History) :
  let e := Upload.error (page (Upload.handleSubmit B f R s h)) in
  (isSignedIn B = false -> e = Some "Please connect your wallet first.")
  /\ (isSignedIn B = true ->
      (is_empty (trim (Upload.title f)) = true ->
       e = Some "Title is required.")
      /\ (is_empty (trim (Upload.title f)) = false ->
          (is_empty (trim (Upload.description f)) = true ->
           e = Some "Description is required.")
          /\ (is_empty (trim (Upload.description f)) = false ->
              (is_empty (Upload.price f)
               || leb (parseFloat (Upload.price f)) zero = true ->
               e = Some "Price must be greater than 0.")
              /\ (is_empty (Upload.price f)
                  || leb (parseFloat (Upload.price f)) zero = false ->
                  is_empty (trim (Upload.ipfsCid f)) = true ->
                  e = Some "IPFS CID is required. Upload your ebook to IPFS first.")))).
Proof.
  intros e. subst e. rewrite handleSubmit_reset.
  split; [intros ->; reflexivity|]. intros ->. cbn [negb].
  split; [intros ->; reflexivity|]. intros ->.
  split; [intros ->; reflexivity|]. intros ->.
  split; [intros ->; reflexivity|]. intros -> ->. reflexivity.
Qed.

Lemma handleSubmit_first_error_witness :
  let f := Example.form "" "-1" "" in
  isSignedIn (Example.browser None) = true
  /\ is_empty (trim (Upload.title f)) = true
  /\ Upload.error
       (page (Upload.handleSubmit (Example.browser None) f
                Example.empty_store Example.idle []))
     = Some "Title is required."
  /\ Upload.error
       (page (Upload.handleSubmit Example.server f Example.empty_store
                Example.idle []))
     = Some "Please connect your wallet first.".
Proof.
  intros f. split; [reflexivity|]. split; [reflexivity|]. split.
  - exact (proj1 (proj2 (handleSubmit_first_error (Example.browser None) f
                           Example.empty_store Example.idle []) eq_refl)
             eq_refl).
  - exact (proj1 (handleSubmit_first_error Example.server f
                    Example.empty_store Example.idle []) eq_refl).
Defined.

(** ** My Books *)

(** X10. When the page mounts without a [window], nothing happens: no state
    is set, the loading state stays. With a [window] and no signed-in user
    the page leaves the loading state at once. In both cases no request is
    issued. *)
Theorem my_books_mount_without_user (B : Browser) (R : Remote)
    (s : MyBooks.State) (h : History) :
  isSignedIn B = false ->
  let r := MyBooks.useEffect B R s h in
  outcome r = Returns tt
  /\ trace r = h
  /\ MyBooks.publishedEbooks (page r) = MyBooks.publishedEbooks s
  /\ MyBooks.purchasedEbooks (page r) = MyBooks.purchasedEbooks s
  /\ (window_defined B = false -> page r = s)
  /\ (window_defined B = true ->
      MyBooks.isLoading (page r) = false
      /\ MyBooks.walletConnected (page r) = false).
Proof.
  intros Hs r. subst r. unfold MyBooks.useEffect. rewrite Hs.
  destruct (window_defined B); cbn; repeat split; congruence.
Qed.

Lemma my_books_mount_without_user_witness :
  isSignedIn Example.server = false
  /\ MyBooks.useEffect Example.server (Example.store "SP") MyBooks.initial []
     = {| outcome := Returns tt; page := MyBooks.initial; trace := [] |}.
Proof.
  split; [reflexivity|].
  destruct (my_books_mount_without_user Example.server (Example.store "SP")
              MyBooks.initial [] eq_refl) as (Ho & Ht & _ & _ & Hp & _).
  destruct (MyBooks.useEffect Example.server (Example.store "SP")
              MyBooks.initial []) as [o p t].
  cbn [outcome page trace] in *. now rewrite Ho, Ht, (Hp eq_refl).
Defined.

(** X11. For a signed-in user with an address, mounting the page records
    the connection and the address, issues count + 3 read-only requests plus
    one per id of the buyer-indexed list (a record that is both published and
    purchased is fetched twice), issues no transaction request, and ends out
    of the loading state. *)
Theorem my_books_mount_requests (B : Browser) (R : Remote)
    (s : MyBooks.State) (h : History) (address : string) :
  isSignedIn B = true ->
  window_defined B = true ->
  getUserAddress B = Some address ->
  address <> EmptyString ->
  let r := MyBooks.useEffect B R s h in
  let n := count_answer R h in
  let h3 := h ++ [count_request; author_request address]
              ++ map fetch_request (seq 1 n) in
  let bought := ids_answer (get_buyer_ebooks R h3 address) in
  outcome r = Returns tt
  /\ MyBooks.walletConnected (page r) = true
  /\ MyBooks.userAddress (page r) = Some address
  /\ MyBooks.isLoading (page r) = false
  /\ trace r = h3 ++ buyer_request address :: map fetch_request bought
  /\ length (trace r) = (length h + 3 + n + length bought)%nat
  /\ (forall name args, In (ContractCall name args) (trace r) ->
        In (ContractCall name args) h).
Proof.
  intros Hs Hw Ha Hne r n h3 bought. subst r.
  unfold MyBooks.useEffect. rewrite Hw, Hs, Ha.
  erewrite bind_run by reflexivity.
  erewrite bind_run by reflexivity.
  rewrite (loadMyBooks_run R _ h address Hne).
  cbn [outcome page trace MyBooks.walletConnected MyBooks.userAddress
       MyBooks.isLoading].
  assert (E3 : (h ++ [count_request; author_request address])
                 ++ map fetch_request (seq 1 (count_answer R h)) = h3).
  { unfold h3, n. now rewrite <- List.app_assoc. }
  rewrite E3. fold bought.
  split; [reflexivity|]. split; [reflexivity|]. split; [reflexivity|].
  split; [reflexivity|]. split; [reflexivity|]. split.
  - unfold h3. rewrite !length_app, !length_map, length_seq. cbn. lia.
  - intros name args Hin.
    assert (Hmap : forall l,
               ~ In (ContractCall name args) (map fetch_request l)).
    { intros l Hl. apply in_map_iff in Hl as (x & Hx & _). discriminate. }
    apply in_app_or in Hin as [Hin|Hin].
    + unfold h3 in Hin. apply in_app_or in Hin as [Hin|Hin]; [exact Hin|].
      cbn [app In] in Hin.
      destruct Hin as [Hin|[Hin|Hin]]; try discriminate.
      now apply Hmap in Hin.
    + cbn [In] in Hin. destruct Hin as [Hin|Hin]; [discriminate|].
      now apply Hmap in Hin.
Qed.

Lemma my_books_mount_requests_witness :
  let a := "SP2J6ZY48GV1EZ5V2V5RB9MP66SW86PYKKNRV9EJ7" in
  let B := Example.browser None in
  let r := MyBooks.useEffect B (Example.store a) MyBooks.initial [] in
  getUserAddress B = Some a
  /\ length (trace r) = 7%nat
  /\ MyBooks.isLoading (page r) = false.
Proof.
  intros a B r.
  assert (Hne : a <> EmptyString) by discriminate.
  destruct (my_books_mount_requests B (Example.store a) MyBooks.initial [] a
              eq_refl eq_refl eq_refl Hne)
    as (_ & _ & _ & Hload & _ & Hlen & _).
  split; [reflexivity|]. split; [exact Hlen|exact Hload].
Defined.

(** ** Unit conversion, continued *)

Lemma inject_Z_lt_1 (N : Z) : 0 <= N -> (inject_Z N < 1)%Q -> N = 0.
Proof.
  intros H0 H1. change 1%Q with (inject_Z 1) in H1.
  rewrite <- Zlt_Qlt in H1. lia.
Qed.

(** [Math.floor] of a positive number is an integer. *)
Lemma floor_to_integer (m : positive) (e : Z) :
  Zpos m < 2 ^ 53 ->
  exists N : Z,
    0 <= N
    /\ (inject_Z N <= scaled (Zpos m) e < inject_Z N + 1)%Q
    /\ to_integer (floor (S754_finite false m e)) = Some N
    /\ (N = 0 -> e < 0 /\ floor (S754_finite false m e) = S754_zero false).
Proof.
  intros Hm. unfold floor.
  destruct (Z.leb_spec 0 e) as [He|He].
  - exists (Zpos m * 2 ^ e).
    assert (0 < 2 ^ e) by (apply Z.pow_pos_nonneg; lia).
    assert (Hv : (scaled (Zpos m) e == inject_Z (Zpos m * 2 ^ e))%Q).
    { rewrite <- scaled_0, scaled_shift by lia. now rewrite Z.add_0_l. }
    split; [nia|]. split; [rewrite Hv; lra|]. split.
    + unfold to_integer. cbn [cond_Zopp].
      destruct (Z.leb_spec 0 e); [reflexivity|lia].
    + nia.
  - cbn [cond_Zopp].
    set (N := Zpos m / 2 ^ (- e)).
    assert (H2 : 0 < 2 ^ (- e)) by (apply Z.pow_pos_nonneg; lia).
    assert (HN0 : 0 <= N) by (apply Z.div_pos; lia).
    assert (HNm : N * 2 ^ (- e) <= Zpos m < (N + 1) * 2 ^ (- e)).
    { pose proof (Z.div_mod (Zpos m) (2 ^ (- e))) as Hdm.
      pose proof (Z.mod_pos_bound (Zpos m) (2 ^ (- e)) H2) as Hmod.
      fold N in Hdm. lia. }
    assert (Hlo : (inject_Z N <= scaled (Zpos m) e)%Q).
    { rewrite <- scaled_0. replace 0 with (e + - e) at 1 by lia.
      rewrite <- scaled_shift by lia. apply scaled_le. lia. }
    assert (Hhi : (scaled (Zpos m) e < inject_Z N + 1)%Q).
    { change 1%Q with (inject_Z 1). rewrite <- inject_Z_plus, <- scaled_0.
      replace 0 with (e + - e) at 1 by lia.
      rewrite <- scaled_shift by lia. apply scaled_lt. lia. }
    exists N. split; [exact HN0|]. split; [split; assumption|].
    destruct (Z.eq_dec N 0) as [E0|Hn0].
    + rewrite E0. split; [reflexivity|]. intros _. split; [lia|reflexivity].
    + split; [|lia].
      assert (HN53 : N < 2 ^ 53).
      { assert (N <= Zpos m); [|lia]. nia. }
      destruct (binary_normalize_exact N ltac:(lia))
        as (mN & eN & -> & HmN & HeN & Hval).
      unfold to_integer. cbn [cond_Zopp].
      assert (H2N : 0 < 2 ^ (- eN)) by (apply Z.pow_pos_nonneg; lia).
      destruct (Z.leb_spec 0 eN).
      * replace eN with 0 in * by lia. rewrite Z.pow_0_r in *. f_equal. lia.
      * rewrite Hval, Z.mod_mul, Z.eqb_refl, Z.div_mul by lia. reflexivity.
Qed.

(** X12. For every positive finite x of at most [2 ^ 1000],
    [stxToMicroStx x] is a non-negative integer N: never NaN, an infinity or
    a fraction. N is the integer part of x * 1_000_000 up to the rounding of
    the product. *)
Theorem stxToMicroStx_is_an_integer (m : positive) (e : Z) :
  let x := S754_finite false m e in
  (value x <= 2 ^ 1000)%Q ->
  exists N : Z,
    0 <= N
    /\ to_integer (stxToMicroStx x) = Some N
    /\ (inject_Z N * (1 - (1 # 4503599627370496)) <= value x * 1000000)%Q
    /\ (value x * 1000000
        < (inject_Z N + 1) * (1 + (1 # 4503599627370496)))%Q.
Proof.
  intros x Hx. change (value x) with (scaled (Zpos m) e) in *.
  pose proof (scaled_pos (Zpos m) e ltac:(lia)) as HX.
  set (X := scaled (Zpos m) e) in *.
  unfold stxToMicroStx. subst x. rewrite MICRO_eq.
  assert (Hmul := mul_faithful m e 8589934592000000 (-33) (X * 1000000)
                    ltac:(lia)).
  specialize (Hmul ltac:(now rewrite MICRO_value)).
  destruct (mul (S754_finite false m e)
              (S754_finite false 8589934592000000 (-33)))
    as [sP|sP| |sP mP eP].
  - destruct Hmul as [-> HT]. exists 0.
    assert (H1 : (2 ^ (-1074) <= 2 ^ 0)%Q) by (apply pow2_le; lia).
    change (2 ^ 0)%Q with 1%Q in H1.
    assert (HT1 : (X * 1000000 < 1)%Q)
      by (eapply Qlt_le_trans; [exact HT|exact H1]).
    split; [lia|]. split; [reflexivity|].
    change (inject_Z 0) with 0%Q. split; lra.
  - exfalso.
    assert (H1 : (2 ^ 1023 == 2 ^ 1000 * 8388608)%Q).
    { change 1023 with (1000 + 23). rewrite pow2_add. reflexivity. }
    pose proof (pow2_pos 1000). lra.
  - contradiction.
  - destruct Hmul as (-> & HmP & HeP & HbP & HnP).
    destruct (floor_to_integer mP eP HmP) as (N & HN0 & [HNlo HNhi] & HN & _).
    exists N. split; [exact HN0|]. split; [exact HN|].
    assert (HNq : (0 <= inject_Z N)%Q).
    { change 0%Q with (inject_Z 0). now rewrite <- Zle_Qle. }
    pose proof (pow2_pos eP) as HpP.
    set (vP := scaled (Zpos mP) eP) in *. set (Nq := inject_Z N) in *.
    set (pe := (2 ^ eP)%Q) in *.
    destruct HnP as [Hn|[Hs|Hex]].
    + assert (H52 : (scaled (2 ^ 52) eP <= vP)%Q) by now apply scaled_le.
      unfold scaled at 1 in H52.
      change (inject_Z (2 ^ 52)) with 4503599627370496%Q in H52.
      fold pe in H52. clearbody vP Nq pe X. split; lra.
    + assert (H1 : (vP < scaled (2 ^ 53) eP)%Q) by now apply scaled_lt.
      rewrite scaled_pow2 in H1 by lia.
      assert (H2 : (2 ^ (eP + 53) <= 2 ^ (-1))%Q) by (apply pow2_le; lia).
      assert (H3 : (pe <= 2 ^ (-1))%Q) by (apply pow2_le; lia).
      assert (H4 : (2 ^ (-1) == 1 # 2)%Q) by reflexivity.
      set (b := (2 ^ (eP + 53))%Q) in *. set (c := (2 ^ (-1))%Q) in *.
      assert (N = 0).
      { apply inject_Z_lt_1; [exact HN0|]. fold Nq.
        clearbody vP Nq pe X b c. lra. }
      subst N. subst Nq. change (inject_Z 0) with 0%Q in *.
      clearbody vP pe X b c. split; lra.
    + clearbody vP Nq pe X. split; lra.
Qed.

Lemma stxToMicroStx_is_an_integer_witness :
  (value (S754_finite false 4518299376554233 (-60)) <= 2 ^ 1000)%Q
  /\ exists N : Z,
       to_integer (stxToMicroStx (S754_finite false 4518299376554233 (-60)))
       = Some N.
Proof.
  assert (Hx : (value (S754_finite false 4518299376554233 (-60)) <= 2 ^ 1000)%Q)
    by (vm_compute; discriminate).
  split; [exact Hx|].
  destruct (stxToMicroStx_is_an_integer 4518299376554233 (-60) Hx)
    as (N & _ & HN & _).
  exists N. exact HN.
Defined.

(** X13. [stxToMicroStx] gives +0 for every positive amount of at most
    0.0000009999999 STX: an amount below one smallest unit converts to no
    unit at all. *)
Theorem stxToMicroStx_below_one_micro (m : positive) (e : Z) :
  let x := S754_finite false m e in
  (value x <= 9999999 # 10000000000000)%Q ->
  stxToMicroStx x = S754_zero false.
Proof.
  intros x Hx. subst x. change (value (S754_finite false m e))
    with (scaled (Zpos m) e) in Hx.
  pose proof (scaled_pos (Zpos m) e ltac:(lia)) as HX.
  set (X := scaled (Zpos m) e) in *.
  unfold stxToMicroStx. rewrite MICRO_eq.
  assert (Hmul := mul_faithful m e 8589934592000000 (-33) (X * 1000000)
                    ltac:(lia)).
  specialize (Hmul ltac:(now rewrite MICRO_value)).
  destruct (mul (S754_finite false m e)
              (S754_finite false 8589934592000000 (-33)))
    as [sP|sP| |sP mP eP].
  - destruct Hmul as [-> _]. reflexivity.
  - exfalso. assert (H1 : (2 ^ 0 <= 2 ^ 1023)%Q) by (apply pow2_le; lia).
    change (2 ^ 0)%Q with 1%Q in H1.
    set (b := (2 ^ 1023)%Q) in *. clearbody X b. lra.
  - contradiction.
  - destruct Hmul as (-> & HmP & HeP & HbP & HnP).
    destruct (floor_to_integer mP eP HmP)
      as (N & HN0 & [HNlo HNhi] & _ & Hzero).
    apply Hzero.
    destruct (Z.eq_dec N 0) as [|Hn]; [easy|exfalso].
    assert (HN1 : (1 <= inject_Z N)%Q).
    { change 1%Q with (inject_Z 1). rewrite <- Zle_Qle. lia. }
    pose proof (pow2_pos eP) as HpP.
    set (vP := scaled (Zpos mP) eP) in *. set (Nq := inject_Z N) in *.
    set (pe := (2 ^ eP)%Q) in *.
    destruct HnP as [H52|[Hs|Hex]].
    + assert (H : (scaled (2 ^ 52) eP <= vP)%Q) by now apply scaled_le.
      unfold scaled at 1 in H.
      change (inject_Z (2 ^ 52)) with 4503599627370496%Q in H.
      fold pe in H. clearbody vP Nq pe X. lra.
    + assert (H1 : (vP < scaled (2 ^ 53) eP)%Q) by now apply scaled_lt.
      rewrite scaled_pow2 in H1 by lia.
      assert (H2 : (2 ^ (eP + 53) <= 2 ^ 0)%Q) by (apply pow2_le; lia).
      change (2 ^ 0)%Q with 1%Q in H2.
      set (b := (2 ^ (eP + 53))%Q) in *. clearbody vP Nq pe X b. lra.
    + clearbody vP Nq pe X. lra.
Qed.

Lemma stxToMicroStx_below_one_micro_witness :
  parseFloat "0.0000001" = S754_finite false 7555786372591432 (-76)
  /\ (value (S754_finite false 7555786372591432 (-76))
      <= 9999999 # 10000000000000)%Q
  /\ stxToMicroStx (parseFloat "0.0000001") = S754_zero false.
Proof.
  assert (Hp : parseFloat "0.0000001"
               = S754_finite false 7555786372591432 (-76))
    by (vm_compute; reflexivity).
  assert (Hv : (value (S754_finite false 7555786372591432 (-76))
                <= 9999999 # 10000000000000)%Q)
    by (vm_compute; discriminate).
  split; [exact Hp|]. split; [exact Hv|]. rewrite Hp.
  exact (stxToMicroStx_below_one_micro 7555786372591432 (-76) Hv).
Defined.

(** ** The numbers of the price field *)

Lemma Zdigits2_mul_pow2 (m k : Z) :
  0 < m -> 0 <= k -> Zdigits2 (m * 2 ^ k) = Zdigits2 m + k.
Proof.
  intros Hm Hk. pose proof (Zdigits2_bounds m Hm) as [Hlo Hhi].
  assert (H2k : 0 < 2 ^ k) by (apply Z.pow_pos_nonneg; lia).
  assert (H1 : 1 <= Zdigits2 m)
    by (apply Zdigits2_ge; [change (2 ^ (1 - 1)) with 1|]; lia).
  apply Z.le_antisymm.
  - apply Zdigits2_le; [lia|]. rewrite Z.pow_add_r by lia.
    apply Z.mul_lt_mono_pos_r; lia.
  - apply Zdigits2_ge; [|lia].
    replace (Zdigits2 m + k - 1) with (Zdigits2 m - 1 + k) by lia.
    rewrite Z.pow_add_r by lia. apply Z.mul_le_mono_nonneg_r; lia.
Qed.

(** The finite binary64 numbers: a mantissa below [2 ^ 53] that is at least
    [2 ^ 52] unless the exponent is the smallest one. *)
Lemma bounded_iff (m : positive) (e : Z) :
  bounded prec emax m e = true <->
  Zpos m < 2 ^ 53 /\ -1074 <= e <= 971 /\ (2 ^ 52 <= Zpos m \/ e = -1074).
Proof.
  unfold bounded, canonical_mantissa, fexp, emin, prec, emax.
  rewrite andb_true_iff, Z.eqb_eq, Z.leb_le.
  pose proof (digits2_pos_bounds m) as [Hlo Hhi].
  set (d := Zpos (digits2_pos m)) in *.
  assert (Hd : 1 <= d) by (unfold d; lia).
  split.
  - intros [Hc He].
    assert (Hd53 : d <= 53) by lia.
    assert (H53 : 2 ^ d <= 2 ^ 53) by (apply Z.pow_le_mono_r; lia).
    split; [lia|]. split; [lia|].
    destruct (Z.eq_dec e (-1074)) as [|Hn]; [now right|left].
    replace d with 53 in Hlo by lia. exact Hlo.
  - intros (H53 & He & Hn).
    assert (Hd53 : d <= 53).
    { destruct (Z.le_gt_cases d 53) as [|Hgt]; [easy|exfalso].
      assert (2 ^ 53 <= 2 ^ (d - 1)) by (apply Z.pow_le_mono_r; lia). lia. }
    split; [|lia].
    destruct Hn as [H52|Hmin]; [|lia].
    assert (d = 53); [|lia].
    destruct (Z.eq_dec d 53) as [|Hne]; [easy|exfalso].
    assert (2 ^ d <= 2 ^ 52) by (apply Z.pow_le_mono_r; lia). lia.
Qed.

(** Rounding gives a binary64 number when the mantissa has 53 bits or more,
    or sits at the smallest exponent or below. *)
Lemma binary_round_aux_well_formed (s : bool) (mx ex : Z) (lx : location) :
  0 <= mx ->
  53 <= Zdigits2 mx \/ ex <= -1074 ->
  well_formed (binary_round_aux prec emax s mx ex lx) = true.
Proof.
  intros Hmx HC.
  pose proof (binary_round_aux_spec s mx ex lx Hmx) as Hspec.
  pose proof (Zdigits2_nonneg mx) as Hd.
  set (d := Zdigits2 mx) in *.
  set (e' := round_exponent d ex) in *.
  set (m' := mx / 2 ^ (e' - ex)) in *.
  cbv zeta in Hspec. destruct Hspec as (Hm' & m1 & Hm1 & _ & ->).
  assert (He' : -1074 <= e') by (unfold e', round_exponent; lia).
  assert (Hm'0 : 0 <= m').
  { apply Z.div_pos; [lia|]. apply Z.pow_pos_nonneg; [lia|].
    unfold e', round_exponent. lia. }
  unfold well_formed.
  destruct (Z.eqb_spec m1 0); [reflexivity|].
  destruct (Z.eqb_spec m1 (2 ^ 53)).
  - destruct (Z.leb_spec (e' + 1) 971); [|reflexivity].
    cbn [valid_binary]. apply bounded_iff.
    change (Zpos (Z.to_pos (2 ^ 52))) with (2 ^ 52). lia.
  - destruct (Z.leb_spec e' 971); [|reflexivity].
    cbn [valid_binary]. apply bounded_iff.
    rewrite Z2Pos.id by lia.
    split; [lia|]. split; [lia|].
    destruct (Z.eq_dec e' (-1074)) as [|Hn]; [now right|left].
    assert (Hk : e' - ex = d - 53 /\ 53 <= d)
      by (unfold e', round_exponent in *; lia).
    destruct Hk as [Hk Hd53].
    assert (Hpos : 0 < mx).
    { destruct (Z.eq_dec mx 0) as [E|]; [|lia].
      unfold d in Hd53. rewrite E in Hd53. cbn in Hd53. lia. }
    pose proof (Zdigits2_bounds mx Hpos) as [Hlo _]. fold d in Hlo.
    assert (2 ^ 52 <= m'); [|lia].
    unfold m'. rewrite Hk.
    apply Z.div_le_lower_bound; [apply Z.pow_pos_nonneg; lia|].
    rewrite Z.mul_comm, <- Z.pow_add_r by lia.
    replace (52 + (d - 53)) with (d - 1) by lia. exact Hlo.
Qed.

Lemma binary_round_well_formed (s : bool) (mx : positive) (ex : Z) :
  well_formed (binary_round prec emax s mx ex) = true.
Proof.
  unfold binary_round.
  pose proof (digits2_pos_bounds mx) as [Hdlo Hdhi].
  set (dn := Zpos (digits2_pos mx)) in *.
  assert (Hdn : 1 <= dn) by (unfold dn; lia).
  pose proof (shl_align_spec mx ex (fexp prec emax (dn + ex))) as [Hez Hmz].
  destruct (shl_align mx ex (fexp prec emax (dn + ex))) as [mz ez].
  cbn [fst snd] in Hez, Hmz.
  apply binary_round_aux_well_formed; [lia|].
  rewrite Hmz, Zdigits2_mul_pow2 by lia.
  change (Zdigits2 (Zpos mx)) with dn.
  subst ez. unfold fexp, emin, prec, emax in *. lia.
Qed.

Lemma binary_normalize_well_formed (m e : Z) (szero : bool) :
  well_formed (binary_normalize prec emax m e szero) = true.
Proof.
  destruct m; cbn [binary_normalize];
    [reflexivity|apply binary_round_well_formed..].
Qed.

(** The quotient that [SFdiv] hands to the rounding, whatever its size. *)
Lemma SFdiv_core_binary_digits (m1 e1 m2 e2 : Z) :
  0 < m1 -> 0 < m2 ->
  let '(q, e', l) := SFdiv_core_binary prec emax m1 e1 m2 e2 in
  0 <= q /\ (53 <= Zdigits2 q \/ e' <= -1074).
Proof.
  intros H1 H2.
  destruct (Z.le_gt_cases (-1074)
              (Zdigits2 m1 + e1 - (Zdigits2 m2 + e2) - 53)) as [Hn|Hs].
  - pose proof (SFdiv_core_binary_spec m1 e1 m2 e2 H1 H2 Hn) as H.
    destruct (SFdiv_core_binary prec emax m1 e1 m2 e2) as [[q e'] l].
    cbv zeta in H. destruct H as (Hq & Hd & _). split; [lia|now left].
  - unfold SFdiv_core_binary.
    set (d1 := Zdigits2 m1) in *. set (d2 := Zdigits2 m2) in *.
    set (e' := Z.min (fexp prec emax (d1 + e1 - (d2 + e2))) (e1 - e2)).
    set (s := e1 - e2 - e').
    assert (Hs0 : 0 <= s) by (unfold s, e'; lia).
    set (m' := match s with
               | 0 => m1
               | Zpos _ => Z.shiftl m1 s
               | Zneg _ => 0
               end).
    assert (Hm' : m' = m1 * 2 ^ s) by (apply shift_match; lia).
    clearbody m'.
    destruct (Z.div_eucl m' m2) as [q r] eqn:Eq.
    assert (Hq : q = m' / m2) by (unfold Z.div; now rewrite Eq).
    split.
    + rewrite Hq. apply Z.div_pos; [|lia]. rewrite Hm'.
      apply Z.mul_nonneg_nonneg; [lia|]. apply Z.pow_nonneg. lia.
    + right. unfold e', fexp, emin, prec, emax. lia.
Qed.

Lemma of_ratio_well_formed (s : bool) (n d : positive) :
  well_formed (of_ratio s n d) = true.
Proof.
  unfold of_ratio. cbn [SFdiv].
  pose proof (SFdiv_core_binary_digits (Zpos n) 0 (Zpos d) 0
                ltac:(lia) ltac:(lia)) as H.
  destruct (SFdiv_core_binary prec emax (Zpos n) 0 (Zpos d) 0) as [[q e'] l].
  destruct H as [Hq HC]. now apply binary_round_aux_well_formed.
Qed.

(** [parseFloat] returns a binary64 number. *)
Lemma parseFloat_well_formed (s : string) : well_formed (parseFloat s) = true.
Proof.
  unfold parseFloat.
  destruct (read_StrDecimalLiteral _) as [[l rest]|]; [|reflexivity].
  destruct l as [sg|sg n ex]; cbn [literal_value]; [reflexivity|].
  destruct n as [|p|p]; try reflexivity.
  destruct (0 <=? ex).
  - apply binary_normalize_well_formed.
  - apply of_ratio_well_formed.
Qed.

(** The number of the [min] attribute: the binary64 value nearest to
    0.000001, which is a little below it. *)
Lemma price_min_number :
  parseFloat Upload.price_min = S754_finite false 4722366482869645 (-72).
Proof. vm_compute. reflexivity. Qed.

Lemma scaled_exp_le (m e1 e2 : Z) :
  0 <= m -> e1 <= e2 -> (scaled m e1 <= scaled m e2)%Q.
Proof.
  intros Hm He. unfold scaled.
  rewrite (Qmult_comm (inject_Z m) (2 ^ e1)), (Qmult_comm (inject_Z m) (2 ^ e2)).
  apply Qmult_le_compat_r.
  - apply pow2_le. exact He.
  - change 0%Q with (inject_Z 0). now rewrite <- Zle_Qle.
Qed.

(** A number that is not below the one of [min] is [Infinity], that number,
    or at least the next binary64 number. *)
Lemma price_in_range_cases (x : number) :
  well_formed x = true ->
  leb (parseFloat Upload.price_min) x = true ->
  x = Infinity
  \/ x = parseFloat Upload.price_min
  \/ exists m e,
       x = S754_finite false m e
       /\ (scaled 4722366482869646 (-72) <= scaled (Zpos m) e)%Q.
Proof.
  rewrite price_min_number. unfold well_formed, leb, SFleb.
  destruct x as [s|s| |s m e]; cbn [valid_binary SFcompare].
  - discriminate.
  - destruct s; [discriminate|]. now left.
  - discriminate.
  - intros Hb Hle. apply bounded_iff in Hb as (H53 & He & Hn).
    destruct s; [discriminate|]. right.
    destruct (Z.compare_spec (-72) e) as [<-|Hlt|Hgt]; [| |discriminate].
    + change (Pos.compare_cont Eq 4722366482869645 m)
        with (Pos.compare 4722366482869645 m) in Hle.
      destruct (Pos.compare_spec 4722366482869645 m) as [<-|Hm|Hm];
        [now left| |discriminate].
      right. exists m, (-72). split; [reflexivity|]. apply scaled_le. lia.
    + right. exists m, e. split; [reflexivity|].
      destruct Hn as [H52|Hmin]; [|lia].
      apply Qle_trans with (scaled (2 ^ 52) (-71)).
      * replace (-71) with (-72 + 1) by lia. rewrite <- scaled_shift by lia.
        apply scaled_le. lia.
      * apply Qle_trans with (scaled (2 ^ 52) e).
        -- apply scaled_exp_le; lia.
        -- now apply scaled_le.
Qed.

(** From the binary64 number above the one of [min] on, the amount in the
    smallest unit is at least 1. *)
Lemma stxToMicroStx_from_one_micro (m : positive) (e : Z) (N : Z) :
  (scaled 4722366482869646 (-72) <= scaled (Zpos m) e)%Q ->
  to_integer (stxToMicroStx (S754_finite false m e)) = Some N ->
  1 <= N.
Proof.
  intros Hx.
  assert (Hc : (scaled 4722366482869646 (-72)
                == 4722366482869646 # 4722366482869645213696)%Q)
    by reflexivity.
  rewrite Hc in Hx. clear Hc.
  set (X := scaled (Zpos m) e) in *.
  unfold stxToMicroStx. rewrite MICRO_eq.
  assert (Hmul := mul_faithful m e 8589934592000000 (-33) (X * 1000000)
                    ltac:(lia)).
  specialize (Hmul ltac:(now rewrite MICRO_value)).
  destruct (mul (S754_finite false m e)
              (S754_finite false 8589934592000000 (-33)))
    as [sP|sP| |sP mP eP].
  - exfalso. destruct Hmul as [_ HT].
    assert (H1 : (2 ^ (-1074) <= 2 ^ 0)%Q) by (apply pow2_le; lia).
    change (2 ^ 0)%Q with 1%Q in H1.
    set (a := (2 ^ (-1074))%Q) in *. clearbody X a. lra.
  - discriminate.
  - contradiction.
  - destruct Hmul as (-> & HmP & HeP & HbP & HnP).
    destruct (floor_to_integer mP eP HmP) as (N0 & HN0 & [HNlo HNhi] & -> & _).
    intros [= <-].
    destruct (Z.le_gt_cases 1 N0) as [|Hlt]; [easy|exfalso].
    assert (N0 = 0) by lia. subst N0. change (inject_Z 0) with 0%Q in *.
    pose proof (pow2_pos eP) as HpP.
    set (vP := scaled (Zpos mP) eP) in *. set (pe := (2 ^ eP)%Q) in *.
    destruct HnP as [H52|[Hs|Hex]].
    + assert (H : (scaled (2 ^ 52) eP <= vP)%Q) by now apply scaled_le.
      rewrite scaled_pow2 in H by lia.
      destruct (Z.le_gt_cases (-52) eP) as [Hge|Hsmall].
      * assert (H1 : (2 ^ 0 <= 2 ^ (eP + 52))%Q) by (apply pow2_le; lia).
        change (2 ^ 0)%Q with 1%Q in H1.
        set (b := (2 ^ (eP + 52))%Q) in *. clearbody vP pe X b. lra.
      * assert (H1 : (pe <= 2 ^ (-53))%Q) by (apply pow2_le; lia).
        assert (H2 : (2 ^ (-53) == 1 # 9007199254740992)%Q) by reflexivity.
        set (c := (2 ^ (-53))%Q) in *. clearbody vP pe X c. lra.
    + assert (H1 : (vP < scaled (2 ^ 53) eP)%Q) by now apply scaled_lt.
      rewrite scaled_pow2 in H1 by lia.
      assert (H2 : (2 ^ (eP + 53) <= 2 ^ (-1))%Q) by (apply pow2_le; lia).
      assert (H3 : (pe <= 2 ^ (-1))%Q) by (apply pow2_le; lia).
      assert (H4 : (2 ^ (-1) == 1 # 2)%Q) by reflexivity.
      set (b := (2 ^ (eP + 53))%Q) in *. set (c := (2 ^ (-1))%Q) in *.
      clearbody vP pe X b c. lra.
    + clearbody vP pe X. lra.
Qed.

(** A price in range gives at least one smallest unit. *)
Lemma price_in_range_micro (price : string) (N : Z) :
  Upload.price_in_range price = true ->
  to_integer (stxToMicroStx (parseFloat price)) = Some N ->
  1 <= N.
Proof.
  unfold Upload.price_in_range. intros Hr.
  destruct (price_in_range_cases _ (parseFloat_well_formed price) Hr)
    as [->|[->|(m & e & -> & Hx)]].
  - discriminate.
  - rewrite price_min_number. vm_compute. intros [= <-]. discriminate.
  - now apply stxToMicroStx_from_one_micro.
Qed.

(** C2. The publish form, submitted through the constraint validation of the
    browser: when the form is valid, [handleSubmit] accepts it and [uintCV]
    takes the amount, the one request issued is the [register-ebook]
    transaction, and its price argument, the integer part of
    [parseFloat price * 1_000_000] as the code computes it, is at least 1;
    in every other case no request is issued. *)
Theorem submitted_price_is_positive (B : Browser) (f : Upload.Form)
    (R : Remote) (s : Upload.State) (h : History) :
  let r := Upload.onSubmit B f R s h in
  let price := stxToMicroStx (parseFloat (Upload.price f)) in
  let request p :=
    ContractCall "register-ebook"
      [StringUtf8CV (Upload.title f); StringUtf8CV (Upload.description f);
       BufferCV (SHA256.digest (TextEncoder_encode (Upload.ipfsCid f)));
       UIntCV p] in
  (forall p,
     Upload.checkValidity f = true ->
     accepted B f = true ->
     to_integer price = Some p ->
     p <= MAX_U128 ->
     0 < p /\ trace r = h ++ [request p])
  /\ (trace r = h
      \/ exists p,
           0 < p <= MAX_U128
           /\ Upload.checkValidity f = true
           /\ accepted B f = true
           /\ to_integer price = Some p
           /\ trace r = h ++ [request p]).
Proof.
  intros r price request.
  assert (Hpos : forall p,
             Upload.checkValidity f = true -> accepted B f = true ->
             to_integer price = Some p -> 1 <= p).
  { intros p Hv Ha Hp. apply (price_in_range_micro (Upload.price f)); [|exact Hp].
    unfold Upload.checkValidity in Hv. unfold accepted in Ha.
    destruct (is_empty (Upload.price f)); [|exact Hv].
    cbn [orb negb] in Ha. rewrite !andb_false_r in Ha. discriminate. }
  assert (Htr : forall p,
             Upload.checkValidity f = true -> accepted B f = true ->
             to_integer price = Some p -> 0 <= p <= MAX_U128 ->
             trace r = h ++ [request p]).
  { intros p Hv Ha Hp Hb. subst r. unfold Upload.onSubmit. rewrite Hv.
    rewrite handleSubmit_trace, Ha. fold price. unfold uintCV. rewrite Hp.
    destruct (Z.leb_spec 0 p); [|lia].
    destruct (Z.leb_spec p MAX_U128); [|lia]. reflexivity. }
  split.
  - intros p Hv Ha Hp Hmax. specialize (Hpos p Hv Ha Hp).
    split; [lia|]. apply Htr; auto. lia.
  - destruct (Upload.checkValidity f) eqn:Hv.
    2:{ left. subst r. unfold Upload.onSubmit. now rewrite Hv. }
    destruct (accepted B f) eqn:Ha.
    2:{ left. subst r. unfold Upload.onSubmit. rewrite Hv.
        now rewrite handleSubmit_trace, Ha. }
    destruct (uintCV price) as [|cv] eqn:Ecv.
    { left. subst r. unfold Upload.onSubmit. rewrite Hv.
      rewrite handleSubmit_trace, Ha. fold price. now rewrite Ecv. }
    apply uintCV_Returns in Ecv as (p & -> & Hb & Hp).
    right. exists p. specialize (Hpos p eq_refl eq_refl Hp).
    split; [lia|]. repeat split; auto.
Qed.

Lemma submitted_price_is_positive_witness :
  let f := Example.form "Dune" "0.000001"
             "QmYwAPJzv5CZsnA625s3Xf2nemtYgPpHdWEz79ojWnPbdG" in
  Upload.checkValidity f = true
  /\ accepted (Example.browser None) f = true
  /\ to_integer (stxToMicroStx (parseFloat (Upload.price f))) = Some 1
  /\ trace (Upload.onSubmit (Example.browser None) f Example.empty_store
              Example.idle []) =
     [ContractCall "register-ebook"
        [StringUtf8CV "Dune"; StringUtf8CV "A novel";
         BufferCV (SHA256.digest
                     (TextEncoder_encode
                        "QmYwAPJzv5CZsnA625s3Xf2nemtYgPpHdWEz79ojWnPbdG"));
         UIntCV 1]].
Proof.
  intros f.
  assert (Hv : Upload.checkValidity f = true) by (vm_compute; reflexivity).
  assert (Ha : accepted (Example.browser None) f = true)
    by (vm_compute; reflexivity).
  assert (Hp : to_integer (stxToMicroStx (parseFloat (Upload.price f)))
               = Some 1) by (vm_compute; reflexivity).
  assert (Hm : 1 <= MAX_U128) by (vm_compute; discriminate).
  split; [exact Hv|]. split; [exact Ha|]. split; [exact Hp|].
  exact (proj2 (proj1 (submitted_price_is_positive (Example.browser None) f
                         Example.empty_store Example.idle [])
                  1 Hv Ha Hp Hm)).
Defined.

(** ** Display of amounts *)

Lemma Qfloor_unique (q : Q) (n : Z) :
  (inject_Z n <= q)%Q -> (q < inject_Z n + 1)%Q -> Qfloor q = n.
Proof.
  intros Hlo Hhi.
  pose proof (Qfloor_le q) as H1. pose proof (Qlt_floor q) as H2.
  assert (n < Qfloor q + 1).
  { rewrite Zlt_Qlt. eapply Qle_lt_trans; [exact Hlo|exact H2]. }
  assert (Qfloor q < n + 1).
  { rewrite Zlt_Qlt, inject_Z_plus.
    eapply Qle_lt_trans; [exact H1|exact Hhi]. }
  lia.
Qed.

(** The number that [microStxToStx] gives for an integer amount. *)
Lemma microStxToStx_of_Z (n : Z) :
  0 < n < 2 ^ 53 ->
  exists (m : positive) (e : Z) (err : Q),
    microStxToStx (of_Z n) = S754_finite false m e
    /\ (0 <= err)%Q
    /\ (err * 4503599627370496 <= scaled (Zpos m) e)%Q
    /\ (scaled (Zpos m) e - err <= inject_Z n * (1 # 1000000)
        <= scaled (Zpos m) e + err)%Q.
Proof.
  intros Hn. unfold microStxToStx, of_Z. rewrite MICRO_eq.
  destruct (binary_normalize_exact n Hn) as (mN & eN & -> & HmN & HeN & Hval).
  assert (HvN : (scaled (Zpos mN) eN == inject_Z n)%Q).
  { rewrite Hval, scaled_shift by lia.
    replace (eN + - eN) with 0 by lia. apply scaled_0. }
  assert (Hd : Zdigits2 (Zpos mN) = 53).
  { apply Z.le_antisymm.
    - apply Zdigits2_le; lia.
    - apply Zdigits2_ge; [change (53 - 1) with 52|]; lia. }
  assert (Hrange : -1074 <= Zdigits2 (Zpos mN) + eN
                            - (Zdigits2 8589934592000000 + -33) - 53).
  { rewrite Hd. change (Zdigits2 8589934592000000) with 53. lia. }
  assert (Hdiv := div_faithful mN eN 8589934592000000 (-33)
                    (inject_Z n * (1 # 1000000)) Hrange).
  specialize (Hdiv ltac:(rewrite HvN, MICRO_value; reflexivity)).
  assert (Hn1 : (1 <= inject_Z n)%Q).
  { change 1%Q with (inject_Z 1). rewrite <- Zle_Qle. lia. }
  assert (Hn53 : (inject_Z n < 9007199254740992)%Q).
  { change 9007199254740992%Q with (inject_Z (2 ^ 53)).
    rewrite <- Zlt_Qlt. lia. }
  set (Nq := inject_Z n) in *.
  destruct (div (S754_finite false mN eN)
              (S754_finite false 8589934592000000 (-33)))
    as [sB|sB| |sB mB eB].
  - exfalso.
    assert (H2 : (2 ^ (-1074) <= 2 ^ (-20))%Q) by (apply pow2_le; lia).
    assert (H3 : (2 ^ (-20) == 1 # 1048576)%Q) by reflexivity.
    set (a := (2 ^ (-1074))%Q) in *. set (b := (2 ^ (-20))%Q) in *.
    clearbody Nq a b. lra.
  - exfalso.
    assert (H2 : (2 ^ 53 <= 2 ^ 1023)%Q) by (apply pow2_le; lia).
    assert (H3 : (2 ^ 53 == 9007199254740992)%Q) by reflexivity.
    set (a := (2 ^ 1023)%Q) in *. set (b := (2 ^ 53)%Q) in *.
    clearbody Nq a b. lra.
  - contradiction.
  - destruct Hdiv as (-> & HmB & HeB & HbB & HnB).
    destruct (relative_error mB eB (Nq * (1 # 1000000)) HmB HbB HnB
                ltac:(left; clearbody Nq; lra))
      as (err & Herr0 & Herr & Herrb).
    exists mB, eB, err. auto.
Qed.

(** X14. For every amount of n smallest units below [2 ^ 51], [formatStx]
    shows exactly n: the digits of n with the decimal point before the last
    six, whatever the division rounds. *)
Theorem formatStx_shows_the_exact_amount (n : Z) :
  0 <= n < 2 ^ 51 ->
  formatStx (of_Z n) = Some (fixed_digits 6 n ++ " STX")%string.
Proof.
  intros Hn. destruct (Z.eq_dec n 0) as [->|Hn0]; [reflexivity|].
  destruct (microStxToStx_of_Z n ltac:(lia))
    as (m & e & err & Hback & Herr0 & Herr & [Hlo Hhi]).
  unfold formatStx. rewrite Hback. unfold toFixed.
  pose proof (scaled_pos (Zpos m) e ltac:(lia)) as Hv.
  assert (Hn51 : (inject_Z n <= 2251799813685247)%Q).
  { change 2251799813685247%Q with (inject_Z (2 ^ 51 - 1)).
    rewrite <- Zle_Qle. lia. }
  assert (Hn1 : (1 <= inject_Z n)%Q).
  { change 1%Q with (inject_Z 1). rewrite <- Zle_Qle. lia. }
  set (v := scaled (Zpos m) e) in *. set (Nq := inject_Z n) in *.
  assert (Hsmall : Qle_bool (inject_Z (10 ^ 21)) v = false).
  { destruct (Qle_bool (inject_Z (10 ^ 21)) v) eqn:E; [|reflexivity].
    apply Qle_bool_iff in E.
    change (inject_Z (10 ^ 21)) with 1000000000000000000000%Q in E.
    exfalso. clearbody v Nq. lra. }
  rewrite Hsmall. cbn [option_map]. f_equal. f_equal.
  change (String.append EmptyString ?x) with x. f_equal.
  unfold nearest_multiple. apply Qfloor_unique.
  - change (inject_Z (10 ^ Z.of_nat 6)) with 1000000%Q. fold Nq.
    clearbody v Nq. lra.
  - change (inject_Z (10 ^ Z.of_nat 6)) with 1000000%Q. fold Nq.
    clearbody v Nq. lra.
Qed.

Lemma formatStx_shows_the_exact_amount_witness :
  0 <= 1500000 < 2 ^ 51
  /\ formatStx (of_Z 1500000) = Some "1.500000 STX".
Proof.
  assert (H : 0 <= 1500000 < 2 ^ 51) by (split; [discriminate|reflexivity]).
  split; [exact H|].
  exact (formatStx_shows_the_exact_amount 1500000 H).
Defined.

(** ** Strings and bytes *)

Lemma string_length_append (s1 s2 : string) :
  String.length (s1 ++ s2)%string
  = (String.length s1 + String.length s2)%nat.
Proof.
  induction s1 as [|c s1 IH]; [reflexivity|].
  change (String c s1 ++ s2)%string with (String c (s1 ++ s2)%string).
  cbn [String.length]. now rewrite IH.
Qed.

Lemma string_length_substring (n m : nat) (s : string) :
  String.length (substring n m s) = Nat.min m (String.length s - n).
Proof.
  revert n m. induction s as [|c s IH]; intros n m.
  - destruct n, m; reflexivity.
  - destruct n as [|n]; cbn [substring].
    + destruct m as [|m]; [reflexivity|]. cbn. rewrite IH. f_equal.
      now rewrite Nat.sub_0_r.
    + cbn. apply IH.
Qed.

(** X15. The text [truncateAddress] makes of an address has the first 8 and
    the last 6 characters of it around three dots: 17 characters for every
    address of 14 characters or more, so that it is shorter than the address
    only from 18 characters on. *)
Theorem truncateAddress_length (addr : string) :
  let n := String.length addr in
  String.length (EbookCard.truncateAddress addr)
  = (Nat.min 8 n + 3 + Nat.min 6 n)%nat
  /\ ((14 <= n)%nat ->
      String.length (EbookCard.truncateAddress addr) = 17%nat)
  /\ ((n <= 17)%nat ->
      (n <= String.length (EbookCard.truncateAddress addr))%nat).
Proof.
  intros n. unfold EbookCard.truncateAddress, EbookCard.slice_first,
    EbookCard.slice_last.
  rewrite !string_length_append, !string_length_substring. fold n.
  cbn [String.length]. lia.
Qed.

Lemma truncateAddress_length_witness :
  (14 <= String.length "SP31G2FZ5JN87BATZMP4ZRYE5F7WZQDNEXJ7G7X97")%nat
  /\ EbookCard.truncateAddress "SP31G2FZ5JN87BATZMP4ZRYE5F7WZQDNEXJ7G7X97"
     = "SP31G2FZ...7G7X97"
  /\ String.length
       (EbookCard.truncateAddress "SP31G2FZ5JN87BATZMP4ZRYE5F7WZQDNEXJ7G7X97")
     = 17%nat.
Proof.
  assert (H : (14 <= String.length
                       "SP31G2FZ5JN87BATZMP4ZRYE5F7WZQDNEXJ7G7X97")%nat)
    by (vm_compute; lia).
  split; [exact H|]. split; [reflexivity|].
  exact (proj1 (proj2 (truncateAddress_length
                         "SP31G2FZ5JN87BATZMP4ZRYE5F7WZQDNEXJ7G7X97")) H).
Defined.

Lemma code_bounds (c : ascii) : 0 <= code c < 256.
Proof.
  unfold code. pose proof (N_ascii_bounded c). lia.
Qed.

Lemma be_bytes_bounds (width : nat) (x : Z) :
  Forall (fun b => 0 <= b < 256) (SHA256.be_bytes width x).
Proof.
  unfold SHA256.be_bytes. apply Forall_forall. intros b Hb.
  apply list_elem_of_In, in_map_iff in Hb as (i & <- & _).
  apply Z.mod_pos_bound. lia.
Qed.

(** X16. What [handleSubmit] submits as the content hash is a byte string
    of exactly 32 bytes, each from 0 to 255, whatever bytes are hashed, as
    the [(buff 32)] that the contract takes; what [TextEncoder] gives for
    the content identifier is a byte string as well. *)
Theorem content_hash_is_32_bytes (ipfsCid : string) (data : list Z) :
  Forall (fun b => 0 <= b < 256) (TextEncoder_encode ipfsCid)
  /\ length (SHA256.digest data) = 32%nat
  /\ Forall (fun b => 0 <= b < 256) (SHA256.digest data).
Proof.
  split; [|split].
  - unfold TextEncoder_encode. apply Forall_forall. intros b Hb.
    apply list_elem_of_In, in_flat_map in Hb as (c & _ & Hb).
    unfold encode_unit in Hb. pose proof (code_bounds c) as Hc.
    destruct (Z.ltb_spec (code c) 128).
    + destruct Hb as [<-|[]]. lia.
    + assert (0 <= code c / 64 < 4)
        by (split; [apply Z.div_pos|apply Z.div_lt_upper_bound]; lia).
      pose proof (Z.mod_pos_bound (code c) 64 ltac:(lia)).
      destruct Hb as [<-|[<-|[]]]; lia.
  - apply SHA256_digest_length.
  - unfold SHA256.digest. apply Forall_forall. intros b Hb.
    apply list_elem_of_In, in_flat_map in Hb as (w & _ & Hb).
    pose proof (be_bytes_bounds 4 w) as Hall.
    rewrite Forall_forall in Hall. apply Hall. now apply list_elem_of_In.
Qed.

(** ** Network selection, continued *)

#[local] Set Warnings "-clear-no-such-hyp".

(** X18. [getNetwork] is the testnet for the value ["testnet"] only, the
    mainnet for ["mainnet"] and when [NEXT_PUBLIC_NETWORK] is unset or empty,
    and the devnet for every other value, whatever its spelling. *)
Theorem getNetwork_cases (B : Browser) :
  (getNetwork B = StacksTestnet <-> NEXT_PUBLIC_NETWORK B = Some "testnet")
  /\ (getNetwork B = StacksMainnet <->
      NEXT_PUBLIC_NETWORK B = Some "mainnet"
      \/ NEXT_PUBLIC_NETWORK B = None
      \/ NEXT_PUBLIC_NETWORK B = Some EmptyString)
  /\ (getNetwork B = StacksDevnet <->
      exists v, NEXT_PUBLIC_NETWORK B = Some v /\ v <> EmptyString
                /\ v <> "mainnet" /\ v <> "testnet").
Proof.
  unfold getNetwork.
  destruct (NEXT_PUBLIC_NETWORK B) as [v|]; [|cbn; naive_solver].
  destruct (string_dec v EmptyString) as [->|Hne]; [cbn; naive_solver|].
  rewrite (env_or_nonempty v "mainnet" Hne).
  destruct (String.eqb_spec v "mainnet") as [->|Hm]; [naive_solver|].
  destruct (String.eqb_spec v "testnet") as [->|Ht]; naive_solver.
Qed.

(** ** My Books, the version that reads the author index *)

Lemma filter_Boolean_kept_indexed (fs : list (nat * JSValue)) :
  MyBooks.filter_Boolean
    (map (fun '(id, ebook) =>
            if ToBoolean ebook then Some (MyBooksIndexed.listing id ebook)
            else None)
       fs)
  = kept keep_indexed fs.
Proof.
  unfold MyBooks.filter_Boolean, kept, keep_indexed.
  induction fs as [|[id ebook] rest IH]; [reflexivity|].
  cbn. rewrite <- IH. now destruct (ToBoolean ebook).
Qed.

Lemma fetch_all_run ids R (s : MyBooksIndexed.State) h :
  MyBooksIndexed.fetch_all ids R s h =
  {| outcome := Returns (kept keep_indexed (fetches R h ids)); page := s;
     trace := h ++ map fetch_request ids |}.
Proof.
  unfold MyBooksIndexed.fetch_all.
  erewrite bind_run; cycle 1.
  { apply (map_async_fetch_run
             (fun id ebook =>
                if ToBoolean ebook then Some (MyBooksIndexed.listing id ebook)
                else None)).
    intros id R' s' h'.
    rewrite (bind_run _ _ _ _ _ _ _ _ (getEbook_run R' s' h' id)).
    now destruct (ToBoolean (ebook_answer R' h' id)). }
  unfold ret. now rewrite filter_Boolean_kept_indexed.
Qed.

Lemma loadMyBooksIndexed_run B R (s : MyBooksIndexed.State) h
    (address : string) :
  getUserAddress B = Some address ->
  address <> EmptyString ->
  let ids := ids_answer (get_author_ebooks R h address) in
  let h1 := h ++ author_request address :: map fetch_request ids in
  let bought := ids_answer (get_buyer_ebooks R h1 address) in
  MyBooksIndexed.loadMyBooks B R s h =
  {| outcome := Returns tt;
     page :=
       {| MyBooksIndexed.publishedEbooks :=
            kept keep_indexed (fetches R (h ++ [author_request address]) ids);
          MyBooksIndexed.purchasedEbooks :=
            kept keep_indexed
              (fetches R (h1 ++ [buyer_request address]) bought);
          MyBooksIndexed.isLoading := false;
          MyBooksIndexed.walletConnected :=
            MyBooksIndexed.walletConnected s |};
     trace := h1 ++ buyer_request address :: map fetch_request bought |}.
Proof.
  intros Ha Hne ids h1 bought.
  unfold MyBooksIndexed.loadMyBooks. rewrite Ha.
  destruct address as [|c a]; [congruence|].
  cbv beta iota. set (address := String c a) in *.
  unfold try_finally.
  erewrite try_catch_run; cycle 1.
  - erewrite bind_run by reflexivity.
    rewrite (bind_run _ _ _ _ _ _ _ _ (getAuthorEbooks_run R _ h address)).
    rewrite (bind_run _ _ _ _ _ _ _ _ (fetch_all_run _ R _ _)).
    erewrite bind_run by reflexivity.
    rewrite (bind_run _ _ _ _ _ _ _ _ (getBuyerEbooks_run R _ _ address)).
    rewrite (bind_run _ _ _ _ _ _ _ _ (fetch_all_run _ R _ _)).
    reflexivity.
  - cbn [outcome page trace MyBooksIndexed.setIsLoading
         MyBooksIndexed.setPublishedEbooks MyBooksIndexed.setPurchasedEbooks
         modify MyBooksIndexed.publishedEbooks MyBooksIndexed.purchasedEbooks
         MyBooksIndexed.isLoading MyBooksIndexed.walletConnected].
    fold ids. subst h1 bought.
    rewrite <- !List.app_assoc. cbn [app]. reflexivity.
Qed.

(** X19. The version of My Books that reads the author index builds the
    published list from the records fetched for the ids of that index, and
    from nothing else: it requests neither the count nor any record outside
    the two indexes, its published ids keep the order of the index, and with
    an empty index the published list is empty whatever the contract holds. *)
Theorem my_books_indexed_lists (B : Browser) (R : Remote)
    (s : MyBooksIndexed.State) (h : History) (address : string) :
  getUserAddress B = Some address ->
  address <> EmptyString ->
  let r := MyBooksIndexed.loadMyBooks B R s h in
  let ids := ids_answer (get_author_ebooks R h address) in
  let h1 := h ++ author_request address :: map fetch_request ids in
  let bought := ids_answer (get_buyer_ebooks R h1 address) in
  MyBooksIndexed.publishedEbooks (page r) =
    kept keep_indexed (fetches R (h ++ [author_request address]) ids)
  /\ sublist (map Ebook.id (MyBooksIndexed.publishedEbooks (page r))) ids
  /\ (ids = [] -> MyBooksIndexed.publishedEbooks (page r) = [])
  /\ trace r = h1 ++ buyer_request address :: map fetch_request bought
  /\ (In count_request (trace r) -> In count_request h)
  /\ MyBooksIndexed.isLoading (page r) = false.
Proof.
  intros Ha Hne r ids h1 bought. subst r.
  rewrite (loadMyBooksIndexed_run B R s h address Ha Hne).
  cbn [page trace MyBooksIndexed.publishedEbooks MyBooksIndexed.isLoading].
  fold ids. fold h1. fold bought.
  split; [reflexivity|]. split; [|split; [|split; [|split]]].
  - rewrite <- (fetches_ids R (h ++ [author_request address]) ids) at 2.
    apply kept_ids_sublist. intros id ebook. unfold keep_indexed.
    destruct (ToBoolean ebook); eauto.
  - intros ->. reflexivity.
  - reflexivity.
  - intros Hin.
    assert (Hmap : forall l, ~ In count_request (map fetch_request l)).
    { intros l Hl. apply in_map_iff in Hl as (x & Hx & _). discriminate. }
    apply in_app_or in Hin as [Hin|Hin].
    + unfold h1 in Hin. apply in_app_or in Hin as [Hin|Hin]; [exact Hin|].
      cbn [In] in Hin. destruct Hin as [Hin|Hin]; [discriminate|].
      now apply Hmap in Hin.
    + cbn [In] in Hin. destruct Hin as [Hin|Hin]; [discriminate|].
      now apply Hmap in Hin.
  - reflexivity.
Qed.

Lemma my_books_indexed_lists_witness :
  let a := "SP2J6ZY48GV1EZ5V2V5RB9MP66SW86PYKKNRV9EJ7" in
  let B := Example.browser None in
  let R := with_author_ebooks (Example.store a) (fun _ _ => Returns (Some [])) in
  getUserAddress B = Some a
  /\ MyBooksIndexed.publishedEbooks
       (page (MyBooksIndexed.loadMyBooks B R MyBooksIndexed.initial [])) = []
  /\ map Ebook.id
       (MyBooks.publishedEbooks
          (page (MyBooks.loadMyBooks (Some a) R MyBooks.initial [])))
     = [1; 2; 3]%nat.
Proof.
  intros a B R.
  assert (Hne : a <> EmptyString) by discriminate.
  destruct (my_books_indexed_lists B R MyBooksIndexed.initial [] a eq_refl Hne)
    as (_ & _ & Hempty & _).
  split; [reflexivity|]. split; [exact (Hempty eq_refl)|].
  rewrite (loadMyBooks_run R MyBooks.initial [] a Hne). vm_compute.
  reflexivity.
Defined.
